(** * Password and request security of the banking API

    A shallow embedding of
    - [utils/passwordSecurity.ts] (class [PasswordSecurityManager]),
    - the advanced security middleware ([checkHoneypotFields],
      [generateRequestFingerprint], [enhancedRateLimit]),
    - [routes/auth.ts] (the [/login] and [/employee/login] handlers),
    together with the properties the specification states about them.

    Conventions.  A JavaScript string is the list of its UTF-16 code units
    (type [N]); [Date] values are their millisecond time values (type [Z]),
    taken within the range a [Date] can hold; a JavaScript number holding an
    integer is a [Z].  The [bcrypt] and [crypto] packages are parameters.
    The user collection is a list of documents and its operations do not
    fail; a route handler is modelled from the point where the middleware
    of its route has called [next()]. *)

From Stdlib Require Import ZArith NArith Lia Bool List Ascii String DecimalString.
From stdpp Require Import base option list gmap.
Import ListNotations.

(* ===================================================================== *)
(** ** JavaScript strings and the built-ins the code relies on *)
(* ===================================================================== *)

Module JS.

Abbreviation jsstring := (list N).

(** A string literal of the source, as code units. *)
Definition js (s : string) : jsstring :=
  map N_of_ascii (list_ascii_of_string s).

Definition between (lo hi c : N) : bool := ((lo <=? c) && (c <=? hi))%N.

Definition isLower (c : N) : bool := between 97 122 c.   (* [a-z] *)
Definition isUpper (c : N) : bool := between 65 90 c.    (* [A-Z] *)
Definition isDigit (c : N) : bool := between 48 57 c.    (* [0-9] *)
Definition isAlnum (c : N) : bool := isUpper c || isLower c || isDigit c.

(** ECMAScript LineTerminator: LF, CR, U+2028, U+2029.  The pattern
    character [.] (without the [s] flag) matches every code unit but
    these. *)
Definition isLineTerminator (c : N) : bool :=
  ((c =? 10) || (c =? 13) || (c =? 8232) || (c =? 8233))%N.

Definition dot (c : N) : bool := negb (isLineTerminator c).

Definition isHighSurrogate (c : N) : bool := between 55296 56319 c.
Definition isLowSurrogate (c : N) : bool := between 56320 57343 c.
Definition isSurrogate (c : N) : bool := between 55296 57343 c.

(** [String.prototype[Symbol.iterator]]: the string is read code point by
    code point; a high surrogate followed by a low surrogate is yielded as
    one two-unit string, every other code unit on its own. *)
Fixpoint stringIterator (s : jsstring) : list jsstring :=
  match s with
  | [] => []
  | c :: rest =>
      match rest with
      | d :: rest' =>
          if isHighSurrogate c && isLowSurrogate d
          then [c; d] :: stringIterator rest'
          else [c] :: stringIterator rest
      | [] => [[c]]
      end
  end.

(** [new Set(iterable).size]: the number of distinct elements. *)
Definition setSize (xs : list jsstring) : nat := length (remove_dups xs).

(** Canonicalize of a case-insensitive pattern without the [u] flag:
    the code unit is upper-cased, and a code unit of 128 or more is never
    mapped below 128.  Against the ASCII letters and digits of the
    patterns used here only the ASCII part of the mapping can produce a
    match, which is what this function keeps. *)
Definition canonicalize (c : N) : N := if isLower c then (c - 32)%N else c.

(** Does the literal [pat] match at the start of [s], ignoring case? *)
Fixpoint prefixCI (pat s : jsstring) : bool :=
  match pat, s with
  | [], _ => true
  | _ :: _, [] => false
  | p :: pat', c :: s' =>
      (canonicalize p =? canonicalize c)%N && prefixCI pat' s'
  end.

(** [/a1|a2|.../i.test(s)] for literal alternatives: the matcher tries
    every alternative at the first position, then moves one code unit to
    the right. *)
Fixpoint testAlternativesCI (alts : list jsstring) (s : jsstring) : bool :=
  existsb (fun alt => prefixCI alt s) alts
  || match s with
     | [] => false
     | _ :: s' => testAlternativesCI alts s'
     end.

(** [/(.)\1{2,}/.test(s)]: some code unit matched by [.] is followed by at
    least two copies of itself. *)
Fixpoint testRepeated (s : jsstring) : bool :=
  match s with
  | a :: rest =>
      match rest with
      | b :: c :: _ => dot a && (a =? b)%N && (a =? c)%N
      | _ => false
      end
      || testRepeated rest
  | [] => false
  end.

(** [/[class]/.test(s)] for a one-character class. *)
Definition testClass (cls : N -> bool) (s : jsstring) : bool := existsb cls s.

(** WhiteSpace and LineTerminator code units, the ones
    [String.prototype.trim] strips. *)
Definition isTrimmed (c : N) : bool :=
  (between 9 13 c || (c =? 32) || (c =? 160) || (c =? 5760)
   || between 8192 8202 c || (c =? 8232) || (c =? 8233) || (c =? 8239)
   || (c =? 8287) || (c =? 12288) || (c =? 65279))%N.

Fixpoint trimStart (s : jsstring) : jsstring :=
  match s with
  | c :: s' => if isTrimmed c then trimStart s' else s
  | [] => []
  end.

Definition trim (s : jsstring) : jsstring :=
  rev (trimStart (rev (trimStart s))).

Definition isEmpty (s : jsstring) : bool :=
  match s with [] => true | _ => false end.

(** [Math.max(0, Math.min(100, x))] on integers. *)
Definition clamp100 (x : Z) : Z := Z.max 0 (Z.min 100 x).

(** [Math.ceil(x / d)] for integers [x] and a positive integer [d] whose
    quotient is exactly representable, as all the quotients below are. *)
Definition ceilDiv (x d : Z) : Z := (- ((- x) / d))%Z.

End JS.
Import JS.

(* ===================================================================== *)
(** ** [PasswordSecurityManager.checkPasswordStrength] *)
(* ===================================================================== *)

Record PasswordStrengthResult := {
  score : Z;
  feedback : list string;
  isStrong : bool
}.

Definition commonPatterns : list jsstring :=
  [js "123"; js "abc"; js "qwe"; js "password"; js "admin"].

Definition summary (score : Z) : string :=
  (if (score <? 30)%Z then "Password is very weak"
   else if (score <? 50)%Z then "Password is weak"
   else if (score <? 70)%Z then "Password is moderate"
   else if (score <? 90)%Z then "Password is strong"
   else if (score <? 100)%Z then "Password is very strong"
   else "Password is perfect! Maximum security achieved")%string.

(** One [if (cond) { score += pts }]. *)
Definition award (cond : bool) (pts : Z) (st : Z * list string) : Z * list string :=
  if cond then ((st.1 + pts)%Z, st.2) else st.

(** One [if (cond) { score += pts } else { feedback.push(msg) }]. *)
Definition awardOr (cond : bool) (pts : Z) (msg : string)
    (st : Z * list string) : Z * list string :=
  if cond then ((st.1 + pts)%Z, st.2) else (st.1, st.2 ++ [msg]).

(** One [if (cond) { score -= pts; feedback.push(msg) }]. *)
Definition deduct (cond : bool) (pts : Z) (msg : string)
    (st : Z * list string) : Z * list string :=
  if cond then ((st.1 - pts)%Z, st.2 ++ [msg]) else st.

Arguments award cond%_bool pts%_Z st.
Arguments awardOr cond%_bool pts%_Z msg%_string st.
Arguments deduct cond%_bool pts%_Z msg%_string st.

Definition checkPasswordStrength (password : jsstring) : PasswordStrengthResult :=
  let len := length password in
  let st := (0%Z, @nil string) in
  (* Length check *)
  let st := awardOr (8 <=? len) 20 "Password should be at least 8 characters long" st in
  let st := award (12 <=? len) 10 st in
  let st := award (16 <=? len) 10 st in
  (* Character variety checks *)
  let st := awardOr (testClass isLower password) 10
              "Password should contain lowercase letters" st in
  let st := awardOr (testClass isUpper password) 10
              "Password should contain uppercase letters" st in
  let st := awardOr (testClass isDigit password) 10
              "Password should contain numbers" st in
  let st := awardOr (testClass (fun c => negb (isAlnum c)) password) 10
              "Password should contain special characters" st in
  (* Pattern checks *)
  let st := deduct (testRepeated password) 10 "Avoid repeating characters" st in
  let st := deduct (testAlternativesCI commonPatterns password) 20
              "Avoid common patterns or dictionary words" st in
  (* Entropy check *)
  let uniqueChars := setSize (stringIterator password) in
  let st := deduct (uniqueChars <? 4) 10 "Use more diverse characters" st in
  (* Bonuses *)
  let st := award ((16 <=? len) && (10 <=? uniqueChars)) 10 st in
  let st := award ((20 <=? len) && (15 <=? uniqueChars)) 10 st in
  let score := clamp100 st.1 in
  {| score := score;
     feedback := summary score :: st.2;
     isStrong := (70 <=? score)%Z |}.

(* ===================================================================== *)
(** ** Hashing, history and lockout of [PasswordSecurityManager] *)
(* ===================================================================== *)

(** An awaited call either yields a value or throws (the promise is
    rejected). *)
Inductive outcome (A : Type) : Type :=
| Returned (a : A)
| Threw (e : string).
Arguments Returned {A} a.
Arguments Threw {A} e%_string.

Definition saltRounds : N := 12.
Definition maxPasswordHistory : nat := 5.
Definition maxFailedAttempts : Z := 5.
Definition lockoutDuration : Z := 15 * 60 * 1000.

(** [a || b] on strings: the empty string and [undefined] are falsy. *)
Definition orElse (a : option jsstring) (b : jsstring) : jsstring :=
  match a with
  | Some (c :: s) => c :: s
  | _ => b
  end.

Definition defaultPepper : jsstring := js "default-pepper-change-in-production".

(** [ENV.PASSWORD_PEPPER] of [config/env.ts], from [process.env]. *)
Definition ENV_PASSWORD_PEPPER (env : option jsstring) : jsstring :=
  orElse env defaultPepper.

(** The [pepper] field set by the constructor. *)
Definition pepperOf (env : option jsstring) : jsstring :=
  orElse (Some (ENV_PASSWORD_PEPPER env)) defaultPepper.

Module Entry.
Record t := { passwordHash : jsstring; createdAt : Z }.
End Entry.

Record AccountLockoutInfo := {
  failedAttempts : Z;
  lockoutUntil : option Z;
  lastAttempt : Z
}.

(** [arr.slice(-n)] for [n > 0]: the last [n] elements, all of them when
    there are fewer. *)
Definition sliceLast {A} (n : nat) (l : list A) : list A :=
  drop (length l - n) l.

Section PasswordSecurityManager.

(** The [bcrypt] package is an external dependency.  [bcrypt_hash data
    rounds salt] is the digest [bcrypt.hash(data, rounds)] resolves to when
    the salt it draws is [salt]; [bcrypt_compare data digest] is the result
    of awaiting [bcrypt.compare(data, digest)]. *)
Variable bcrypt_hash : jsstring -> N -> jsstring -> jsstring.
Variable bcrypt_compare : jsstring -> jsstring -> outcome bool.

(** The value of [process.env.PASSWORD_PEPPER]. *)
Variable env_pepper : option jsstring.

Definition pepper : jsstring := pepperOf env_pepper.

Definition hashPassword (salt : jsstring) (password : jsstring) : jsstring :=
  let pepperedPassword := password ++ pepper in
  bcrypt_hash pepperedPassword saltRounds salt.

Definition verifyPassword (password hash : jsstring) : outcome bool :=
  let pepperedPassword := password ++ pepper in
  match bcrypt_compare pepperedPassword hash with
  | Returned b => Returned b
  | Threw _ => Returned false       (* catch (error) { ...; return false } *)
  end.

(** The loop of [isPasswordInHistory] over the recent entries. *)
Fixpoint anyVerifies (password : jsstring) (entries : list Entry.t) : outcome bool :=
  match entries with
  | [] => Returned false
  | entry :: rest =>
      match verifyPassword password (Entry.passwordHash entry) with
      | Returned true => Returned true
      | Returned false => anyVerifies password rest
      | Threw e => Threw e
      end
  end.

Definition isPasswordInHistory (password : jsstring)
    (passwordHistory : list Entry.t) : outcome bool :=
  match passwordHistory with
  | [] => Returned false
  | _ => anyVerifies password (sliceLast maxPasswordHistory passwordHistory)
  end.

(** [salt] is the salt drawn by [bcrypt.hash], [now] the value of
    [new Date()]. *)
Definition addToPasswordHistory (salt : jsstring) (now : Z)
    (password : jsstring) (existingHistory : list Entry.t) : list Entry.t :=
  let hash := hashPassword salt password in
  let newEntry := {| Entry.passwordHash := hash; Entry.createdAt := now |} in
  let updatedHistory := existingHistory ++ [newEntry] in
  sliceLast maxPasswordHistory updatedHistory.

End PasswordSecurityManager.

(** In the lockout functions [now] is the value of the [new Date()] the
    function evaluates. *)
Definition isAccountLocked (now : Z) (lockoutInfo : AccountLockoutInfo) : bool :=
  match lockoutUntil lockoutInfo with
  | None => false
  | Some until => (now <? until)%Z
  end.

Definition recordFailedAttempt (now : Z) (lockoutInfo : AccountLockoutInfo)
    : AccountLockoutInfo :=
  let failedAttempts' := (failedAttempts lockoutInfo + 1)%Z in
  {| failedAttempts := failedAttempts';
     lockoutUntil :=
       if (maxFailedAttempts <=? failedAttempts')%Z
       then Some (now + lockoutDuration)%Z
       else None;
     lastAttempt := now |}.

Definition resetFailedAttempts (now : Z) (lockoutInfo : AccountLockoutInfo)
    : AccountLockoutInfo :=
  {| failedAttempts := 0; lockoutUntil := None; lastAttempt := now |}.

Definition getLockoutTimeRemaining (now : Z) (lockoutInfo : AccountLockoutInfo) : Z :=
  match lockoutUntil lockoutInfo with
  | None => 0
  | Some until => Z.max 0 (until - now)
  end.

(* ===================================================================== *)
(** ** The [/login] and [/employee/login] handlers of [routes/auth.ts] *)
(* ===================================================================== *)

Module User.
Record t := {
  _id : N;
  username : jsstring;
  fullName : jsstring;
  idNumber : jsstring;
  accountNumber : jsstring;
  email : jsstring;
  passwordHash : jsstring;
  passwordHistory : list Entry.t;
  lockoutInfo : AccountLockoutInfo;
  lastPasswordChange : Z;
  createdAt : Z;
  updatedAt : Z
}.

Definition withLockoutInfo (info : AccountLockoutInfo) (u : t) : t :=
  {| _id := _id u; username := username u; fullName := fullName u;
     idNumber := idNumber u; accountNumber := accountNumber u;
     email := email u; passwordHash := passwordHash u;
     passwordHistory := passwordHistory u; lockoutInfo := info;
     lastPasswordChange := lastPasswordChange u;
     createdAt := createdAt u; updatedAt := updatedAt u |}.

Definition withUpdatedAt (stamp : Z) (u : t) : t :=
  {| _id := _id u; username := username u; fullName := fullName u;
     idNumber := idNumber u; accountNumber := accountNumber u;
     email := email u; passwordHash := passwordHash u;
     passwordHistory := passwordHistory u; lockoutInfo := lockoutInfo u;
     lastPasswordChange := lastPasswordChange u;
     createdAt := createdAt u; updatedAt := stamp |}.

(** The document after an update [{ lockoutInfo }]: the schema has
    [timestamps: true], so the write also sets [updatedAt]. *)
Definition updated (info : AccountLockoutInfo) (stamp : Z) (u : t) : t :=
  withUpdatedAt stamp (withLockoutInfo info u).
End User.

(** The calls of a handler that the properties below speak about. *)
Inductive Event :=
| Compared (password hash : jsstring)           (* passwordSecurity.verifyPassword *)
| Updated (id : N) (info : AccountLockoutInfo). (* User.findByIdAndUpdate *)

Record Session := { uid : option N; role : option string }.

(** The collection of users in document order, the number of clock readings
    taken so far, the calls made so far, and the session of the request. *)
Record World := {
  users : list User.t;
  ticks : nat;
  trace : list Event;
  session : Session
}.

Inductive Body :=
| ErrorBody (error : string)
| LockedBody (error : string) (lockoutMinutesRemaining : Z)
| LoggedInBody (message : string) (username fullName accountNumber : jsstring)
| EmployeeBody (message : string) (username fullName accountNumber : jsstring)
    (role : string).

Record Response := { status : Z; body : Body }.

Definition json (status : Z) (body : Body) : Response :=
  {| status := status; body := body |}.

(** [parsed.data] of [loginSchema] and of [employeeLoginSchema]. *)
Record LoginInput := {
  li_username : jsstring;
  li_password : jsstring;
  li_accountNumber : jsstring
}.

Record EmployeeLoginInput := {
  ei_employeeNumber : jsstring;
  ei_password : jsstring
}.

(** A request as the handler sees it: the result of [safeParse] on its body
    ([None] when [parsed.success] is false), whether
    [req.session.regenerate] will report an error, and the time the
    database stamps the write of the request with (a handler writes at
    most once). *)
Record Request (Input : Type) := {
  parsed : option Input;
  regenerateFails : bool;
  stamped : Z
}.
Arguments parsed {Input} _.
Arguments regenerateFails {Input} _.
Arguments stamped {Input} _.

Module Handler.

(** Handlers run in a state monad over [World]. *)
Definition M (A : Type) : Type := World -> A * World.

Definition ret {A} (a : A) : M A := fun w => (a, w).

Definition bind {A B} (m : M A) (k : A -> M B) : M B :=
  fun w => let (a, w') := m w in k a w'.

Declare Scope handler_scope.
Delimit Scope handler_scope with handler.
Notation "'let!' x ':=' m 'in' k" := (bind m (fun x => k))
  (at level 10, x name, m at level 100, k at level 200) : handler_scope.
Notation "m ';;' k" := (bind m (fun _ => k))
  (at level 100, k at level 200, right associativity) : handler_scope.

(** [User.findOne(query)]: the first document matching the query. *)
Definition findOne (p : User.t -> bool) : M (option User.t) :=
  fun w => (find p (users w), w).

(** The query [{ username, accountNumber }]. *)
Definition byCredentials (username accountNumber : jsstring) (u : User.t) : bool :=
  bool_decide (User.username u = username)
  && bool_decide (User.accountNumber u = accountNumber).

(** The query [{ $or: [{ username: employeeNumber }, { idNumber: employeeNumber }] }]. *)
Definition byEmployeeNumber (employeeNumber : jsstring) (u : User.t) : bool :=
  bool_decide (User.username u = employeeNumber)
  || bool_decide (User.idNumber u = employeeNumber).

Fixpoint updateById (id : N) (f : User.t -> User.t) (us : list User.t)
    : list User.t :=
  match us with
  | [] => []
  | u :: rest =>
      if (User._id u =? id)%N then f u :: rest
      else u :: updateById id f rest
  end.

(** [User.findByIdAndUpdate(id, { lockoutInfo })]: [stamp] is the time
    the database writes to [updatedAt]. *)
Definition findByIdAndUpdate (id : N) (info : AccountLockoutInfo) (stamp : Z)
    : M unit :=
  fun w =>
    (tt, {| users := updateById id (User.updated info stamp) (users w);
            ticks := ticks w;
            trace := trace w ++ [Updated id info];
            session := session w |}).

(** [req.session.regenerate(cb)]: on success the session is replaced by
    an empty one. *)
Definition regenerate (fails : bool) : M bool :=
  fun w =>
    if fails then (true, w)
    else (false, {| users := users w; ticks := ticks w; trace := trace w;
                    session := {| uid := None; role := None |} |}).

Definition setSession (s : Session) : M unit :=
  fun w => (tt, {| users := users w; ticks := ticks w; trace := trace w;
                   session := s |}).

Section Handlers.

Variable bcrypt_compare : jsstring -> jsstring -> outcome bool.
Variable env_pepper : option jsstring.

(** [clock i] is the value of the [i]-th [new Date()] the handlers and
    the password manager evaluate. *)
Variable clock : nat -> Z.

Definition now : M Z :=
  fun w => (clock (ticks w),
            {| users := users w; ticks := S (ticks w); trace := trace w;
               session := session w |}).

Definition verify (password hash : jsstring) : M (outcome bool) :=
  fun w => (verifyPassword bcrypt_compare env_pepper password hash,
            {| users := users w; ticks := ticks w;
               trace := trace w ++ [Compared password hash];
               session := session w |}).

Local Open Scope handler_scope.

(** The calls of the lockout methods of the password manager.  Each
    reads the clock where the method evaluates [new Date()]:
    [isAccountLocked] and [getLockoutTimeRemaining] return before that
    when [lockoutUntil] is not set. *)
Definition isAccountLockedNow (lockoutInfo : AccountLockoutInfo) : M bool :=
  match lockoutUntil lockoutInfo with
  | None => ret false
  | Some _ => let! t := now in ret (isAccountLocked t lockoutInfo)
  end.

Definition getLockoutTimeRemainingNow (lockoutInfo : AccountLockoutInfo) : M Z :=
  match lockoutUntil lockoutInfo with
  | None => ret 0%Z
  | Some _ => let! t := now in ret (getLockoutTimeRemaining t lockoutInfo)
  end.

Definition recordFailedAttemptNow (lockoutInfo : AccountLockoutInfo)
    : M AccountLockoutInfo :=
  let! t := now in ret (recordFailedAttempt t lockoutInfo).

Definition resetFailedAttemptsNow (lockoutInfo : AccountLockoutInfo)
    : M AccountLockoutInfo :=
  let! t := now in ret (resetFailedAttempts t lockoutInfo).

Definition serverError : Response := json 500 (ErrorBody "Server error").

Definition login (req : Request LoginInput) : M Response :=
  match parsed req with
  | None => ret (json 400 (ErrorBody "Invalid input"))
  | Some data =>
      let username := li_username data in
      let password := li_password data in
      let accountNumber := li_accountNumber data in
      let! found := findOne (byCredentials username accountNumber) in
      match found with
      | None => ret (json 401 (ErrorBody "Invalid credentials"))
      | Some user =>
          (* Check if account is locked out *)
          let! locked := isAccountLockedNow (User.lockoutInfo user) in
          if locked then
            let! timeRemaining :=
              getLockoutTimeRemainingNow (User.lockoutInfo user) in
            let minutesRemaining := ceilDiv timeRemaining (1000 * 60) in
            ret (json 423
                   (LockedBody
                      "Account temporarily locked due to too many failed attempts"
                      minutesRemaining))
          else
            let! ok := verify password (User.passwordHash user) in
            match ok with
            | Threw _ => ret serverError
            | Returned false =>
                (* Record failed attempt *)
                let! updatedLockoutInfo :=
                  recordFailedAttemptNow (User.lockoutInfo user) in
                findByIdAndUpdate (User._id user) updatedLockoutInfo
                  (stamped req) ;;
                (* Check if account is now locked *)
                let! lockedNow := isAccountLockedNow updatedLockoutInfo in
                if lockedNow then
                  ret (json 423
                         (LockedBody
                            "Account locked due to too many failed attempts" 15))
                else ret (json 401 (ErrorBody "Invalid credentials"))
            | Returned true =>
                (* Reset failed attempts on successful login *)
                let! resetLockoutInfo :=
                  resetFailedAttemptsNow (User.lockoutInfo user) in
                findByIdAndUpdate (User._id user) resetLockoutInfo
                  (stamped req) ;;
                let! err := regenerate (regenerateFails req) in
                if err then ret (json 500 (ErrorBody "Session error"))
                else
                  setSession {| uid := Some (User._id user); role := None |} ;;
                  ret (json 200
                         (LoggedInBody "Logged in" (User.username user)
                            (User.fullName user) (User.accountNumber user)))
            end
      end
  end.

Definition employeeLogin (req : Request EmployeeLoginInput) : M Response :=
  match parsed req with
  | None => ret (json 400 (ErrorBody "Invalid input"))
  | Some data =>
      let employeeNumber := ei_employeeNumber data in
      let password := ei_password data in
      let! found := findOne (byEmployeeNumber employeeNumber) in
      match found with
      | None => ret (json 401 (ErrorBody "Invalid credentials"))
      | Some user =>
          let! ok := verify password (User.passwordHash user) in
          match ok with
          | Threw _ => ret serverError
          | Returned false => ret (json 401 (ErrorBody "Invalid credentials"))
          | Returned true =>
              let! err := regenerate (regenerateFails req) in
              if err then ret (json 500 (ErrorBody "Session error"))
              else
                setSession {| uid := Some (User._id user);
                              role := Some "employee"%string |} ;;
                ret (json 200
                       (EmployeeBody "Employee logged in" (User.username user)
                          (User.fullName user) (User.accountNumber user)
                          "employee"))
          end
      end
  end.

(** A sequence of requests handled one after the other. *)
Fixpoint serve {Input} (handler : Request Input -> M Response)
    (reqs : list (Request Input)) : M (list Response) :=
  match reqs with
  | [] => ret []
  | req :: rest =>
      let! r := handler req in
      let! rs := serve handler rest in
      ret (r :: rs)
  end.

End Handlers.

End Handler.

(* ===================================================================== *)
(** ** The advanced security middleware: honeypot fields and rate limiting *)
(* ===================================================================== *)

#[local] Set Warnings "-register-all".

(** A request body as produced by the JSON body parser.  Numbers are the
    integer-valued ones that print in plain decimal (magnitude below
    10^21); an object is the list of its own properties. *)
Inductive JSON :=
| JNull
| JBool (b : bool)
| JNumber (n : Z)
| JString (s : jsstring)
| JArray (items : list JSON)
| JObject (props : list (jsstring * JSON)).

Module Json.

(** ToBoolean. *)
Definition truthy (v : JSON) : bool :=
  match v with
  | JNull => false
  | JBool b => b
  | JNumber n => negb (n =? 0)%Z
  | JString s => negb (isEmpty s)
  | JArray _ | JObject _ => true
  end.

Definition numberToString (n : Z) : jsstring :=
  js (NilZero.string_of_int (Z.to_int n)).

Definition hasOwn (name : jsstring) (props : list (jsstring * JSON)) : bool :=
  existsb (fun kv => bool_decide (kv.1 = name)) props.

(** [Array.prototype.join] with the separator [","]. *)
Fixpoint joinComma (parts : list jsstring) : jsstring :=
  match parts with
  | [] => []
  | [p] => p
  | p :: rest => p ++ js "," ++ joinComma rest
  end.

(** All the parts, unless the conversion of one of them throws. *)
Fixpoint sequence (parts : list (option jsstring)) : option (list jsstring) :=
  match parts with
  | [] => Some []
  | None :: _ => None
  | Some p :: rest =>
      match sequence rest with
      | Some ps => Some (p :: ps)
      | None => None
      end
  end.

(** [v.toString()], [None] when the call throws a TypeError.  A parsed
    object has no callable property of its own, so an own [toString]
    property makes the call throw and otherwise [Object.prototype.toString]
    answers; an array joins the conversions of its elements, [null]
    counting as the empty string. *)
Fixpoint toString (v : JSON) : option jsstring :=
  match v with
  | JNull => None
  | JBool true => Some (js "true")
  | JBool false => Some (js "false")
  | JNumber n => Some (numberToString n)
  | JString s => Some s
  | JArray items =>
      let element (x : JSON) :=
        match x with
        | JNull => Some []
        | _ => toString x
        end in
      match sequence (map element items) with
      | Some parts => Some (joinComma parts)
      | None => None
      end
  | JObject props =>
      if hasOwn (js "toString") props then None
      else Some (js "[object Object]")
  end.

(** [body[field]] for a field name that no prototype defines: the own
    property of an object, [undefined] for everything else. *)
Definition get (body : JSON) (field : jsstring) : option JSON :=
  match body with
  | JObject props =>
      match find (fun kv => bool_decide (kv.1 = field)) props with
      | Some kv => Some kv.2
      | None => None
      end
  | _ => None
  end.

End Json.

Definition HONEYPOT_FIELDS : list jsstring :=
  map js
    ["website"; "url"; "homepage"; "home_page"; "website_url";
     "email_confirm"; "email_confirmation"; "email_verify";
     "phone_confirm"; "phone_confirmation";
     "address_confirm"; "address_confirmation";
     "captcha"; "recaptcha"; "hcaptcha";
     "bot_check"; "human_check"; "spam_check";
     "timestamp"; "time_check"; "delay";
     "company"; "company_name"; "business_name";
     "website_url"; "personal_website"; "blog_url";
     "social_media"; "facebook"; "twitter"; "instagram";
     "linkedin"; "github"; "portfolio"; "cv"; "resume"]%string.

(** The condition of the loop body,
    [body[field] && body[field].toString().trim() !== ''];
    [Threw] when [toString] is not callable. *)
Definition fieldFilled (body : JSON) (field : jsstring) : outcome bool :=
  match Json.get body field with
  | None => Returned false
  | Some v =>
      if Json.truthy v then
        match Json.toString v with
        | Some s => Returned (negb (isEmpty (trim s)))
        | None => Threw "TypeError"
        end
      else Returned false
  end.

Fixpoint anyFieldFilled (body : JSON) (fields : list jsstring) : outcome bool :=
  match fields with
  | [] => Returned false
  | field :: rest =>
      match fieldFilled body field with
      | Returned true => Returned true      (* Honeypot triggered *)
      | Returned false => anyFieldFilled body rest
      | Threw e => Threw e
      end
  end.

(** [req.body || {}]; [reqBody] is [None] when [req.body] is undefined. *)
Definition bodyOrEmpty (reqBody : option JSON) : JSON :=
  match reqBody with
  | Some b => if Json.truthy b then b else JObject []
  | None => JObject []
  end.

Definition checkHoneypotFields (reqBody : option JSON) : outcome bool :=
  let body := bodyOrEmpty reqBody in
  anyFieldFilled body HONEYPOT_FIELDS.

(** The connection and header attributes a fingerprint is made of; [None]
    is an absent header. *)
Record HttpRequest := {
  req_ip : option jsstring;
  req_remoteAddress : option jsstring;
  req_userAgent : option jsstring;
  req_acceptLanguage : option jsstring;
  req_acceptEncoding : option jsstring;
  req_connection : option jsstring
}.

Record RequestFingerprint := {
  ip : jsstring;
  userAgent : jsstring;
  acceptLanguage : jsstring;
  acceptEncoding : jsstring;
  connection : jsstring;
  fingerprint : jsstring
}.

Record RateWindow := { count : Z; resetTime : Z }.

(** The middleware either calls [next()] or answers 429 with
    [{ error: 'Too many requests', retryAfter }]. *)
Inductive Verdict :=
| Next
| TooManyRequests (retryAfter : Z).

Definition windowMs : Z := 15 * 60 * 1000.
Definition maxRequests : Z := 100.

Section RateLimit.

(** [crypto.createHash('sha256').update(s).digest('hex')]. *)
Variable sha256hex : jsstring -> jsstring.

Definition generateRequestFingerprint (req : HttpRequest) : RequestFingerprint :=
  let ip := orElse (req_ip req) (orElse (req_remoteAddress req) (js "unknown")) in
  let userAgent := orElse (req_userAgent req) [] in
  let acceptLanguage := orElse (req_acceptLanguage req) [] in
  let acceptEncoding := orElse (req_acceptEncoding req) [] in
  let connection := orElse (req_connection req) [] in
  let fingerprintString :=
    ip ++ js "-" ++ userAgent ++ js "-" ++ acceptLanguage ++ js "-"
       ++ acceptEncoding ++ js "-" ++ connection in
  {| ip := ip; userAgent := userAgent; acceptLanguage := acceptLanguage;
     acceptEncoding := acceptEncoding; connection := connection;
     fingerprint := sha256hex fingerprintString |}.

(** One run of the middleware returned by [enhancedRateLimit()]:
    [requests] is the map the closure owns, [now] the value of
    [Date.now()].  The security event logged on the 429 branch touches
    the logger only and is left out. *)
Definition enhancedRateLimit (req : HttpRequest) (now : Z)
    (requests : gmap jsstring RateWindow) : Verdict * gmap jsstring RateWindow :=
  let key := fingerprint (generateRequestFingerprint req) in
  let fresh := (Next, <[key := {| count := 1; resetTime := now + windowMs |}]> requests) in
  match requests !! key with
  | None => fresh
  | Some current =>
      if (now >? resetTime current)%Z then fresh
      else if (count current >=? maxRequests)%Z then
        (TooManyRequests (ceilDiv (resetTime current - now) 1000), requests)
      else
        (Next, <[key := {| count := count current + 1;
                           resetTime := resetTime current |}]> requests)
  end.

(** The middleware applied to a sequence of requests, each with the time
    at which it is handled. *)
Fixpoint runRateLimit (reqs : list (HttpRequest * Z))
    (requests : gmap jsstring RateWindow)
    : list Verdict * gmap jsstring RateWindow :=
  match reqs with
  | [] => ([], requests)
  | (req, now) :: rest =>
      let (v, requests') := enhancedRateLimit req now requests in
      let (vs, requests'') := runRateLimit rest requests' in
      (v :: vs, requests'')
  end.

End RateLimit.


(* ===================================================================== *)
(** ** Vocabulary of the properties *)
(* ===================================================================== *)

(** *** Lockout *)

Definition openState (lastAttempt : Z) : AccountLockoutInfo :=
  {| failedAttempts := 0; lockoutUntil := None; lastAttempt := lastAttempt |}.

(** Failures recorded one after the other, at the given times. *)
Definition recordFailures (times : list Z) (info : AccountLockoutInfo)
    : AccountLockoutInfo :=
  fold_left (fun s t => recordFailedAttempt t s) times info.

(** The number of clock readings [isAccountLocked] takes on a lockout
    record: one when [lockoutUntil] is set, none otherwise. *)
Definition lockReadings (info : AccountLockoutInfo) : nat :=
  match lockoutUntil info with
  | None => 0
  | Some _ => 1
  end.

(** *** Requests and worlds *)

Definition ids (us : list User.t) : list N := map User._id us.

(** The query that finds the account of [user]. *)
Definition accountOf (user : User.t) : User.t -> bool :=
  Handler.byCredentials (User.username user) (User.accountNumber user).

(** The requests of a customer for the account of [user]. *)
Definition requestFor (user : User.t) (req : Request LoginInput) : Prop :=
  exists data, parsed req = Some data
    /\ li_username data = User.username user
    /\ li_accountNumber data = User.accountNumber user.

(** The world after [n] more clock readings and nothing else. *)
Definition advance (n : nat) (w : World) : World :=
  {| users := users w; ticks := n + ticks w; trace := trace w;
     session := session w |}.

(** The same world with every stored lockout record replaced. *)
Definition relock (f : User.t -> AccountLockoutInfo) (w : World) : World :=
  {| users := map (fun u => User.withLockoutInfo (f u) u) (users w);
     ticks := ticks w; trace := trace w; session := session w |}.

Definition isCompared (e : Event) : Prop :=
  match e with Compared _ _ => True | Updated _ _ => False end.

(** The stored failed-attempt counter of the account of [user]. *)
Definition counterOf (user : User.t) (w : World) : option Z :=
  option_map (fun u => failedAttempts (User.lockoutInfo u))
    (find (accountOf user) (users w)).

Section Attempts.

Variable bcrypt_compare : jsstring -> jsstring -> outcome bool.
Variable env_pepper : option jsstring.
Variable clock : nat -> Z.

(** A request for the account of [user] with a password that does not
    verify against the stored hash. *)
Definition failingRequestFor (user : User.t) (req : Request LoginInput) : Prop :=
  exists data, parsed req = Some data
    /\ li_username data = User.username user
    /\ li_accountNumber data = User.accountNumber user
    /\ verifyPassword bcrypt_compare env_pepper
         (li_password data) (User.passwordHash user) = Returned false.

(** The clock readings at which [n] failed attempts in a row are
    recorded on an account whose [lockoutUntil] stays unset, the first
    of them handled from reading number [tick] on: each attempt reads
    the clock once, for the record. *)
Fixpoint failureTimes (n : nat) (tick : nat) : list Z :=
  match n with
  | O => []
  | S n' => clock tick :: failureTimes n' (S tick)
  end.

End Attempts.

(** *** A concrete account and its requests *)

Definition alice : User.t :=
  {| User._id := 1;
     User.username := js "alice";
     User.fullName := js "Alice Example";
     User.idNumber := js "ID000001";
     User.accountNumber := js "12345678";
     User.email := js "alice@securbank.internal";
     User.passwordHash := js "$2b$12$alice";
     User.passwordHistory := [];
     User.lockoutInfo := openState 0;
     User.lastPasswordChange := 0;
     User.createdAt := 0;
     User.updatedAt := 0 |}.

(** Alice's account, locked until 15 minutes past the epoch after five
    failures. *)
Definition lockedAlice : User.t :=
  User.withLockoutInfo
    {| failedAttempts := 5; lockoutUntil := Some 900000; lastAttempt := 0 |}%Z alice.

(** A comparison that accepts exactly Alice's peppered password. *)
Definition demoCompare (data digest : jsstring) : outcome bool :=
  Returned (bool_decide (data = js "Correct#Horse9" ++ defaultPepper)).

(** A comparison primitive that rejects every digest not starting with
    ['$'] by throwing. *)
Definition throwingCompare (data digest : jsstring) : outcome bool :=
  match digest with
  | 36%N :: _ => Returned true
  | _ => Threw "Invalid digest"
  end.

(** One clock reading per second. *)
Definition demoClock (i : nat) : Z := 1000 * Z.of_nat i.

Definition demoWorld (us : list User.t) : World :=
  {| users := us; ticks := 0; trace := [];
     session := {| uid := None; role := None |} |}.

Definition loginAs (password : string) : Request LoginInput :=
  {| parsed := Some {| li_username := js "alice";
                       li_password := js password;
                       li_accountNumber := js "12345678" |};
     regenerateFails := false;
     stamped := 0 |}.

Definition wrongGuesses : list (Request LoginInput) :=
  [loginAs "guess1"; loginAs "guess2"; loginAs "guess3"; loginAs "guess4";
   loginAs "guess5"].

Definition employeeLoginAs (password : string) : Request EmployeeLoginInput :=
  {| parsed := Some {| ei_employeeNumber := js "ID000001";
                       ei_password := js password |};
     regenerateFails := false;
     stamped := 0 |}.

(** *** Rate limiting *)

Section RateLimitVocabulary.

Variable sha256hex : jsstring -> jsstring.

(** The key under which the limiter counts a request. *)
Definition keyOf (req : HttpRequest) : jsstring :=
  fingerprint (generateRequestFingerprint sha256hex req).

Definition hasKey (k : jsstring) (req : HttpRequest) : bool :=
  bool_decide (keyOf req = k).

(** The times of the requests of a trace that carry the key [k]. *)
Definition timesFor (k : jsstring) (reqs : list (HttpRequest * Z)) : list Z :=
  map snd (List.filter (fun rt => hasKey k rt.1) reqs).

(** The verdicts given to the requests of a trace that carry the key
    [k], in order. *)
Definition verdictsFor (k : jsstring) (reqs : list (HttpRequest * Z))
    (vs : list Verdict) : list Verdict :=
  map snd (List.filter (fun rv => hasKey k rv.1.1) (combine reqs vs)).

End RateLimitVocabulary.

(** What one check does to the window of its own key. *)
Definition checkWindow (now : Z) (entry : option RateWindow)
    : Verdict * option RateWindow :=
  let fresh := (Next, Some {| count := 1; resetTime := now + windowMs |}) in
  match entry with
  | None => fresh
  | Some current =>
      if (now >? resetTime current)%Z then fresh
      else if (count current >=? maxRequests)%Z then
        (TooManyRequests (ceilDiv (resetTime current - now) 1000), entry)
      else
        (Next, Some {| count := count current + 1; resetTime := resetTime current |})
  end.

Fixpoint checkWindows (times : list Z) (entry : option RateWindow)
    : list Verdict * option RateWindow :=
  match times with
  | [] => ([], entry)
  | now :: rest =>
      let (v, entry') := checkWindow now entry in
      let (vs, entry'') := checkWindows rest entry' in
      (v :: vs, entry'')
  end.

(** The verdicts inside a window that is reset at [reset] and has counted
    [c] requests so far. *)
Fixpoint inWindow (c reset : Z) (times : list Z) : list Verdict :=
  match times with
  | [] => []
  | now :: rest =>
      if (c >=? maxRequests)%Z
      then TooManyRequests (ceilDiv (reset - now) 1000) :: inWindow c reset rest
      else Next :: inWindow (c + 1) reset rest
  end.

(** A window is open for a first check at [t0] when the key has no entry or
    its entry has expired. *)
Definition startsWindow (t0 : Z) (entry : option RateWindow) : Prop :=
  match entry with
  | None => True
  | Some old => (t0 > resetTime old)%Z
  end.

Definition demoRequest : HttpRequest :=
  {| req_ip := Some (js "203.0.113.7");
     req_remoteAddress := None;
     req_userAgent := Some (js "Mozilla/5.0");
     req_acceptLanguage := Some (js "en");
     req_acceptEncoding := Some (js "gzip");
     req_connection := Some (js "keep-alive") |}.

(** A stand-in for the hash: the fingerprint string itself. *)
Definition demoHash (s : jsstring) : jsstring := s.

(** 101 requests of the same client, one every second from time 0. *)
Definition demoBurst : list (HttpRequest * Z) :=
  map (fun i => (demoRequest, 1000 * Z.of_nat i)%Z) (seq 0 101).

(** *** Honeypot fields *)

(** The trigger condition in the words of the specification: a listed
    field is present with a value whose string form is non-empty after
    trimming. *)
Definition presentNonBlank (body : JSON) (field : jsstring) : Prop :=
  exists v s, Json.get body field = Some v
    /\ Json.toString v = Some s
    /\ trim s <> [].

Definition statedTrigger (body : JSON) : Prop :=
  exists field, In field HONEYPOT_FIELDS /\ presentNonBlank body field.

(** The same with the truthiness test of the code: the value is moreover
    none of [null], [false], [0] and the empty string. *)
Definition filledBy (body : JSON) (field : jsstring) : Prop :=
  exists v s, Json.get body field = Some v
    /\ Json.truthy v = true
    /\ Json.toString v = Some s
    /\ trim s <> [].

(** No listed field holds a truthy value whose [toString()] throws. *)
Definition convertible (body : JSON) : Prop :=
  forall field v,
    In field HONEYPOT_FIELDS ->
    Json.get body field = Some v ->
    Json.truthy v = true ->
    Json.toString v <> None.

Definition websiteBody (value : JSON) : JSON := JObject [(js "website", value)].

(** *** The scoring scheme of the specification *)

(** The point system in the words of section 4.2, to be compared with
    [checkPasswordStrength].  A character is a UTF-16 code unit and the
    length is the number of code units. *)
Module Scheme.

Definition points (cond : bool) (pts : Z) : Z := if cond then pts else 0%Z.

(** Some character repeats three or more times consecutively. *)
Fixpoint repeatsThrice (s : jsstring) : bool :=
  match s with
  | a :: rest =>
      match rest with
      | b :: c :: _ => (a =? b)%N && (b =? c)%N
      | _ => false
      end
      || repeatsThrice rest
  | [] => false
  end.

Definition toLower (c : N) : N := if isUpper c then (c + 32)%N else c.

Fixpoint startsWith (w s : jsstring) : bool :=
  match w, s with
  | [], _ => true
  | _ :: _, [] => false
  | a :: w', b :: s' => (a =? b)%N && startsWith w' s'
  end.

Fixpoint tails (s : jsstring) : list jsstring :=
  s :: match s with
       | [] => []
       | _ :: s' => tails s'
       end.

(** [w] occurs in [s], letter case ignored. *)
Definition occursIn (w s : jsstring) : bool :=
  existsb (startsWith (map toLower w)) (tails (map toLower s)).

Definition denylist : list jsstring :=
  [js "123"; js "abc"; js "qwe"; js "password"; js "admin"].

Definition matchesDenylist (s : jsstring) : bool :=
  existsb (fun w => occursIn w s) denylist.

Definition distinct (s : jsstring) : nat := length (remove_dups s).

Definition rawScore (s : jsstring) : Z :=
  let len := length s in
  (points (8 <=? len)%nat 20
   + points (12 <=? len)%nat 10
   + points (16 <=? len)%nat 10
   + points (existsb isLower s) 10
   + points (existsb isUpper s) 10
   + points (existsb isDigit s) 10
   + points (existsb (fun c => negb (isAlnum c)) s) 10
   - points (repeatsThrice s) 10
   - points (matchesDenylist s) 20
   - points (distinct s <? 4)%nat 10
   + points ((16 <=? len)%nat && (10 <=? distinct s)%nat) 10
   + points ((20 <=? len)%nat && (15 <=? distinct s)%nat) 10)%Z.

Definition score (s : jsstring) : Z := Z.max 0 (Z.min 100 (rawScore s)).

Definition isStrong (s : jsstring) : bool := (70 <=? score s)%Z.

End Scheme.

(** Three line feeds followed by ["Xyzwvut1"], and by ["Xyzwvut1qrs"]. *)
Definition newlinePassword : jsstring := [10; 10; 10]%N ++ js "Xyzwvut1".
Definition newlinePassword15 : jsstring := [10; 10; 10]%N ++ js "Xyzwvut1qrs".

(** Plain text: no line terminator and no surrogate code unit. *)
Definition plain (s : jsstring) : Prop :=
  Forall (fun c => isLineTerminator c = false /\ isSurrogate c = false) s.

(** *** The contract of the [bcrypt] package *)

(** What the documentation of the package promises and the code relies on:
    a digest verifies the data it was made from, and only the first 72 bytes
    of the data are used.  The second is stated for data starting with 72
    ASCII characters, where a code unit is a byte. *)
Definition verifiesOwnDigest
    (bcrypt_hash : jsstring -> N -> jsstring -> jsstring)
    (bcrypt_compare : jsstring -> jsstring -> outcome bool) : Prop :=
  forall data rounds salt,
    bcrypt_compare data (bcrypt_hash data rounds salt) = Returned true.

Definition usesFirst72Bytes
    (bcrypt_hash : jsstring -> N -> jsstring -> jsstring) : Prop :=
  forall key rest rest' rounds salt,
    length key = 72%nat ->
    Forall (fun c => (c < 128)%N) key ->
    bcrypt_hash (key ++ rest) rounds salt = bcrypt_hash (key ++ rest') rounds salt.

(** A password of 72 letters [a]. *)
Definition longPassword : jsstring := repeat 97%N 72.

(** A stand-in with the same contract: the digest is the salt followed by
    the first 72 code units of the data. *)
Definition toyHash (data : jsstring) (rounds : N) (salt : jsstring) : jsstring :=
  salt ++ js "$" ++ take 72 data.

Definition toyCompare (data digest : jsstring) : outcome bool :=
  Returned (bool_decide (drop (length digest - length (take 72 data)) digest
                         = take 72 data)).

(* ===================================================================== *)
(** ** Further vocabulary *)
(* ===================================================================== *)

(** *** Password strength *)

(** The tests [checkPasswordStrength] makes on a password. *)
Record StrengthTests := {
  t_length : nat;
  t_lower : bool;
  t_upper : bool;
  t_digit : bool;
  t_special : bool;
  t_repeated : bool;
  t_common : bool;
  t_unique : nat
}.

Definition testsOf (password : jsstring) : StrengthTests :=
  {| t_length := length password;
     t_lower := testClass isLower password;
     t_upper := testClass isUpper password;
     t_digit := testClass isDigit password;
     t_special := testClass (fun c => negb (isAlnum c)) password;
     t_repeated := testRepeated password;
     t_common := testAlternativesCI commonPatterns password;
     t_unique := setSize (stringIterator password) |}.

(** The three summaries given to a strong password. *)
Definition strongSummaries : list string :=
  ["Password is strong"; "Password is very strong";
   "Password is perfect! Maximum security achieved"]%string.

(** *** Login *)

(** [u'] is [u] with, at most, another lockout record and another
    [updatedAt]. *)
Definition sameButLockout (u u' : User.t) : Prop :=
  u' = User.updated (User.lockoutInfo u') (User.updatedAt u') u.

Section MoreAttempts.

Variable bcrypt_compare : jsstring -> jsstring -> outcome bool.
Variable env_pepper : option jsstring.

(** A request for the account of [user] with a password that verifies
  against the stored hash. *)
Definition verifyingRequestFor (user : User.t) (req : Request LoginInput) : Prop :=
exists data, parsed req = Some data
  /\ li_username data = User.username user
  /\ li_accountNumber data = User.accountNumber user
  /\ verifyPassword bcrypt_compare env_pepper
       (li_password data) (User.passwordHash user) = Returned true.

End MoreAttempts.

Definition invalidCredentials : Response := json 401 (ErrorBody "Invalid credentials").

Definition nowLocked : Response :=
  json 423 (LockedBody "Account locked due to too many failed attempts" 15).

Definition sessionError : Response := json 500 (ErrorBody "Session error").

Definition loggedIn (user : User.t) : Response :=
  json 200 (LoggedInBody "Logged in" (User.username user) (User.fullName user)
              (User.accountNumber user)).

(** Alice's account a full day after a lockout that started at the epoch:
    the lockout has expired, the counter still stands at 5. *)
Definition lateClock (i : nat) : Z := 86400000 + 1000 * Z.of_nat i.

(** Alice's account after four failures: the counter stands at 4 and no
    lockout is set. *)
Definition fourFailuresAlice : User.t :=
  User.withLockoutInfo
    {| failedAttempts := 4; lockoutUntil := None; lastAttempt := 0 |}%Z alice.

(** A request whose body does not parse. *)
Definition unparsedLogin : Request LoginInput :=
  {| parsed := None; regenerateFails := false; stamped := 0 |}.

(* ===================================================================== *)
(** ** The [/register] handler of [routes/auth.ts] *)
(* ===================================================================== *)

(** [parsed.data] of [registerSchema]. *)
Record RegisterInput := {
  ri_username : jsstring;
  ri_password : jsstring;
  ri_fullName : jsstring;
  ri_idNumber : jsstring;
  ri_accountNumber : jsstring
}.

Inductive RegisterBody :=
| RegisterError (error : string)
| RegisterWeak (error : string) (details : list string)
| RegisteredBody (message : string) (username fullName accountNumber : jsstring).

Record RegisterResponse := { r_status : Z; r_body : RegisterBody }.

(** What one registration draws from outside: the [_id] given to the new
    document and the salts of the two [bcrypt.hash] calls. *)
Record Drawn := {
  newId : N;
  hashSalt : jsstring;
  historySalt : jsstring
}.

Definition commonBreachedPasswords : list jsstring :=
  map js ["password"; "123456"; "password123"; "admin"; "qwerty";
          "letmein"; "welcome"; "monkey"; "1234567890"; "abc123"]%string.

Module Registration.
Import Handler.

(** The query [{ $or: [{ username }, { email }, { accountNumber }] }]. *)
Definition byAnyOf (username email accountNumber : jsstring) (u : User.t) : bool :=
bool_decide (User.username u = username)
|| bool_decide (User.email u = email)
|| bool_decide (User.accountNumber u = accountNumber).

(** [User.create(doc)]: the document is added at the end of the
  collection. *)
Definition create (u : User.t) : M unit :=
fun w => (tt, {| users := users w ++ [u]; ticks := ticks w; trace := trace w;
                 session := session w |}).

Section Register.

Variable bcrypt_hash : jsstring -> N -> jsstring -> jsstring.
Variable env_pepper : option jsstring.
Variable clock : nat -> Z.

(** [String.prototype.toLowerCase]. *)
Variable toLowerCase : jsstring -> jsstring.

(** [PasswordSecurityManager.isPasswordBreached]. *)
Definition isPasswordBreached (password : jsstring) : bool :=
  bool_decide (toLowerCase password ∈ commonBreachedPasswords).

Local Open Scope handler_scope.

Definition respond (status : Z) (body : RegisterBody) : RegisterResponse :=
  {| r_status := status; r_body := body |}.

Definition register (drawn : Drawn) (req : Request RegisterInput)
: M RegisterResponse :=
  match parsed req with
  | None => ret (respond 400 (RegisterError "Invalid input"))
  | Some data =>
  let username := ri_username data in
  let password := ri_password data in
  let fullName := ri_fullName data in
  let idNumber := ri_idNumber data in
  let accountNumber := ri_accountNumber data in
  let email := username ++ js "@securbank.internal" in
  let! existing := findOne (byAnyOf username email accountNumber) in
  match existing with
  | Some _ => ret (respond 409 (RegisterError "User already exists"))
  | None =>
      (* Check password strength *)
      let strengthResult := checkPasswordStrength password in
      if negb (isStrong strengthResult) then
        ret (respond 400
               (RegisterWeak "Password does not meet security requirements"
                  (feedback strengthResult)))
      else if isPasswordBreached password then
        ret (respond 400
               (RegisterError
                  "Password has been found in data breaches. Please choose a different password."))
      else
        let passwordHash :=
          hashPassword bcrypt_hash env_pepper (hashSalt drawn) password in
        let! t := now clock in
        let passwordHistory :=
          addToPasswordHistory bcrypt_hash env_pepper (historySalt drawn) t
            password [] in
        let! t' := now clock in
        let! t'' := now clock in
        let user :=
          {| User._id := newId drawn;
             User.username := username;
             User.fullName := fullName;
             User.idNumber := idNumber;
             User.accountNumber := accountNumber;
             User.email := email;
             User.passwordHash := passwordHash;
             User.passwordHistory := passwordHistory;
             User.lockoutInfo :=
               {| failedAttempts := 0; lockoutUntil := None;
                  lastAttempt := t'' |};
             User.lastPasswordChange := t';
             User.createdAt := stamped req;
             User.updatedAt := stamped req |} in
        create user ;;
        (* Rotate session *)
        let! err := regenerate (regenerateFails req) in
        if err then ret (respond 500 (RegisterError "Session error"))
        else
          setSession {| uid := Some (User._id user); role := None |} ;;
          ret (respond 201
                 (RegisteredBody "Registered" username fullName accountNumber))
  end
  end.

(** The document a registration with [data] stores when it is handled from
clock reading [tick] on and the database stamps it with [stamp]. *)
Definition stored (drawn : Drawn) (data : RegisterInput) (tick : nat)
(stamp : Z) : User.t :=
  {| User._id := newId drawn;
 User.username := ri_username data;
 User.fullName := ri_fullName data;
 User.idNumber := ri_idNumber data;
 User.accountNumber := ri_accountNumber data;
 User.email := ri_username data ++ js "@securbank.internal";
 User.passwordHash :=
   hashPassword bcrypt_hash env_pepper (hashSalt drawn) (ri_password data);
 User.passwordHistory :=
   addToPasswordHistory bcrypt_hash env_pepper (historySalt drawn)
     (clock tick) (ri_password data) [];
 User.lockoutInfo :=
   {| failedAttempts := 0; lockoutUntil := None;
      lastAttempt := clock (2 + tick) |};
 User.lastPasswordChange := clock (1 + tick);
 User.createdAt := stamp;
 User.updatedAt := stamp |}.

End Register.

End Registration.

(** The login request of a user who has registered with [data]. *)
Definition loginWith (data : RegisterInput) (regenerateFails : bool)
    : Request LoginInput :=
  {| parsed := Some {| li_username := ri_username data;
                       li_password := ri_password data;
                       li_accountNumber := ri_accountNumber data |};
     regenerateFails := regenerateFails;
     stamped := 0 |}.

(** ASCII lower-casing, a stand-in for [toLowerCase] on ASCII text. *)
Definition asciiLower (s : jsstring) : jsstring := map Scheme.toLower s.

Definition bobInput : RegisterInput :=
  {| ri_username := js "bob";
     ri_password := js "Xy9$mK@2pQ7#vL4!nR8";
     ri_fullName := js "Bob Example";
     ri_idNumber := js "ID000002";
     ri_accountNumber := js "87654321" |}.

Definition bobDrawn : Drawn :=
  {| newId := 2; hashSalt := js "salt1"; historySalt := js "salt2" |}.

Definition registerAs (data : RegisterInput) (fails : bool) : Request RegisterInput :=
  {| parsed := Some data; regenerateFails := fails; stamped := 0 |}.

(* ===================================================================== *)
(** ** The security logger and the honeypot middleware *)
(* ===================================================================== *)

Inductive SecurityEventType :=
| login_attempt | login_success | login_failure | account_locked
| suspicious_activity | rate_limit_exceeded | honeypot_triggered
| invalid_input | csrf_violation | unauthorized_access.

Inductive Severity := low | medium | high | critical.

#[global] Instance SecurityEventType_eq_dec : EqDecision SecurityEventType.
Proof. solve_decision. Defined.

Module SecurityEvent.
(** [details] is a record of named values; [None] is a property holding
  [undefined]. *)
Record t := {
type : SecurityEventType;
userId : option jsstring;
ipAddress : jsstring;
userAgent : jsstring;
requestId : jsstring;
timestamp : Z;
details : list (jsstring * option JSON);
severity : Severity
}.
End SecurityEvent.

(** [arr.slice(start)] for an integer [start]: a negative start counts
    from the end, and both ends are clamped to the array. *)
Definition sliceFrom {A} (start : Z) (l : list A) : list A :=
  let len := Z.of_nat (length l) in
  let k := if (start <? 0)%Z then Z.max (len + start) 0 else Z.min start len in
  drop (Z.to_nat k) l.

(** [SecurityLogger]: [events] is the array the logger holds.  What [log]
    writes to the console is left out. *)
Module SecurityLogger.

Definition maxEvents : nat := 1000.

Definition log (event : SecurityEvent.t) (events : list SecurityEvent.t)
  : list SecurityEvent.t :=
let events := events ++ [event] in
if (maxEvents <? length events)%nat
then sliceFrom (- Z.of_nat maxEvents) events
else events.

(** A [limit] of [None] is an argument left out. *)
Definition getRecentEvents (limit : option Z) (events : list SecurityEvent.t)
  : list SecurityEvent.t :=
let limit := default 100%Z limit in
sliceFrom (- limit) events.

Definition getEventsByType (type : SecurityEventType) (limit : option Z)
  (events : list SecurityEvent.t) : list SecurityEvent.t :=
let limit := default 50%Z limit in
sliceFrom (- limit)
  (List.filter (fun event => bool_decide (SecurityEvent.type event = type)) events).

Definition getEventsByIp (ip : jsstring) (limit : option Z)
  (events : list SecurityEvent.t) : list SecurityEvent.t :=
let limit := default 50%Z limit in
sliceFrom (- limit)
  (List.filter (fun event => bool_decide (SecurityEvent.ipAddress event = ip)) events).

End SecurityLogger.

(** A request as the middleware sees it. *)
Record MiddlewareRequest := {
  m_http : HttpRequest;
  m_method : jsstring;
  m_url : jsstring;
  m_body : option JSON
}.

(** A middleware either calls [next()] or sends a response. *)
Inductive MiddlewareResult :=
| CallNext
| Send (status : Z) (body : JSON).

Section HoneypotMiddleware.

Variable sha256hex : jsstring -> jsstring.

Definition isMutating (method : jsstring) : bool :=
bool_decide (method = js "POST") || bool_decide (method = js "PUT")
|| bool_decide (method = js "PATCH").

(** One run of the middleware returned by [honeypotMiddleware()]: [uuid]
  is the value of [crypto.randomUUID()], [now] that of [new Date()], and
  [events] the array of the global logger. *)
Definition honeypotMiddleware (uuid : jsstring) (now : Z)
  (req : MiddlewareRequest) (events : list SecurityEvent.t)
  : outcome (MiddlewareResult * list SecurityEvent.t) :=
if isMutating (m_method req) then
  match checkHoneypotFields (m_body req) with
  | Threw e => Threw e
  | Returned true =>
      let fingerprint := generateRequestFingerprint sha256hex (m_http req) in
      let event :=
        {| SecurityEvent.type := honeypot_triggered;
           SecurityEvent.userId := None;
           SecurityEvent.ipAddress := ip fingerprint;
           SecurityEvent.userAgent := userAgent fingerprint;
           SecurityEvent.requestId := uuid;
           SecurityEvent.timestamp := now;
           SecurityEvent.details :=
             [(js "method", Some (JString (m_method req)));
              (js "url", Some (JString (m_url req)));
              (js "body", m_body req)];
           SecurityEvent.severity := high |} in
      (* Return success to avoid revealing the honeypot *)
      Returned (Send 200 (JObject [(js "success", JBool true)]),
                SecurityLogger.log event events)
  | Returned false => Returned (CallNext, events)
  end
else Returned (CallNext, events).

End HoneypotMiddleware.

(** An event of a given type from a given address. *)
Definition demoEvent (type : SecurityEventType) (ip : string) : SecurityEvent.t :=
  {| SecurityEvent.type := type;
     SecurityEvent.userId := None;
     SecurityEvent.ipAddress := js ip;
     SecurityEvent.userAgent := js "Mozilla/5.0";
     SecurityEvent.requestId := js "00000000-0000-4000-8000-000000000000";
     SecurityEvent.timestamp := 0;
     SecurityEvent.details := [];
     SecurityEvent.severity := low |}.

Definition demoEvents : list SecurityEvent.t :=
  [demoEvent login_failure "203.0.113.7"; demoEvent login_success "203.0.113.7";
   demoEvent login_failure "198.51.100.9"; demoEvent honeypot_triggered "203.0.113.7"].

Definition botRequest (method : string) : MiddlewareRequest :=
  {| m_http := demoRequest;
     m_method := js method;
     m_url := js "/api/auth/register";
     m_body := Some (websiteBody (JString (js "http://x.com"))) |}.

(** *** Rate limiter invariant *)

(** Every window has counted at least one and at most [maxRequests]
    requests. *)
Definition countsInRange (requests : gmap jsstring RateWindow) : Prop :=
  map_Forall (fun _ window => (1 <= count window <= maxRequests)%Z) requests.

(* ===================================================================== *)
(** ** The transactions router *)
(* ===================================================================== *)

(** The [status] enum of [models/Transaction.ts]. *)
Inductive Status := pending | verified | submitted | completed | failed.

#[global] Instance Status_eq_dec : EqDecision Status.
Proof. solve_decision. Defined.

Inductive Currency := USD | EUR | GBP | ZAR.

Inductive Provider := SWIFT.

Module Transaction.
Section Document.

(** The type of JavaScript numbers; the router only copies amounts. *)
Context {number : Type}.

Record t := {
  _id : N;
  customerId : N;
  amount : number;
  currency : Currency;
  provider : Provider;
  payeeAccountInfo : jsstring;
  swiftCode : jsstring;
  status : Status;
  verifiedBy : option N;
  verifiedAt : option Z;
  declinedBy : option N;
  declinedAt : option Z;
  declineReason : option jsstring;
  submittedAt : option Z;
  createdAt : Z;
  updatedAt : Z
}.

(** The assignments [status = "verified"], [verifiedBy = uid],
    [verifiedAt = new Date()], and the [updatedAt] of the write. *)
Definition withVerification (uid : N) (now stamp : Z) (transaction : t) : t :=
  {| _id := _id transaction;
     customerId := customerId transaction;
     amount := amount transaction;
     currency := currency transaction;
     provider := provider transaction;
     payeeAccountInfo := payeeAccountInfo transaction;
     swiftCode := swiftCode transaction;
     status := verified;
     verifiedBy := Some uid;
     verifiedAt := Some now;
     declinedBy := declinedBy transaction;
     declinedAt := declinedAt transaction;
     declineReason := declineReason transaction;
     submittedAt := submittedAt transaction;
     createdAt := createdAt transaction;
     updatedAt := stamp |}.

(** The assignments [status = "failed"], [declinedBy = uid],
    [declinedAt = new Date()], [declineReason = reason]. *)
Definition withDecline (uid : N) (now : Z) (reason : jsstring) (stamp : Z)
    (transaction : t) : t :=
  {| _id := _id transaction;
     customerId := customerId transaction;
     amount := amount transaction;
     currency := currency transaction;
     provider := provider transaction;
     payeeAccountInfo := payeeAccountInfo transaction;
     swiftCode := swiftCode transaction;
     status := failed;
     verifiedBy := verifiedBy transaction;
     verifiedAt := verifiedAt transaction;
     declinedBy := Some uid;
     declinedAt := Some now;
     declineReason := Some reason;
     submittedAt := submittedAt transaction;
     createdAt := createdAt transaction;
     updatedAt := stamp |}.

(** The update [{ status: "submitted", submittedAt: new Date() }]. *)
Definition withSubmission (now stamp : Z) (transaction : t) : t :=
  {| _id := _id transaction;
     customerId := customerId transaction;
     amount := amount transaction;
     currency := currency transaction;
     provider := provider transaction;
     payeeAccountInfo := payeeAccountInfo transaction;
     swiftCode := swiftCode transaction;
     status := submitted;
     verifiedBy := verifiedBy transaction;
     verifiedAt := verifiedAt transaction;
     declinedBy := declinedBy transaction;
     declinedAt := declinedAt transaction;
     declineReason := declineReason transaction;
     submittedAt := Some now;
     createdAt := createdAt transaction;
     updatedAt := stamp |}.

(** [Transaction.findById(id)]. *)
Definition findById (id : N) (store : list t) : option t :=
  find (fun transaction => (_id transaction =? id)%N) store.

(** [transaction.save()] of a document that was found by its id:
    the document of that id is replaced. *)
Fixpoint save (transaction : t) (store : list t) : list t :=
  match store with
  | [] => []
  | other :: rest =>
      if (_id other =? _id transaction)%N then transaction :: rest
      else other :: save transaction rest
  end.

(** The write of [transaction.save()] as it reaches the database: the
    paths the handler has set are written to the document of that
    id, whatever that document has become since it was read. *)
Fixpoint updateOne (id : N) (set : t -> t) (store : list t) : list t :=
  match store with
  | [] => []
  | other :: rest =>
      if (_id other =? id)%N then set other :: rest
      else other :: updateOne id set rest
  end.

(** [Transaction.updateMany(filter, update)]: the number of documents
    the filter matches, and the collection with each of them updated. *)
Definition updateMany (filter : t -> bool) (update : t -> t) (store : list t)
    : nat * list t :=
  (length (List.filter filter store),
   map (fun transaction =>
          if filter transaction then update transaction else transaction)
       store).

End Document.

Arguments t : clear implicits.
End Transaction.

Module Transactions.
Section Router.

Context {number : Type}.

(** The data [createTransactionSchema] parses a body into. *)
Record CreateInput := {
  c_amount : number;
  c_currency : Currency;
  c_provider : Provider;
  c_payeeAccountInfo : jsstring;
  c_swiftCode : jsstring
}.

Inductive Body :=
| Error (error : string)
| Invalid                       (* { error: "Invalid input", details } *)
| Created (message : string) (id : N) (amount : number)
    (currency : Currency) (status : Status) (createdAt : Z)
| Message (message : string)
| Submitted (submittedCount : nat).

Definition Response := (Z * Body)%type.

(** [res.status(status).json(body)]. *)
Definition json (status : Z) (body : Body) : Response := (status, body).

Local Abbreviation Store := (list (Transaction.t number)).

(** [router.post("/")]: [newId] and [stamp] are the id and the
    timestamps the database gives the new document. *)
Definition create (s : Session) (newId : N) (stamp : Z)
    (parsed : option CreateInput) (store : Store) : Response * Store :=
  match uid s with
  | None => (json 401 (Error "Unauthorized"), store)
  | Some uid =>
      match parsed with
      | None => (json 400 Invalid, store)
      | Some data =>
          let transaction :=
            {| Transaction._id := newId;
               Transaction.customerId := uid;
               Transaction.amount := c_amount data;
               Transaction.currency := c_currency data;
               Transaction.provider := c_provider data;
               Transaction.payeeAccountInfo := c_payeeAccountInfo data;
               Transaction.swiftCode := c_swiftCode data;
               Transaction.status := pending;
               Transaction.verifiedBy := None;
               Transaction.verifiedAt := None;
               Transaction.declinedBy := None;
               Transaction.declinedAt := None;
               Transaction.declineReason := None;
               Transaction.submittedAt := None;
               Transaction.createdAt := stamp;
               Transaction.updatedAt := stamp |} in
          (json 201 (Created "Payment submitted successfully"
                   (Transaction._id transaction) (c_amount data)
                   (c_currency data) (Transaction.status transaction)
                   (Transaction.createdAt transaction)),
           store ++ [transaction])
      end
  end.

(** [router.post("/verify")]: [now] is the value of [new Date()] and
    [stamp] the time the database writes to [updatedAt]. *)
Definition verify (s : Session) (now stamp : Z) (parsed : option N)
    (store : Store) : Response * Store :=
  match uid s with
  | None => (json 401 (Error "Unauthorized"), store)
  | Some uid =>
      if negb (bool_decide (role s = Some "employee"%string)) then
        (json 403 (Error "Access denied. Employee role required."), store)
      else
        match parsed with
        | None => (json 400 Invalid, store)
        | Some transactionId =>
            match Transaction.findById transactionId store with
            | None => (json 404 (Error "Transaction not found"), store)
            | Some transaction =>
                if negb (bool_decide (Transaction.status transaction = pending))
                then (json 400 (Error "Transaction is not pending verification"),
                      store)
                else
                  let transaction' :=
                    Transaction.withVerification uid now stamp transaction in
                  (json 200 (Message "Transaction verified successfully"),
                   Transaction.save transaction' store)
            end
        end
  end.

(** [router.post("/decline")]. *)
Definition decline (s : Session) (now stamp : Z)
    (parsed : option (N * jsstring)) (store : Store) : Response * Store :=
  match uid s with
  | None => (json 401 (Error "Unauthorized"), store)
  | Some uid =>
      if negb (bool_decide (role s = Some "employee"%string)) then
        (json 403 (Error "Access denied. Employee role required."), store)
      else
        match parsed with
        | None => (json 400 Invalid, store)
        | Some (transactionId, reason) =>
            match Transaction.findById transactionId store with
            | None => (json 404 (Error "Transaction not found"), store)
            | Some transaction =>
                if negb (bool_decide (Transaction.status transaction = pending))
                then (json 400 (Error "Only pending transactions can be declined"),
                      store)
                else
                  let transaction' :=
                    Transaction.withDecline uid now reason stamp transaction in
                  (json 200 (Message "Transaction declined successfully"),
                   Transaction.save transaction' store)
            end
        end
  end.

(** The filter [{ _id: { $in: transactionIds }, status: "verified" }]. *)
Definition verifiedAmong (transactionIds : list N)
    (transaction : Transaction.t number) : bool :=
  existsb (N.eqb (Transaction._id transaction)) transactionIds
  && bool_decide (Transaction.status transaction = verified).

(** [router.post("/submit-to-swift")].  Every matched document is
    modified, its status being changed, so [modifiedCount] is
    [matchedCount]. *)
Definition submitToSwift (s : Session) (now stamp : Z)
    (parsed : option (list N)) (store : Store) : Response * Store :=
  match uid s with
  | None => (json 401 (Error "Unauthorized"), store)
  | Some uid =>
      if negb (bool_decide (role s = Some "employee"%string)) then
        (json 403 (Error "Access denied. Employee role required."), store)
      else
        match parsed with
        | None => (json 400 Invalid, store)
        | Some transactionIds =>
            let (matchedCount, store') :=
              Transaction.updateMany (verifiedAmong transactionIds)
                (Transaction.withSubmission now stamp)
                store in
            if (matchedCount =? 0)%nat then
              (json 400 (Error "No verified transactions found to submit"), store')
            else (json 200 (Submitted matchedCount), store')
        end
  end.

(** The four requests that write to the collection. *)
Inductive Call :=
| PostCreate (newId : N) (parsed : option CreateInput)
| PostVerify (parsed : option N)
| PostDecline (parsed : option (N * jsstring))
| PostSubmitToSwift (parsed : option (list N)).

Record Request := {
  sender : Session;
  call : Call;
  at_ : Z;          (* the value of [new Date()] in the handler *)
  stamped : Z       (* the time the database stamps the write with *)
}.

Definition handle (req : Request) (store : Store) : Response * Store :=
  match call req with
  | PostCreate newId parsed =>
      create (sender req) newId (stamped req) parsed store
  | PostVerify parsed =>
      verify (sender req) (at_ req) (stamped req) parsed store
  | PostDecline parsed =>
      decline (sender req) (at_ req) (stamped req) parsed store
  | PostSubmitToSwift parsed =>
      submitToSwift (sender req) (at_ req) (stamped req) parsed store
  end.

(** Requests served one after the other, each answered before the
    next arrives.  Requests that overlap are in [Interleaved]. *)
Fixpoint serveAll (reqs : list Request) (store : Store)
    : list Response * Store :=
  match reqs with
  | [] => ([], store)
  | req :: rest =>
      let (response, store') := handle req store in
      let (responses, store'') := serveAll rest store' in
      (response :: responses, store'')
  end.

End Router.

Arguments CreateInput : clear implicits.
Arguments Body : clear implicits.
Arguments Response : clear implicits.
Arguments Call : clear implicits.
Arguments Request : clear implicits.
End Transactions.

(** *** Requests that overlap

    [/verify] and [/decline] await [findById], test the status and then
    await [save()]: between the read and the write other requests are
    served.  [/submit-to-swift] awaits one [updateMany], whose update
    reaches the matching documents one at a time.  Below, a request
    arrives, runs up to its first write and leaves that write in flight;
    writes in flight land in any order. *)

Module Interleaved.
Section Router.

Context {number : Type}.

Local Abbreviation Store := (list (Transaction.t number)).

(** A write that has been issued and has not reached the database. *)
Inductive InFlight :=
| SetVerified (id uid : N) (now stamp : Z)
| SetDeclined (id uid : N) (now : Z) (reason : jsstring) (stamp : Z)
| Submitting (transactionIds : list N) (now stamp : Z) (next : nat).

Record State := {
  store : Store;
  inflight : list InFlight
}.

(** The handlers up to their write: the guards, the read and the test
    of the status, as in [Transactions.verify], [Transactions.decline]
    and [Transactions.submitToSwift]. *)
Definition beginVerify (s : Session) (now stamp : Z) (parsed : option N)
    (store : Store) : option InFlight :=
  match uid s with
  | None => None
  | Some uid =>
      if negb (bool_decide (role s = Some "employee"%string)) then None
      else
        match parsed with
        | None => None
        | Some transactionId =>
            match Transaction.findById transactionId store with
            | None => None
            | Some transaction =>
                if negb (bool_decide (Transaction.status transaction = pending))
                then None
                else Some (SetVerified (Transaction._id transaction) uid
                             now stamp)
            end
        end
  end.

Definition beginDecline (s : Session) (now stamp : Z)
    (parsed : option (N * jsstring)) (store : Store) : option InFlight :=
  match uid s with
  | None => None
  | Some uid =>
      if negb (bool_decide (role s = Some "employee"%string)) then None
      else
        match parsed with
        | None => None
        | Some (transactionId, reason) =>
            match Transaction.findById transactionId store with
            | None => None
            | Some transaction =>
                if negb (bool_decide (Transaction.status transaction = pending))
                then None
                else Some (SetDeclined (Transaction._id transaction) uid
                             now reason stamp)
            end
        end
  end.

Definition beginSubmit (s : Session) (now stamp : Z)
    (parsed : option (list N)) : option InFlight :=
  match uid s with
  | None => None
  | Some uid =>
      if negb (bool_decide (role s = Some "employee"%string)) then None
      else
        match parsed with
        | None => None
        | Some transactionIds => Some (Submitting transactionIds now stamp 0)
        end
  end.

Definition launch (write : option InFlight) (st : State) : State :=
  match write with
  | None => st
  | Some write => {| store := store st; inflight := inflight st ++ [write] |}
  end.

(** A request arrives.  [Transaction.create] is one write, made at
    once. *)
Definition arrive (req : Transactions.Request number) (st : State) : State :=
  match Transactions.call req with
  | Transactions.PostCreate newId parsed =>
      {| store := (Transactions.create (Transactions.sender req) newId
                     (Transactions.stamped req) parsed (store st)).2;
         inflight := inflight st |}
  | Transactions.PostVerify parsed =>
      launch (beginVerify (Transactions.sender req) (Transactions.at_ req)
                (Transactions.stamped req) parsed (store st)) st
  | Transactions.PostDecline parsed =>
      launch (beginDecline (Transactions.sender req) (Transactions.at_ req)
                (Transactions.stamped req) parsed (store st)) st
  | Transactions.PostSubmitToSwift parsed =>
      launch (beginSubmit (Transactions.sender req) (Transactions.at_ req)
                (Transactions.stamped req) parsed) st
  end.

(** The [i]-th write in flight makes its next step: a [save()] lands
    and is done; an [updateMany] visits its next document, and is
    done when none is left. *)
Definition land (i : nat) (st : State) : State :=
  match inflight st !! i with
  | None => st
  | Some (SetVerified id uid now stamp) =>
      {| store := Transaction.updateOne id
                    (Transaction.withVerification uid now stamp) (store st);
         inflight := delete i (inflight st) |}
  | Some (SetDeclined id uid now reason stamp) =>
      {| store := Transaction.updateOne id
                    (Transaction.withDecline uid now reason stamp) (store st);
         inflight := delete i (inflight st) |}
  | Some (Submitting transactionIds now stamp next) =>
      if (next <? length (store st))%nat then
        {| store := alter (fun transaction =>
                             if Transactions.verifiedAmong transactionIds
                                  transaction
                             then Transaction.withSubmission now stamp
                                    transaction
                             else transaction)
                      next (store st);
           inflight := <[i := Submitting transactionIds now stamp (S next)]>
                         (inflight st) |}
      else {| store := store st; inflight := delete i (inflight st) |}
  end.

Inductive Move :=
| Arrives (req : Transactions.Request number)
| Lands (i : nat).

Definition move (m : Move) (st : State) : State :=
  match m with
  | Arrives req => arrive req st
  | Lands i => land i st
  end.

Definition play (moves : list Move) (st : State) : State :=
  fold_left (fun st m => move m st) moves st.

(** Nothing is in flight. *)
Definition quiet (store : Store) : State :=
  {| store := store; inflight := [] |}.

End Router.

Arguments State : clear implicits.
Arguments Move : clear implicits.
End Interleaved.

(** *** Vocabulary for the transactions router *)

(** The ways a status can have come from another: a pending payment can be
    verified or declined, a verified one submitted. *)
Definition follows (before after : Status) : bool :=
  match before, after with
  | pending, (pending | verified | submitted | failed) => true
  | verified, (verified | submitted) => true
  | submitted, submitted => true
  | completed, completed => true
  | failed, failed => true
  | _, _ => false
  end.

(** Same document apart from the fields that record its review. *)
Definition samePayment {number : Type} (t t' : Transaction.t number) : Prop :=
  Transaction._id t' = Transaction._id t
  /\ Transaction.customerId t' = Transaction.customerId t
  /\ Transaction.amount t' = Transaction.amount t
  /\ Transaction.currency t' = Transaction.currency t
  /\ Transaction.provider t' = Transaction.provider t
  /\ Transaction.payeeAccountInfo t' = Transaction.payeeAccountInfo t
  /\ Transaction.swiftCode t' = Transaction.swiftCode t
  /\ Transaction.createdAt t' = Transaction.createdAt t.

Definition isEmployee (s : Session) : bool :=
  bool_decide (role s = Some "employee"%string).

Definition customer (id : N) : Session := {| uid := Some id; role := None |}.

Definition employee (id : N) : Session :=
  {| uid := Some id; role := Some "employee"%string |}.

Definition demoPayment : Transactions.CreateInput Z :=
  {| Transactions.c_amount := 100%Z;
     Transactions.c_currency := ZAR;
     Transactions.c_provider := SWIFT;
     Transactions.c_payeeAccountInfo := js "GB82WEST12345698765432";
     Transactions.c_swiftCode := js "ABSAZAJJ" |}.

Definition request (s : Session) (c : Transactions.Call Z)
    : Transactions.Request Z :=
  {| Transactions.sender := s; Transactions.call := c;
     Transactions.at_ := 0; Transactions.stamped := 0 |}.

(** A payment made by customer 1 and verified by employee 9. *)
Definition demoStore : list (Transaction.t Z) :=
  (Transactions.serveAll
     [request (customer 1) (Transactions.PostCreate 7 (Some demoPayment));
      request (employee 9) (Transactions.PostVerify (Some 7%N))]
     []).2.

(** A later state of a document: the same payment, in a status that
    follows the earlier one. *)
Definition advanced {number : Type} (t t' : Transaction.t number) : Prop :=
  samePayment t t'
  /\ follows (Transaction.status t) (Transaction.status t') = true.

Definition verifiedOk : Transactions.Response Z :=
  Transactions.json 200 (Transactions.Message "Transaction verified successfully").

Definition declinedOk {number : Type} : Transactions.Response number :=
  Transactions.json 200 (Transactions.Message "Transaction declined successfully").

Definition nothingToSubmit {number : Type} : Transactions.Response number :=
  Transactions.json 400
    (Transactions.Error "No verified transactions found to submit").

(** Whether a call reviews payments rather than making one. *)
Definition isReview {number : Type} (c : Transactions.Call number) : bool :=
  match c with
  | Transactions.PostCreate _ _ => false
  | _ => true
  end.

(** A later state of the collection: the documents advanced in place,
    followed by documents made since, each in a status that follows
    [pending]. *)
Definition evolves {number : Type} (store store' : list (Transaction.t number))
    : Prop :=
  exists updated created,
    store' = updated ++ created
    /\ Forall2 advanced store updated
    /\ Forall (fun t => follows pending (Transaction.status t) = true) created.

(** The id of the document a [save()] in flight writes to. *)
Definition targetOf (write : Interleaved.InFlight) : option N :=
  match write with
  | Interleaved.SetVerified id _ _ _ => Some id
  | Interleaved.SetDeclined id _ _ _ _ => Some id
  | Interleaved.Submitting _ _ _ _ => None
  end.

(** The documents as they were when they entered the collection, and what
    is known of the writes in flight: each [save()] is for a document that
    entered the collection pending. *)
Definition tracks {number : Type} (origin : list (Transaction.t number))
    (st : Interleaved.State number) : Prop :=
  Forall2 advanced origin (Interleaved.store st)
  /\ Forall (fun write =>
               forall id t, targetOf write = Some id ->
                            Transaction.findById id origin = Some t ->
                            Transaction.status t = pending)
            (Interleaved.inflight st).

(** A verify and a decline of payment 7 that overlap, both sent by
    employee 9 while the payment is pending. *)
Definition demoRace : list (Interleaved.Move Z) :=
  [Interleaved.Arrives
     (request (customer 1) (Transactions.PostCreate 7 (Some demoPayment)));
   Interleaved.Arrives (request (employee 9) (Transactions.PostVerify (Some 7%N)));
   Interleaved.Arrives
     (request (employee 9)
        (Transactions.PostDecline (Some (7%N, js "duplicate payment"))));
   Interleaved.Lands 0;
   Interleaved.Lands 0].
(* ===================================================================== *)
(** * Properties *)
(* ===================================================================== *)

(** ** Lockout state transitions *)

Lemma recordFailedAttempt_count now info :
  failedAttempts (recordFailedAttempt now info) = (failedAttempts info + 1)%Z.
Proof. reflexivity. Qed.

Lemma recordFailures_count times : forall info,
  failedAttempts (recordFailures times info)
  = (failedAttempts info + Z.of_nat (length times))%Z.
Proof.
  induction times as [|t times IH]; intros info; cbn [recordFailures fold_left length].
  - lia.
  - fold (recordFailures times (recordFailedAttempt t info)).
    rewrite IH, recordFailedAttempt_count. lia.
Qed.

Lemma recordFailures_cons t times info :
  recordFailures (t :: times) info
  = recordFailures times (recordFailedAttempt t info).
Proof. reflexivity. Qed.

Lemma failureTimes_S clock n tick :
  failureTimes clock (S n) tick = clock tick :: failureTimes clock n (S tick).
Proof. reflexivity. Qed.

Lemma recordFailures_snoc times t info :
  recordFailures (times ++ [t]) info
  = recordFailedAttempt t (recordFailures times info).
Proof. unfold recordFailures. now rewrite fold_left_app. Qed.

(** Below the threshold nothing is locked: fewer than five failures from
    the open state leave [lockoutUntil] unset. *)
Lemma recordFailures_below_threshold times t0 now :
  (0 < length times < 5)%nat ->
  isAccountLocked now (recordFailures times (openState t0)) = false.
Proof.
  intros Hlen.
  destruct (exists_last (l := times)) as (ts & t & ->).
  { intros ->. cbn in Hlen. lia. }
  rewrite recordFailures_snoc. unfold isAccountLocked, recordFailedAttempt.
  cbn [lockoutUntil]. rewrite recordFailures_count. cbn [openState failedAttempts].
  rewrite length_app in Hlen. cbn in Hlen.
  unfold maxFailedAttempts.
  destruct (Z.leb_spec 5 (0 + Z.of_nat (length ts) + 1)); [lia | reflexivity].
Qed.

(** C3.  From the open state, five recorded failures leave the counter at
    five and [lockoutUntil] at the time of the fifth failure plus fifteen
    minutes, and the account counts as locked at every instant strictly
    before that expiry. *)
Theorem five_failures_lock (t0 t1 t2 t3 t4 t5 now : Z) :
  let s := recordFailures [t1; t2; t3; t4; t5] (openState t0) in
  failedAttempts s = 5%Z
  /\ lockoutUntil s = Some (t5 + 15 * 60 * 1000)%Z
  /\ ((now < t5 + 15 * 60 * 1000)%Z -> isAccountLocked now s = true).
Proof.
  cbn. repeat split.
  intros Hnow. unfold isAccountLocked. cbn.
  apply Z.ltb_lt. unfold lockoutDuration. lia.
Qed.

Lemma five_failures_lock_witness :
  let s := recordFailures [1000; 2000; 3000; 4000; 5000]%Z (openState 0) in
  (904999 < 5000 + 15 * 60 * 1000)%Z /\ isAccountLocked 904999 s = true.
Proof.
  split; [lia |].
  apply (five_failures_lock 0 1000 2000 3000 4000 5000 904999). lia.
Defined.

(** ** Password history *)

Section History.

Variable bcrypt_hash : jsstring -> N -> jsstring -> jsstring.
Variable env_pepper : option jsstring.

Lemma sliceLast_length {A} n (l : list A) :
  length (sliceLast n l) = Nat.min n (length l).
Proof. unfold sliceLast. rewrite length_drop. lia. Qed.

Lemma sliceLast_snoc {A} n (l : list A) x :
  (0 < n)%nat -> last (sliceLast n (l ++ [x])) = Some x.
Proof.
  intros Hn. unfold sliceLast. rewrite length_app. cbn [length].
  rewrite drop_app_le by lia. apply last_snoc.
Qed.

(** C7.  Appending to a history keeps at most five entries: the result is
    the tail end of the old history followed by the new entry, which comes
    last; a five-entry history loses its oldest entry and keeps the other
    four in order. *)
Theorem addToPasswordHistory_keeps_last_five
    (salt : jsstring) (now : Z) (password : jsstring)
    (existingHistory : list Entry.t) :
  let newEntry :=
    {| Entry.passwordHash := hashPassword bcrypt_hash env_pepper salt password;
       Entry.createdAt := now |} in
  let updated :=
    addToPasswordHistory bcrypt_hash env_pepper salt now password existingHistory in
  (length updated <= 5)%nat
  /\ length updated = Nat.min 5 (length existingHistory + 1)
  /\ updated `suffix_of` (existingHistory ++ [newEntry])
  /\ last updated = Some newEntry
  /\ (forall e1 e2 e3 e4 e5,
        addToPasswordHistory bcrypt_hash env_pepper salt now password
          [e1; e2; e3; e4; e5]
        = [e2; e3; e4; e5; newEntry]).
Proof.
  cbv zeta. unfold addToPasswordHistory, maxPasswordHistory.
  repeat split.
  - rewrite sliceLast_length. lia.
  - rewrite sliceLast_length, length_app. cbn [length]. reflexivity.
  - apply suffix_drop.
  - apply sliceLast_snoc. lia.
Qed.

End History.

(** ** [verifyPassword] never throws *)

(** C9.  Whatever [bcrypt.compare] does with the plaintext and the digest,
    [verifyPassword] returns a boolean; when [bcrypt.compare] throws, the
    error is caught and the result is [false]. *)
Theorem verifyPassword_never_throws
    (bcrypt_compare : jsstring -> jsstring -> outcome bool)
    (env_pepper : option jsstring) (password hash : jsstring) :
  (exists b, verifyPassword bcrypt_compare env_pepper password hash = Returned b)
  /\ (forall e,
        bcrypt_compare (password ++ pepper env_pepper) hash = Threw e ->
        verifyPassword bcrypt_compare env_pepper password hash = Returned false).
Proof.
  unfold verifyPassword. split.
  - destruct (bcrypt_compare _ _) as [b|e]; eauto.
  - intros e ->. reflexivity.
Qed.

Lemma verifyPassword_never_throws_witness :
  verifyPassword throwingCompare None (js "secret") (js "garbage") = Returned false.
Proof.
  apply (proj2 (verifyPassword_never_throws throwingCompare None
                  (js "secret") (js "garbage")) "Invalid digest"%string).
  reflexivity.
Defined.

(** ** The login handlers *)

Module HandlerFacts.
Import Handler.

Lemma ids_updateById id f us :
  (forall u, User._id (f u) = User._id u) ->
  ids (updateById id f us) = ids us.
Proof.
  intros Hf. unfold ids. induction us as [|u us IH]; cbn; [reflexivity |].
  destruct (User._id u =? id)%N; cbn; [now rewrite Hf | now rewrite IH].
Qed.

(** With unique ids, the document found by a query is the one an update
    by its id rewrites. *)
Lemma find_updateById p f us u :
  NoDup (ids us) ->
  find p us = Some u ->
  p (f u) = true ->
  find p (updateById (User._id u) f us) = Some (f u).
Proof.
  induction us as [|a us IH]; cbn; [discriminate |].
  intros Hnd Hfind Hp. apply NoDup_cons in Hnd as [Hnotin Hnd].
  destruct (p a) eqn:Hpa.
  - injection Hfind as ->. rewrite N.eqb_refl. cbn. now rewrite Hp.
  - destruct (N.eqb_spec (User._id a) (User._id u)) as [Heq|Hne].
    + exfalso. apply Hnotin. rewrite Heq.
      apply find_some in Hfind as [Hin _].
      apply list_elem_of_In. apply in_map. exact Hin.
    + cbn. rewrite Hpa. now apply IH.
Qed.

Lemma find_map_preserved (p : User.t -> bool) (g : User.t -> User.t) us :
  (forall u, p (g u) = p u) ->
  find p (map g us) = option_map g (find p us).
Proof.
  intros Hg. induction us as [|a us IH]; cbn; [reflexivity |].
  rewrite Hg. destruct (p a); [reflexivity | exact IH].
Qed.

Ltac step :=
  unfold bind, ret, findOne, verify, isAccountLockedNow,
    getLockoutTimeRemainingNow, recordFailedAttemptNow,
    resetFailedAttemptsNow, now, regenerate, setSession,
    findByIdAndUpdate; cbn.

Lemma bind_run {A B} (m : M A) (k : A -> M B) w a w' :
  m w = (a, w') -> bind m k w = k a w'.
Proof. unfold bind. now intros ->. Qed.

Lemma advance_zero w : advance 0 w = w.
Proof. destruct w; reflexivity. Qed.

Lemma isAccountLockedNow_run clock info w :
  isAccountLockedNow clock info w
  = (isAccountLocked (clock (ticks w)) info, advance (lockReadings info) w).
Proof.
  unfold isAccountLockedNow, isAccountLocked, lockReadings.
  destruct (lockoutUntil info); [reflexivity |].
  now rewrite advance_zero.
Qed.

Lemma getLockoutTimeRemainingNow_run clock info w :
  getLockoutTimeRemainingNow clock info w
  = (getLockoutTimeRemaining (clock (ticks w)) info,
     advance (lockReadings info) w).
Proof.
  unfold getLockoutTimeRemainingNow, getLockoutTimeRemaining, lockReadings.
  destruct (lockoutUntil info); [reflexivity |].
  now rewrite advance_zero.
Qed.

Lemma recordFailedAttemptNow_run clock info w :
  recordFailedAttemptNow clock info w
  = (recordFailedAttempt (clock (ticks w)) info, advance 1 w).
Proof. reflexivity. Qed.

Lemma resetFailedAttemptsNow_run clock info w :
  resetFailedAttemptsNow clock info w
  = (resetFailedAttempts (clock (ticks w)) info, advance 1 w).
Proof. reflexivity. Qed.

Lemma if_ret {A} (b : bool) (x y : A) w :
  (if b then ret x else ret y) w = (if b then x else y, w).
Proof. destruct b; reflexivity. Qed.

Lemma updated_id info stamp u : User._id (User.updated info stamp u) = User._id u.
Proof. reflexivity. Qed.

Lemma updated_updated info stamp info' stamp' u :
  User.updated info' stamp' (User.updated info stamp u)
  = User.updated info' stamp' u.
Proof. reflexivity. Qed.

Lemma updated_self u :
  u = User.updated (User.lockoutInfo u) (User.updatedAt u) u.
Proof. destruct u; reflexivity. Qed.

Lemma serve_cons {Input} (handler : Request Input -> M Response) req rest w :
  (serve handler (req :: rest) w).2 = (serve handler rest (handler req w).2).2.
Proof.
  cbn. unfold bind, ret. destruct (handler req w) as [r w1]. cbn.
  destruct (serve handler rest w1) as [rs w2]. reflexivity.
Qed.

Lemma serve_cons_fst {Input} (handler : Request Input -> M Response) req rest w :
  (serve handler (req :: rest) w).1
  = (handler req w).1 :: (serve handler rest (handler req w).2).1.
Proof.
  cbn. unfold bind, ret. destruct (handler req w) as [r w1]. cbn.
  destruct (serve handler rest w1) as [rs w2]. reflexivity.
Qed.

Lemma serve_app {Input} (handler : Request Input -> M Response) l1 l2 : forall w,
  (serve handler (l1 ++ l2) w).1
  = (serve handler l1 w).1 ++ (serve handler l2 (serve handler l1 w).2).1
  /\ (serve handler (l1 ++ l2) w).2
     = (serve handler l2 (serve handler l1 w).2).2.
Proof.
  induction l1 as [|req rest IH]; intros w; [split; reflexivity |].
  rewrite <- app_comm_cons, !serve_cons_fst, !serve_cons.
  destruct (IH (handler req w).2) as [-> ->]. split; reflexivity.
Qed.

End HandlerFacts.

Section LoginProperties.
Import Handler HandlerFacts.

Variable bcrypt_compare : jsstring -> jsstring -> outcome bool.
Variable env_pepper : option jsstring.
Variable clock : nat -> Z.

Local Abbreviation login := (Handler.login bcrypt_compare env_pepper clock).
Local Abbreviation failingRequestFor :=
  (failingRequestFor bcrypt_compare env_pepper).
Local Abbreviation failureTimes := (failureTimes clock).

(** A locked account is answered before its password is looked at: the
    handler reads the clock twice and touches nothing else. *)
Lemma login_locked req user w :
  requestFor user req ->
  find (accountOf user) (users w) = Some user ->
  isAccountLocked (clock (ticks w)) (User.lockoutInfo user) = true ->
  login req w
  = (json 423
       (LockedBody "Account temporarily locked due to too many failed attempts"
          (ceilDiv (getLockoutTimeRemaining (clock (S (ticks w)))
                      (User.lockoutInfo user)) (1000 * 60))),
     advance 2 w).
Proof.
  intros (data & Hparsed & Hu & Ha) Hfind Hlocked.
  unfold Handler.login. rewrite Hparsed, Hu, Ha.
  unfold accountOf in Hfind.
  rewrite (bind_run _ _ w (Some user) w) by (unfold findOne; now rewrite Hfind).
  rewrite (bind_run _ _ _ _ _ (isAccountLockedNow_run clock _ w)), Hlocked.
  rewrite (bind_run _ _ _ _ _ (getLockoutTimeRemainingNow_run clock _ _)).
  assert (Hk : lockReadings (User.lockoutInfo user) = 1%nat).
  { unfold lockReadings, isAccountLocked in *.
    destruct (lockoutUntil (User.lockoutInfo user)); [reflexivity | discriminate]. }
  rewrite Hk. reflexivity.
Qed.

(** A failed attempt on an account that is not locked records the failure
    under the id of the account.  The clock is read for the first check
    when [lockoutUntil] is set, once for the record, and for the second
    check when the record sets [lockoutUntil]. *)
Lemma login_failed req user w :
  failingRequestFor user req ->
  find (accountOf user) (users w) = Some user ->
  isAccountLocked (clock (ticks w)) (User.lockoutInfo user) = false ->
  let k := lockReadings (User.lockoutInfo user) in
  let updated := recordFailedAttempt (clock (k + ticks w)) (User.lockoutInfo user) in
  exists data, parsed req = Some data /\
  login req w
  = (if isAccountLocked (clock (S k + ticks w)) updated
     then nowLocked else invalidCredentials,
     {| users := updateById (User._id user)
                   (User.updated updated (stamped req)) (users w);
        ticks := lockReadings updated + (S k + ticks w);
        trace := trace w ++ [Compared (li_password data) (User.passwordHash user);
                             Updated (User._id user) updated];
        session := session w |}).
Proof.
  intros (data & Hparsed & Hu & Ha & Hverify) Hfind Hopen k updated.
  exists data. split; [exact Hparsed |].
  unfold Handler.login. rewrite Hparsed, Hu, Ha.
  unfold accountOf in Hfind.
  rewrite (bind_run _ _ w (Some user) w) by (unfold findOne; now rewrite Hfind).
  rewrite (bind_run _ _ _ _ _ (isAccountLockedNow_run clock _ w)), Hopen.
  fold k. set (w1 := advance k w).
  rewrite (bind_run _ _ w1 (Returned false) _)
    by (unfold verify; now rewrite Hverify).
  rewrite (bind_run _ _ _ _ _ (recordFailedAttemptNow_run clock _ _)).
  cbn [advance w1 ticks]. fold updated.
  rewrite (bind_run (findByIdAndUpdate _ _ _) _ _ tt _ eq_refl).
  rewrite (bind_run _ _ _ _ _ (isAccountLockedNow_run clock _ _)).
  rewrite if_ret. cbn [advance users ticks trace session Nat.add].
  rewrite <- app_assoc. reflexivity.
Qed.

(** Failed attempts in a row that stay below the threshold, on an account
    whose [lockoutUntil] is unset: every one of them is recorded, reads
    the clock once and is answered 401. *)
Lemma serve_failures user reqs : forall w s stamp,
  find (accountOf user) (users w) = Some (User.updated s stamp user) ->
  NoDup (ids (users w)) ->
  lockoutUntil s = None ->
  (failedAttempts s + Z.of_nat (length reqs) < 5)%Z ->
  Forall (failingRequestFor user) reqs ->
  let run := serve login reqs w in
  (exists stamp',
      find (accountOf user) (users run.2)
      = Some (User.updated
                (recordFailures (failureTimes (length reqs) (ticks w)) s)
                stamp' user)
      /\ (forall req, last reqs = Some req -> stamp' = stamped req))
  /\ NoDup (ids (users run.2))
  /\ ticks run.2 = (length reqs + ticks w)%nat
  /\ lockoutUntil (recordFailures (failureTimes (length reqs) (ticks w)) s) = None
  /\ run.1 = repeat invalidCredentials (length reqs).
Proof.
  induction reqs as [|req rest IH]; intros w s stamp Hfind Hnd Hs Hcount Hall.
  - cbn. repeat split; eauto. exists stamp. split; [exact Hfind | discriminate].
  - apply Forall_cons in Hall as [Hreq Hrest]. cbn [length] in Hcount.
    assert (Hopen : isAccountLocked (clock (ticks w))
                      (User.lockoutInfo (User.updated s stamp user)) = false).
    { unfold isAccountLocked. cbn. now rewrite Hs. }
    destruct (login_failed req (User.updated s stamp user) w Hreq Hfind Hopen)
      as (data & _ & Hrun).
    cbn [User.lockoutInfo User.updated User.withUpdatedAt User.withLockoutInfo]
      in Hrun.
    assert (Hk : lockReadings s = 0%nat) by (unfold lockReadings; now rewrite Hs).
    rewrite Hk in Hrun. cbn [Nat.add] in Hrun.
    set (s1 := recordFailedAttempt (clock (ticks w)) s) in *.
    assert (Hs1 : lockoutUntil s1 = None).
    { subst s1. cbn. unfold maxFailedAttempts.
      destruct (Z.leb_spec 5 (failedAttempts s + 1)); [lia | reflexivity]. }
    assert (Hk1 : lockReadings s1 = 0%nat) by (unfold lockReadings; now rewrite Hs1).
    assert (Hans : isAccountLocked (clock (S (ticks w))) s1 = false).
    { unfold isAccountLocked. now rewrite Hs1. }
    rewrite Hk1, Hans in Hrun. cbn [Nat.add] in Hrun.
    cbv zeta. rewrite serve_cons, serve_cons_fst, Hrun. cbn [fst snd].
    set (w1 := {| users := _ |}).
    destruct (IH w1 s1 (stamped req)) as ((stamp' & Hfind' & Hlast') & Hnd'
                                          & Hticks' & Hopen' & Hans').
    + subst w1. cbn [users]. rewrite <- (updated_updated s stamp s1 (stamped req)).
      apply (find_updateById (accountOf user) (User.updated s1 (stamped req))
               (users w) (User.updated s stamp user) Hnd Hfind).
      apply find_some in Hfind as [_ Hp]. exact Hp.
    + subst w1. cbn [users]. rewrite ids_updateById; auto.
    + exact Hs1.
    + subst s1. cbn [failedAttempts recordFailedAttempt]. lia.
    + exact Hrest.
    + subst w1. cbn [ticks] in *. cbn [length].
      rewrite failureTimes_S, recordFailures_cons. fold s1.
      split; [| split; [exact Hnd' | split; [| split; [exact Hopen' |]]]].
      * exists stamp'. split; [exact Hfind' |].
        intros r Hr. destruct rest as [|r' rest'].
        -- cbn in Hr. injection Hr as <-. cbn in Hfind'.
           clear - Hfind' Hfind Hnd.
           assert (Hf : find (accountOf user)
                          (updateById (User._id (User.updated s stamp user))
                             (User.updated s1 (stamped req)) (users w))
                        = Some (User.updated s1 (stamped req)
                                  (User.updated s stamp user))).
           { apply (find_updateById (accountOf user) _ (users w) _ Hnd Hfind).
             apply find_some in Hfind as [_ Hp]. exact Hp. }
           cbn [User._id User.updated User.withUpdatedAt User.withLockoutInfo]
             in Hf, Hfind'.
           rewrite Hfind' in Hf. injection Hf as Hf. exact Hf.
        -- apply Hlast'. exact Hr.
      * rewrite Hticks'. lia.
      * cbn [repeat]. now rewrite Hans'.
Qed.

(** C2.  After five failed login attempts in a row on an account that was
    open, the account carries a lockout until fifteen minutes after the
    fifth failure.  The first four attempts read the clock once each, the
    fifth twice (for the record and for the check after it), so the fifth
    failure is recorded at the fifth reading and the next request starts
    at the seventh.  As long as the lockout is in the future when that
    request reads the clock, it is answered 423 with the minutes
    remaining, whatever password it carries, without any password
    verification and without any change to the stored users. *)
Theorem sixth_login_is_locked
    (user : User.t) (t0 : Z) (w0 : World)
    (reqs : list (Request LoginInput)) (req6 : Request LoginInput) :
  NoDup (ids (users w0)) ->
  find (accountOf user) (users w0) = Some user ->
  User.lockoutInfo user = openState t0 ->
  length reqs = 5%nat ->
  Forall (failingRequestFor user) reqs ->
  requestFor user req6 ->
  let w5 := (serve login reqs w0).2 in
  let t5 := clock (4 + ticks w0) in
  let until := (t5 + lockoutDuration)%Z in
  (clock (6 + ticks w0) < until)%Z ->
  ticks w5 = (6 + ticks w0)%nat
  /\ (exists req5,
        last reqs = Some req5
        /\ find (accountOf user) (users w5)
           = Some (User.updated
                     {| failedAttempts := 5; lockoutUntil := Some until;
                        lastAttempt := t5 |}
                     (stamped req5) user))
  /\ login req6 w5
     = (json 423
          (LockedBody "Account temporarily locked due to too many failed attempts"
             (ceilDiv (Z.max 0 (until - clock (7 + ticks w0))) (1000 * 60))),
        advance 2 w5)
  /\ trace (login req6 w5).2 = trace w5
  /\ users (login req6 w5).2 = users w5
  /\ status (login req6 w5).1 <> 200%Z.
Proof.
  intros Hnd Hfind Hopen Hlen Hall Hreq6 w5 t5 until Hfuture.
  destruct (exists_last (l := reqs)) as (four & req5 & ->).
  { intros ->. discriminate. }
  rewrite length_app in Hlen. cbn [length] in Hlen.
  assert (Hlen4 : length four = 4%nat) by lia.
  apply Forall_app in Hall as [Hfour Hfifth].
  apply Forall_cons in Hfifth as [Hfifth _].
  rewrite (updated_self user) in Hfind at 2. rewrite Hopen in Hfind.
  destruct (serve_failures user four w0 (openState t0) (User.updatedAt user)
              Hfind Hnd eq_refl) as ((stamp4 & Hfind4 & _) & Hnd4 & Hticks4
                                     & Hopen4 & _);
    [rewrite Hlen4; cbn; lia | exact Hfour |].
  set (w4 := (serve login four w0).2) in *.
  rewrite Hlen4 in Hfind4, Hticks4, Hopen4.
  set (s4 := recordFailures _ (openState t0)) in *.
  assert (Hopen4' : isAccountLocked (clock (ticks w4))
                      (User.lockoutInfo (User.updated s4 stamp4 user)) = false).
  { unfold isAccountLocked.
    cbn [User.lockoutInfo User.updated User.withUpdatedAt User.withLockoutInfo].
    now rewrite Hopen4. }
  destruct (login_failed req5 (User.updated s4 stamp4 user) w4 Hfifth Hfind4 Hopen4')
    as (data & _ & Hrun5).
  cbn [User.lockoutInfo User.updated User.withUpdatedAt User.withLockoutInfo
       User._id] in Hrun5.
  assert (Hk4 : lockReadings s4 = 0%nat) by (unfold lockReadings; now rewrite Hopen4).
  rewrite Hk4, Hticks4 in Hrun5.
  change (0 + (4 + ticks w0))%nat with (4 + ticks w0)%nat in Hrun5.
  change (1 + (4 + ticks w0))%nat with (5 + ticks w0)%nat in Hrun5.
  assert (Hs5 : recordFailedAttempt (clock (4 + ticks w0)) s4
                = {| failedAttempts := 5; lockoutUntil := Some until;
                     lastAttempt := t5 |}) by reflexivity.
  rewrite Hs5 in Hrun5. cbn [lockReadings lockoutUntil] in Hrun5.
  assert (Hw5 : w5 = (login req5 w4).2).
  { subst w5. destruct (serve_app login four [req5] w0) as [_ ->].
    fold w4. rewrite serve_cons. reflexivity. }
  rewrite Hrun5 in Hw5. cbn [snd] in Hw5.
  assert (Hticks5 : ticks w5 = (6 + ticks w0)%nat) by (rewrite Hw5; reflexivity).
  assert (Hfind5 : find (accountOf user) (users w5)
                   = Some (User.updated
                             {| failedAttempts := 5; lockoutUntil := Some until;
                                lastAttempt := t5 |} (stamped req5) user)).
  { rewrite Hw5. cbn [users].
    rewrite <- (updated_updated s4 stamp4 _ (stamped req5)).
    apply (find_updateById (accountOf user) _ (users w4) _ Hnd4 Hfind4).
    apply find_some in Hfind4 as [_ Hp]. exact Hp. }
  set (locked := User.updated _ (stamped req5) user) in Hfind5.
  assert (Hrun := login_locked req6 locked w5 Hreq6 Hfind5).
  rewrite Hticks5 in Hrun. rewrite Hrun.
  - split; [exact Hticks5 |]. split.
    + exists req5. split; [apply last_snoc | exact Hfind5].
    + repeat split; try reflexivity. cbn. lia.
  - unfold isAccountLocked. cbn. apply Z.ltb_lt. exact Hfuture.
Qed.

(** C4, as the handler has it.  [recordFailedAttempt] increments the
    counter whatever the lockout state, but the handler answers a request
    for a locked account with 423 before it verifies the password or
    records anything: the stored users, failed-attempt counters included,
    are as they were. *)
Theorem locked_login_leaves_counter
    (user : User.t) (req : Request LoginInput) (w : World) :
  requestFor user req ->
  find (accountOf user) (users w) = Some user ->
  isAccountLocked (clock (ticks w)) (User.lockoutInfo user) = true ->
  status (login req w).1 = 423%Z
  /\ users (login req w).2 = users w
  /\ trace (login req w).2 = trace w
  /\ (forall now,
        failedAttempts (recordFailedAttempt now (User.lockoutInfo user))
        = (failedAttempts (User.lockoutInfo user) + 1)%Z).
Proof.
  intros Hreq Hfind Hlocked.
  rewrite (login_locked req user w Hreq Hfind Hlocked).
  repeat split.
Qed.

End LoginProperties.

Lemma loginAs_requestFor password : requestFor alice (loginAs password).
Proof. eexists. repeat split. Qed.

Lemma sixth_login_is_locked_witness :
  let w5 := (Handler.serve (Handler.login demoCompare None demoClock)
               wrongGuesses (demoWorld [alice])).2 in
  (Handler.login demoCompare None demoClock (loginAs "Correct#Horse9") w5).1
  = json 423
      (LockedBody "Account temporarily locked due to too many failed attempts" 15).
Proof.
  intros w5.
  destruct (sixth_login_is_locked demoCompare None demoClock alice 0
              (demoWorld [alice]) wrongGuesses (loginAs "Correct#Horse9"))
    as (_ & _ & Hrun & _).
  - apply NoDup_singleton.
  - reflexivity.
  - reflexivity.
  - reflexivity.
  - repeat constructor; eexists; repeat split.
  - apply loginAs_requestFor.
  - vm_compute. reflexivity.
  - fold w5 in Hrun. rewrite Hrun. reflexivity.
Defined.

(** C4, as stated, fails: a wrong password submitted one second into the
    lockout is answered 423 and the stored counter stays at 5 instead of
    going to 6. *)
Lemma locked_login_counter_not_incremented :
  let w := demoWorld [lockedAlice] in
  let run := Handler.login demoCompare None demoClock (loginAs "guess6") w in
  isAccountLocked (demoClock 0) (User.lockoutInfo lockedAlice) = true
  /\ counterOf lockedAlice w = Some 5%Z
  /\ status run.1 = 423%Z
  /\ counterOf lockedAlice run.2 = Some 5%Z
  /\ counterOf lockedAlice run.2 <> Some (5 + 1)%Z.
Proof. vm_compute. repeat split; discriminate. Qed.

Lemma locked_login_leaves_counter_witness :
  let w := demoWorld [lockedAlice] in
  users (Handler.login demoCompare None demoClock (loginAs "guess6") w).2 = users w.
Proof.
  intros w.
  apply (locked_login_leaves_counter demoCompare None demoClock lockedAlice
           (loginAs "guess6") w).
  - apply loginAs_requestFor.
  - reflexivity.
  - reflexivity.
Defined.

(** *** Employee login *)

Section EmployeeLoginProperties.
Import Handler HandlerFacts.

Variable bcrypt_compare : jsstring -> jsstring -> outcome bool.
Variable env_pepper : option jsstring.

Local Abbreviation employeeLogin := (Handler.employeeLogin bcrypt_compare env_pepper).
Local Abbreviation verifyPassword := (verifyPassword bcrypt_compare env_pepper).

(** One employee login: no user is written, the clock is not read, and the
    only calls made are password comparisons. *)
Lemma employeeLogin_frame req w :
  users (employeeLogin req w).2 = users w
  /\ ticks (employeeLogin req w).2 = ticks w
  /\ exists evs, trace (employeeLogin req w).2 = trace w ++ evs
                 /\ Forall isCompared evs.
Proof.
  unfold Handler.employeeLogin. destruct (parsed req) as [data|]; step.
  2: { repeat split. exists []. now rewrite app_nil_r. }
  destruct (find _ (users w)) as [user|]; cbn.
  2: { repeat split. exists []. now rewrite app_nil_r. }
  destruct (verifyPassword _ _) as [[|]|e]; cbn;
    try destruct (regenerateFails req); cbn;
    repeat split; eexists [_]; split; try reflexivity;
    repeat constructor.
Qed.

Lemma employeeLogin_relock req w f :
  (employeeLogin req (relock f w)).1 = (employeeLogin req w).1.
Proof.
  unfold Handler.employeeLogin. destruct (parsed req) as [data|]; step;
    [| reflexivity].
  rewrite find_map_preserved by reflexivity.
  destruct (find _ (users w)) as [user|]; cbn; [| reflexivity].
  destruct (verifyPassword _ _) as [[|]|e]; cbn; try reflexivity.
  destruct (regenerateFails req); reflexivity.
Qed.

Lemma serve_employeeLogin_users reqs : forall w,
  users (serve employeeLogin reqs w).2 = users w.
Proof.
  induction reqs as [|req rest IH]; intros w; [reflexivity |].
  rewrite serve_cons, IH. apply employeeLogin_frame.
Qed.

(** C10.  The employee login handler neither reads nor writes lockout
    state.  Any sequence of employee logins leaves every stored user, and
    so every [failedAttempts], [lockoutUntil] and [lastAttempt], as it was;
    a single login makes no call but password comparisons; its answer is
    the same whatever the stored lockout records are; and a password that
    does not verify is answered 401. *)
Theorem employeeLogin_ignores_lockout :
  (forall reqs w, users (serve employeeLogin reqs w).2 = users w)
  /\ (forall req w,
        users (employeeLogin req w).2 = users w
        /\ ticks (employeeLogin req w).2 = ticks w
        /\ exists evs, trace (employeeLogin req w).2 = trace w ++ evs
                       /\ Forall isCompared evs)
  /\ (forall req w f,
        (employeeLogin req (relock f w)).1 = (employeeLogin req w).1)
  /\ (forall req data user w,
        parsed req = Some data ->
        find (byEmployeeNumber (ei_employeeNumber data)) (users w) = Some user ->
        verifyPassword (ei_password data) (User.passwordHash user) = Returned false ->
        (employeeLogin req w).1 = json 401 (ErrorBody "Invalid credentials")).
Proof.
  split; [exact serve_employeeLogin_users |].
  split; [exact employeeLogin_frame |].
  split; [exact employeeLogin_relock |].
  intros req data user w Hparsed Hfind Hverify.
  unfold Handler.employeeLogin. rewrite Hparsed. step.
  rewrite Hfind. cbn. rewrite Hverify. reflexivity.
Qed.

End EmployeeLoginProperties.

Lemma employeeLogin_ignores_lockout_witness :
  let w := demoWorld [alice] in
  let run := Handler.serve (Handler.employeeLogin demoCompare None)
               (repeat (employeeLoginAs "guess") 6) w in
  run.1 = repeat (json 401 (ErrorBody "Invalid credentials")) 6
  /\ users run.2 = [alice]
  /\ (Handler.employeeLogin demoCompare None (employeeLoginAs "guess") w).1
     = json 401 (ErrorBody "Invalid credentials").
Proof.
  intros w run.
  destruct (employeeLogin_ignores_lockout demoCompare None)
    as (Hserve & _ & _ & Hfail).
  split; [reflexivity |]. split; [apply Hserve |].
  eapply (Hfail (employeeLoginAs "guess") _ alice w); reflexivity.
Defined.

(** ** The fingerprint-keyed rate limiter *)

Lemma ceilDiv_spec x d :
  (0 < d)%Z -> ((ceilDiv x d - 1) * d < x <= ceilDiv x d * d)%Z.
Proof.
  intros Hd. unfold ceilDiv.
  pose proof (Z.div_mod (- x) d ltac:(lia)) as Hdm.
  pose proof (Z.mod_pos_bound (- x) d Hd) as Hmod.
  nia.
Qed.

Lemma ceilDiv_pos x d : (0 < d)%Z -> (0 < x)%Z -> (0 < ceilDiv x d)%Z.
Proof. intros Hd Hx. pose proof (ceilDiv_spec x d Hd). nia. Qed.

Section RateLimitProperties.

Variable sha256hex : jsstring -> jsstring.

Local Abbreviation keyOf := (keyOf sha256hex).
Local Abbreviation hasKey := (hasKey sha256hex).
Local Abbreviation timesFor := (timesFor sha256hex).
Local Abbreviation verdictsFor := (verdictsFor sha256hex).
Local Abbreviation enhancedRateLimit := (enhancedRateLimit sha256hex).
Local Abbreviation runRateLimit := (runRateLimit sha256hex).

(** The middleware acts on the entry of the request's key as
    [checkWindow] says and leaves every other entry alone. *)
Lemma enhancedRateLimit_own_key req now requests :
  (enhancedRateLimit req now requests).1
  = (checkWindow now (requests !! keyOf req)).1
  /\ (enhancedRateLimit req now requests).2 !! keyOf req
     = (checkWindow now (requests !! keyOf req)).2.
Proof.
  unfold enhancedRateLimit, checkWindow. fold (keyOf req).
  destruct (requests !! keyOf req) as [current|] eqn:Hcur; cbn.
  - destruct (now >? resetTime current)%Z; cbn.
    + now rewrite lookup_insert_eq.
    + destruct (count current >=? maxRequests)%Z; cbn.
      * auto.
      * now rewrite lookup_insert_eq.
  - now rewrite lookup_insert_eq.
Qed.

Lemma enhancedRateLimit_other_key req now requests k :
  keyOf req <> k ->
  (enhancedRateLimit req now requests).2 !! k = requests !! k.
Proof.
  intros Hne. unfold enhancedRateLimit. fold (keyOf req).
  destruct (requests !! keyOf req) as [current|]; cbn.
  - destruct (now >? resetTime current)%Z; cbn.
    + now rewrite lookup_insert_ne.
    + destruct (count current >=? maxRequests)%Z; cbn;
        [reflexivity | now rewrite lookup_insert_ne].
  - now rewrite lookup_insert_ne.
Qed.

(** Seen from one key, a trace of requests is the sequence of its own
    checks: the requests of other clients change neither its verdicts nor
    its window. *)
Lemma runRateLimit_projection k reqs : forall requests,
  verdictsFor k reqs (runRateLimit reqs requests).1
  = (checkWindows (timesFor k reqs) (requests !! k)).1
  /\ (runRateLimit reqs requests).2 !! k
     = (checkWindows (timesFor k reqs) (requests !! k)).2.
Proof.
  induction reqs as [|[req now] rest IH]; intros requests; [split; reflexivity |].
  simpl runRateLimit.
  destruct (enhancedRateLimit req now requests) as [v requests'] eqn:Hstep.
  specialize (IH requests').
  destruct (runRateLimit rest requests') as [vs requests''].
  unfold verdictsFor, timesFor in *. cbn [combine List.filter fst snd] in *.
  destruct (hasKey k req) eqn:Hkey; cbn [map snd checkWindows].
  - apply bool_decide_eq_true in Hkey.
    destruct (enhancedRateLimit_own_key req now requests) as [Hv Hm].
    rewrite Hstep, Hkey in Hv, Hm. cbn [fst snd] in Hv, Hm.
    destruct (checkWindow now (requests !! k)) as [v1 e1]. cbn [fst snd] in Hv, Hm.
    subst v1. rewrite <- Hm.
    destruct (checkWindows _ (requests' !! k)) as [vs1 e2].
    cbn [fst snd] in *. destruct IH as [-> ->]. auto.
  - apply bool_decide_eq_false in Hkey.
    pose proof (enhancedRateLimit_other_key req now requests k Hkey) as Hm.
    rewrite Hstep in Hm. cbn [snd] in Hm. rewrite <- Hm. exact IH.
Qed.

Lemma checkWindows_in_window reset times : forall c,
  (c <= maxRequests)%Z ->
  Forall (fun now => (now <= reset)%Z) times ->
  checkWindows times (Some {| count := c; resetTime := reset |})
  = (inWindow c reset times,
     Some {| count := Z.min maxRequests (c + Z.of_nat (length times));
             resetTime := reset |}).
Proof.
  induction times as [|now rest IH]; intros c Hc Hall.
  - cbn. do 3 f_equal. lia.
  - apply Forall_cons in Hall as [Hnow Hrest].
    cbn [checkWindows checkWindow inWindow resetTime count].
    destruct (Z.gtb_spec now reset) as [|_]; [lia |].
    destruct (Z.geb_spec c maxRequests) as [Hge|Hlt].
    + rewrite (IH c Hc Hrest). do 3 f_equal. cbn [length]. lia.
    + rewrite (IH (c + 1)%Z) by (auto; lia). do 3 f_equal. cbn [length]. lia.
Qed.

Lemma inWindow_allowed reset times : forall c i,
  (c + Z.of_nat i < maxRequests)%Z ->
  (i < length times)%nat ->
  inWindow c reset times !! i = Some Next.
Proof.
  induction times as [|now rest IH]; intros c i Hc Hi; cbn in Hi; [lia |].
  cbn [inWindow]. destruct (Z.geb_spec c maxRequests); [lia |].
  destruct i as [|i]; [reflexivity |]. cbn. apply IH; lia.
Qed.

Lemma inWindow_denied reset times : forall c i now,
  (c <= maxRequests)%Z ->
  (maxRequests <= c + Z.of_nat i)%Z ->
  times !! i = Some now ->
  inWindow c reset times !! i
  = Some (TooManyRequests (ceilDiv (reset - now) 1000)).
Proof.
  induction times as [|t rest IH]; intros c i now Hc Hi Hlook; [discriminate |].
  cbn [inWindow]. destruct (Z.geb_spec c maxRequests).
  - destruct i as [|i]; cbn in *; [congruence | apply IH; auto; lia].
  - destruct i as [|i]; cbn in *; [lia | apply IH; auto; lia].
Qed.

(** At the very instant of the reset the old window still counts: the
    code starts a new window only when [now > resetTime]. *)
Lemma rate_limit_at_reset_instant req requests current :
  requests !! keyOf req = Some current ->
  (maxRequests <= count current)%Z ->
  enhancedRateLimit req (resetTime current) requests
  = (TooManyRequests 0, requests).
Proof.
  intros Hcur Hcount. unfold enhancedRateLimit. fold (keyOf req).
  rewrite Hcur. rewrite Z.gtb_ltb, Z.ltb_irrefl.
  destruct (Z.geb_spec (count current) maxRequests); [| lia].
  now rewrite Z.sub_diag.
Qed.

(** C5.  Take any trace of requests handled by the limiter and a key [k]
    whose first check in the trace, at [t0], finds no live window.  While
    the later checks of [k] stay inside the window started at [t0], the
    first hundred of them (the first check included) are let through and
    the 101st is answered 429, with a strictly positive [retryAfter] that
    is the number of seconds, rounded up, until the window is reset at
    [t0 + 15 min].  A check of [k] made after that instant is let through
    and starts a fresh window with count 1. *)
Theorem rate_limit_window
    (k : jsstring) (reqs : list (HttpRequest * Z))
    (requests : gmap jsstring RateWindow) (t0 : Z) (times : list Z) :
  startsWindow t0 (requests !! k) ->
  timesFor k reqs = t0 :: times ->
  Forall (fun now => (t0 <= now < t0 + windowMs)%Z) times ->
  let verdicts := verdictsFor k reqs (runRateLimit reqs requests).1 in
  let final := (runRateLimit reqs requests).2 in
  (forall i, (i < 100)%nat -> (i <= length times)%nat ->
             verdicts !! i = Some Next)
  /\ (forall now, times !! 99%nat = Some now ->
        exists retryAfter,
          verdicts !! 100%nat = Some (TooManyRequests retryAfter)
          /\ (0 < retryAfter)%Z
          /\ retryAfter = ceilDiv (t0 + 15 * 60 * 1000 - now) 1000
          /\ ((retryAfter - 1) * 1000 < t0 + 15 * 60 * 1000 - now
               <= retryAfter * 1000)%Z)
  /\ (forall req late,
        keyOf req = k ->
        (late > t0 + 15 * 60 * 1000)%Z ->
        enhancedRateLimit req late final
        = (Next, <[k := {| count := 1; resetTime := late + windowMs |}]> final)).
Proof.
  intros Hstart Htimes Hall verdicts final.
  destruct (runRateLimit_projection k reqs requests) as [Hv Hf].
  fold verdicts in Hv. fold final in Hf. rewrite Htimes in Hv, Hf.
  assert (Hfirst : checkWindow t0 (requests !! k)
                   = (Next, Some {| count := 1; resetTime := t0 + windowMs |})).
  { unfold checkWindow, startsWindow in *.
    destruct (requests !! k) as [old|]; [| reflexivity].
    destruct (Z.gtb_spec t0 (resetTime old)); [reflexivity | lia]. }
  cbn [checkWindows] in Hv, Hf. rewrite Hfirst in Hv, Hf.
  rewrite (checkWindows_in_window (t0 + windowMs) times 1) in Hv, Hf.
  2,4: unfold maxRequests; lia.
  2,3: eapply Forall_impl; [exact Hall | cbn; intros; lia].
  cbn [fst snd] in Hv, Hf.
  split; [| split].
  - intros i Hi Hlen. rewrite Hv. destruct i as [|i]; [reflexivity |].
    cbn. apply inWindow_allowed; unfold maxRequests; lia.
  - intros now Hnow. exists (ceilDiv (t0 + 15 * 60 * 1000 - now) 1000).
    assert (Hin : (t0 <= now < t0 + windowMs)%Z).
    { rewrite Forall_forall in Hall. apply Hall.
      eapply list_elem_of_lookup_2, Hnow. }
    unfold windowMs in Hin.
    split; [| split; [| split]].
    + rewrite Hv. cbn.
      rewrite (inWindow_denied _ _ 1 99 now); unfold maxRequests; auto; lia.
    + apply ceilDiv_pos; lia.
    + reflexivity.
    + apply ceilDiv_spec. lia.
  - intros req late Hkey Hlate. unfold enhancedRateLimit.
    fold (keyOf req). rewrite Hkey, Hf. cbn [resetTime].
    unfold windowMs at 1.
    destruct (Z.gtb_spec late (t0 + 15 * 60 * 1000)); [reflexivity | lia].
Qed.

End RateLimitProperties.

Lemma rate_limit_window_witness :
  let k := keyOf demoHash demoRequest in
  exists retryAfter,
    verdictsFor demoHash k demoBurst (runRateLimit demoHash demoBurst ∅).1 !! 100%nat
    = Some (TooManyRequests retryAfter)
    /\ (0 < retryAfter)%Z.
Proof.
  intros k.
  destruct (rate_limit_window demoHash k demoBurst ∅ 0
              (map (fun i => 1000 * Z.of_nat i)%Z (seq 1 100)))
    as (_ & Hdeny & _).
  - exact I.
  - vm_compute. reflexivity.
  - apply Forall_forall. intros now Hin.
    apply list_elem_of_In, in_map_iff in Hin as (i & <- & Hi). apply in_seq in Hi.
    unfold windowMs. lia.
  - destruct (Hdeny 100000%Z) as (retryAfter & Hv & Hpos & _); [reflexivity |].
    exists retryAfter. split; assumption.
Defined.

(** ** Honeypot detection *)

Lemma isEmpty_false (s : jsstring) : negb (isEmpty s) = true <-> s <> [].
Proof. destruct s; cbn; split; congruence. Qed.

Lemma fieldFilled_spec body field :
  (forall v, Json.get body field = Some v -> Json.truthy v = true ->
             Json.toString v <> None) ->
  exists b, fieldFilled body field = Returned b
            /\ (b = true <-> filledBy body field).
Proof.
  intros Hconv. unfold fieldFilled, filledBy.
  destruct (Json.get body field) as [v|] eqn:Hget.
  - destruct (Json.truthy v) eqn:Htruthy.
    + destruct (Json.toString v) as [s|] eqn:Hstr.
      * eexists. split; [reflexivity |]. rewrite isEmpty_false. split.
        -- intros Hne. exists v, s. auto.
        -- intros (v' & s' & Hv & _ & Hs & Hne).
           injection Hv as <-. rewrite Hstr in Hs. injection Hs as <-. exact Hne.
      * exfalso. now apply (Hconv v).
    + exists false. split; [reflexivity |]. split; [discriminate |].
      intros (v' & s' & Hv & Ht & _). injection Hv as <-. congruence.
  - exists false. split; [reflexivity |]. split; [discriminate |].
    intros (v' & s' & Hv & _). discriminate.
Qed.

Lemma anyFieldFilled_spec body fields :
  (forall field v, In field fields -> Json.get body field = Some v ->
                   Json.truthy v = true -> Json.toString v <> None) ->
  exists b, anyFieldFilled body fields = Returned b
            /\ (b = true <-> exists field, In field fields /\ filledBy body field).
Proof.
  induction fields as [|field rest IH]; intros Hconv.
  - exists false. split; [reflexivity |]. split; [discriminate |].
    intros (f & [] & _).
  - destruct (fieldFilled_spec body field) as (b & Hb & Hiff).
    { intros v. apply Hconv. now left. }
    destruct IH as (b' & Hb' & Hiff').
    { intros f v Hin. apply Hconv. now right. }
    cbn [anyFieldFilled]. rewrite Hb. destruct b.
    + exists true. split; [reflexivity |]. split; [| reflexivity].
      intros _. exists field. split; [now left | now apply Hiff].
    + exists b'. split; [exact Hb' |]. rewrite Hiff'. split.
      * intros (f & Hin & Hf). exists f. split; [now right | exact Hf].
      * intros (f & [<- | Hin] & Hf).
        -- apply Hiff in Hf. discriminate.
        -- exists f. auto.
Qed.

(** C6, as the code has it.  For a body whose listed fields convert to
    strings without error, [checkHoneypotFields] returns, and it returns
    [true] exactly when some listed field holds a truthy value whose string
    form is non-empty after trimming; [{website: "http://x.com"}] triggers
    it and [{website: ""}] does not. *)
Theorem checkHoneypotFields_truthy_nonblank (reqBody : option JSON) :
  convertible (bodyOrEmpty reqBody) ->
  (exists b, checkHoneypotFields reqBody = Returned b
             /\ (b = true <->
                 exists field, In field HONEYPOT_FIELDS
                               /\ filledBy (bodyOrEmpty reqBody) field))
  /\ checkHoneypotFields (Some (websiteBody (JString (js "http://x.com"))))
     = Returned true
  /\ checkHoneypotFields (Some (websiteBody (JString (js "")))) = Returned false.
Proof.
  intros Hconv. split; [| split; reflexivity].
  unfold checkHoneypotFields. apply anyFieldFilled_spec. exact Hconv.
Qed.

Lemma websiteBody_convertible s : convertible (websiteBody (JString s)).
Proof.
  intros field v _ Hget _. unfold websiteBody, Json.get in Hget. cbn in Hget.
  destruct (bool_decide _); [| discriminate].
  injection Hget as <-. discriminate.
Qed.

Lemma checkHoneypotFields_truthy_nonblank_witness :
  exists b,
    checkHoneypotFields (Some (websiteBody (JString (js "http://x.com")))) = Returned b
    /\ (b = true <->
        exists field, In field HONEYPOT_FIELDS
          /\ filledBy (websiteBody (JString (js "http://x.com"))) field).
Proof.
  apply (checkHoneypotFields_truthy_nonblank
           (Some (websiteBody (JString (js "http://x.com"))))).
  apply websiteBody_convertible.
Defined.

(** C6, as stated, fails: in the body [{website: 0}] the listed field
    [website] is present and its string form ["0"] is non-empty after
    trimming, yet [checkHoneypotFields] returns [false], because [0] is
    falsy. *)
Lemma checkHoneypotFields_zero_not_triggered :
  statedTrigger (websiteBody (JNumber 0))
  /\ checkHoneypotFields (Some (websiteBody (JNumber 0))) = Returned false
  /\ ~ (checkHoneypotFields (Some (websiteBody (JNumber 0))) = Returned true
        <-> statedTrigger (websiteBody (JNumber 0))).
Proof.
  assert (Hstated : statedTrigger (websiteBody (JNumber 0))).
  { exists (js "website"). split; [now left |].
    exists (JNumber 0), (js "0"). repeat split. discriminate. }
  split; [exact Hstated |]. split; [reflexivity |].
  intros [_ H]. specialize (H Hstated). discriminate.
Qed.

(** ** Password strength *)

Module SchemeFacts.

Lemma score_fst_award c p st : (award c p st).1 = (st.1 + Scheme.points c p)%Z.
Proof. unfold award, Scheme.points. destruct c; cbn; lia. Qed.

Lemma score_fst_awardOr c p m st :
  (awardOr c p m st).1 = (st.1 + Scheme.points c p)%Z.
Proof. unfold awardOr, Scheme.points. destruct c; cbn; lia. Qed.

Lemma score_fst_deduct c p m st :
  (deduct c p m st).1 = (st.1 - Scheme.points c p)%Z.
Proof. unfold deduct, Scheme.points. destruct c; cbn; lia. Qed.

(** [repeatsThrice] says what its name says: the string contains some
    character three times in a row. *)
Lemma repeatsThrice_spec s :
  Scheme.repeatsThrice s = true
  <-> exists pre c post, s = pre ++ c :: c :: c :: post.
Proof.
  induction s as [|a rest IH].
  - split; [discriminate |]. intros ([|? ?] & c & post & H); discriminate.
  - cbn [Scheme.repeatsThrice]. rewrite orb_true_iff, IH. split.
    + intros [Hhere | (pre & c & post & ->)].
      * destruct rest as [|b [|c rest']]; try discriminate.
        apply andb_true_iff in Hhere as [Hab Hbc].
        apply N.eqb_eq in Hab, Hbc. subst. now exists [], c, rest'.
      * now exists (a :: pre), c, post.
    + intros ([|a' pre] & c & post & Heq); cbn in Heq.
      * injection Heq as -> ->. left. now rewrite !N.eqb_refl.
      * injection Heq as -> ->. right. now exists pre, c, post.
Qed.

(** The repetition test of the code sees every run the scheme sees,
    line terminators apart. *)
Lemma testRepeated_plain s :
  Forall (fun c => isLineTerminator c = false) s ->
  testRepeated s = Scheme.repeatsThrice s.
Proof.
  induction 1 as [|a rest Ha Hrest IH]; [reflexivity |].
  cbn [testRepeated Scheme.repeatsThrice]. rewrite IH. f_equal.
  destruct rest as [|b [|c rest']]; try reflexivity.
  unfold dot. rewrite Ha. cbn.
  destruct (N.eqb_spec a b) as [->|]; reflexivity.
Qed.

Lemma canonicalize_toLower a b :
  (canonicalize a =? canonicalize b)%N
  = (Scheme.toLower a =? Scheme.toLower b)%N.
Proof.
  unfold canonicalize, Scheme.toLower, isLower, isUpper, between.
  apply eq_true_iff_eq. rewrite !N.eqb_eq.
  destruct (N.leb_spec 97 a), (N.leb_spec a 122), (N.leb_spec 97 b),
    (N.leb_spec b 122), (N.leb_spec 65 a), (N.leb_spec a 90),
    (N.leb_spec 65 b), (N.leb_spec b 90); cbn; lia.
Qed.

Lemma prefixCI_startsWith w : forall s,
  prefixCI w s = Scheme.startsWith (map Scheme.toLower w) (map Scheme.toLower s).
Proof.
  induction w as [|a w IH]; intros [|b s]; try reflexivity.
  cbn. now rewrite canonicalize_toLower, IH.
Qed.

Lemma existsb_orb {A} (f g : A -> bool) l :
  existsb (fun x => f x || g x) l = existsb f l || existsb g l.
Proof.
  induction l as [|x l IH]; [reflexivity |]. cbn. rewrite IH.
  destruct (f x), (g x), (existsb f l); reflexivity.
Qed.

Lemma existsb_pointwise {A} (f g : A -> bool) l :
  (forall x, f x = g x) -> existsb f l = existsb g l.
Proof.
  intros Hfg. induction l as [|x l IH]; [reflexivity |]. cbn.
  now rewrite Hfg, IH.
Qed.

(** Trying the alternatives position by position finds a match exactly
    when one of the words occurs somewhere. *)
Lemma testAlternativesCI_occurs alts s :
  testAlternativesCI alts s = existsb (fun w => Scheme.occursIn w s) alts.
Proof.
  unfold Scheme.occursIn. induction s as [|c s IH].
  - cbn. rewrite orb_false_r. apply existsb_pointwise. intros w.
    rewrite orb_false_r. apply prefixCI_startsWith.
  - cbn [testAlternativesCI map Scheme.tails existsb]. rewrite IH.
    rewrite existsb_orb. f_equal.
    apply existsb_pointwise. intros w. apply (prefixCI_startsWith w (c :: s)).
Qed.

Lemma stringIterator_plain s :
  Forall (fun c => isSurrogate c = false) s ->
  stringIterator s = map (fun c => [c]) s.
Proof.
  induction 1 as [|c rest Hc Hrest IH]; [reflexivity |].
  cbn [stringIterator map]. rewrite IH.
  destruct rest as [|d rest']; [reflexivity |].
  assert (Hhigh : isHighSurrogate c = false).
  { unfold isSurrogate, isHighSurrogate, between in *.
    destruct (N.leb_spec 55296 c), (N.leb_spec c 56319), (N.leb_spec c 57343);
      cbn in *; try reflexivity; try discriminate; lia. }
  rewrite Hhigh. reflexivity.
Qed.

Lemma remove_dups_singletons (s : jsstring) :
  remove_dups (map (fun c => [c]) s) = map (fun c => [c]) (remove_dups s).
Proof.
  induction s as [|c s IH]; [reflexivity |]. cbn [map remove_dups].
  destruct (decide_rel elem_of c s) as [Hin|Hnot];
    destruct (decide_rel elem_of [c] (map (fun c => [c]) s)) as [Hin'|Hnot'].
  - exact IH.
  - exfalso. apply Hnot'. apply list_elem_of_In.
    apply (in_map (fun c => [c])). now apply list_elem_of_In.
  - exfalso. apply Hnot. apply list_elem_of_In, in_map_iff in Hin'.
    destruct Hin' as (x & Hx & Hin'). injection Hx as ->.
    now apply list_elem_of_In.
  - cbn. now rewrite IH.
Qed.

Lemma setSize_plain s :
  Forall (fun c => isSurrogate c = false) s ->
  setSize (stringIterator s) = Scheme.distinct s.
Proof.
  intros Hs. unfold setSize, Scheme.distinct.
  rewrite (stringIterator_plain s Hs), remove_dups_singletons.
  apply length_map.
Qed.

End SchemeFacts.

(** On plain text the code computes the score of the scheme, and calls a
    password strong exactly when that score reaches 70. *)
Lemma checkPasswordStrength_plain (password : jsstring) :
  plain password ->
  score (checkPasswordStrength password) = Scheme.score password
  /\ isStrong (checkPasswordStrength password) = Scheme.isStrong password.
Proof.
  intros Hplain.
  assert (Hscore : score (checkPasswordStrength password) = Scheme.score password).
  { unfold checkPasswordStrength, Scheme.score, Scheme.rawScore, clamp100.
    cbn [score].
    repeat (rewrite SchemeFacts.score_fst_award
            || rewrite SchemeFacts.score_fst_deduct
            || rewrite SchemeFacts.score_fst_awardOr).
    rewrite SchemeFacts.testRepeated_plain
      by (eapply Forall_impl; [exact Hplain | cbn; tauto]).
    rewrite SchemeFacts.setSize_plain
      by (eapply Forall_impl; [exact Hplain | cbn; tauto]).
    unfold commonPatterns. rewrite SchemeFacts.testAlternativesCI_occurs.
    unfold testClass, Scheme.matchesDenylist, Scheme.denylist. cbn [fst].
    reflexivity. }
  split; [exact Hscore |].
  unfold Scheme.isStrong. rewrite <- Hscore. reflexivity.
Qed.

(** [isStrong] is the comparison of the clamped score with 70, and the
    score is always within 0..100. *)
Lemma checkPasswordStrength_isStrong (password : jsstring) :
  let r := checkPasswordStrength password in
  (0 <= score r <= 100)%Z /\ (isStrong r = true <-> (70 <= score r)%Z).
Proof.
  cbn. unfold clamp100. split; [lia |]. apply Z.leb_le.
Qed.

(** C1 on passwords with a run of line feeds.  The password
    ["\n\n\nXyzwvut1"] has eleven characters (+20), a lowercase letter, an
    uppercase letter, a digit and a non-alphanumeric character (+40), a
    character repeated three times in a row (-10), no denylisted word and
    nine distinct characters: the scheme gives 50.  The code gives 60: its
    pattern [/(.)\1{2,}/] does not see the run, because [.] matches no line
    terminator.  With three more letters the code reaches 70 and reports a
    strong password where the scheme gives 60. *)
Theorem checkPasswordStrength_newline_run :
  (score (checkPasswordStrength newlinePassword) = 60%Z
   /\ Scheme.score newlinePassword = 50%Z
   /\ Scheme.repeatsThrice newlinePassword = true
   /\ testRepeated newlinePassword = false)
  /\ (score (checkPasswordStrength newlinePassword15) = 70%Z
      /\ isStrong (checkPasswordStrength newlinePassword15) = true
      /\ Scheme.score newlinePassword15 = 60%Z
      /\ Scheme.isStrong newlinePassword15 = false).
Proof.
  split.
  - unfold newlinePassword. repeat split.
  - unfold newlinePassword15. repeat split.
Qed.

(** ** Hashing and verification *)

Section HashProperties.

Variable bcrypt_hash : jsstring -> N -> jsstring -> jsstring.
Variable bcrypt_compare : jsstring -> jsstring -> outcome bool.
Variable env_pepper : option jsstring.

Local Abbreviation hashPassword := (hashPassword bcrypt_hash env_pepper).
Local Abbreviation verifyPassword := (verifyPassword bcrypt_compare env_pepper).
Local Abbreviation pepper := (pepper env_pepper).

(** The pepper is never empty: an empty environment value falls back to
    the default. *)
Lemma pepper_nonempty : pepper <> [].
Proof.
  unfold pepper, pepperOf, ENV_PASSWORD_PEPPER, orElse.
  destruct env_pepper as [[|c s]|]; discriminate.
Qed.

(** Hashing and verification append the same pepper, so a password
    verifies against its own digest. *)
Lemma verifyPassword_own_digest salt password :
  verifiesOwnDigest bcrypt_hash bcrypt_compare ->
  verifyPassword password (hashPassword salt password) = Returned true.
Proof.
  intros Hown. unfold verifyPassword,
    hashPassword. now rewrite Hown.
Qed.

(** The data handed to [bcrypt] for [p] and for [p + "x"] always differ. *)
Lemma peppered_differ password :
  password ++ pepper <> (password ++ js "x") ++ pepper.
Proof.
  intros Heq. apply (f_equal length) in Heq.
  rewrite !length_app in Heq. cbn in Heq. lia.
Qed.

(** C8 on passwords of 72 characters or more.  With a [bcrypt] that
    verifies its own digests and uses the first 72 bytes of its input, a
    password [p] that starts with 72 ASCII characters verifies against the
    digest of [p] followed by anything:
    [verifyPassword(p, hashPassword(p + "x"))] is [true], because the
    appended text and the pepper lie beyond the bytes that are hashed. *)
Theorem verifyPassword_accepts_longer_password
    (salt key rest extra : jsstring) :
  verifiesOwnDigest bcrypt_hash bcrypt_compare ->
  usesFirst72Bytes bcrypt_hash ->
  length key = 72%nat ->
  Forall (fun c => (c < 128)%N) key ->
  let p := key ++ rest in
  verifyPassword p (hashPassword salt (p ++ extra)) = Returned true.
Proof.
  intros Hown Htrunc Hlen Hascii p. subst p.
  unfold verifyPassword, hashPassword.
  rewrite <- !app_assoc.
  rewrite (Htrunc key (rest ++ extra ++ pepper) (rest ++ pepper)) by assumption.
  now rewrite Hown.
Qed.

End HashProperties.

Lemma toy_verifiesOwnDigest : verifiesOwnDigest toyHash toyCompare.
Proof.
  intros data rounds salt. unfold toyCompare, toyHash. f_equal.
  apply bool_decide_eq_true.
  rewrite !length_app. cbn [length js map list_ascii_of_string].
  replace (length salt + (1 + length (take 72 data)) - length (take 72 data))%nat
    with (length salt + 1)%nat by lia.
  rewrite drop_app_ge by lia.
  replace (length salt + 1 - length salt)%nat with 1%nat by lia.
  reflexivity.
Qed.

Lemma toy_usesFirst72Bytes : usesFirst72Bytes toyHash.
Proof.
  intros key rest rest' rounds salt Hlen _. unfold toyHash.
  rewrite !take_app_le by lia. reflexivity.
Qed.

Lemma longPassword_ascii : Forall (fun c => (c < 128)%N) longPassword.
Proof.
  unfold longPassword. apply Forall_forall. intros c Hc.
  apply list_elem_of_In, repeat_spec in Hc. subst c. reflexivity.
Qed.

Lemma verifyPassword_accepts_longer_password_witness :
  verifyPassword toyCompare None longPassword
    (hashPassword toyHash None (js "salt") (longPassword ++ js "x"))
  = Returned true.
Proof.
  rewrite <- (app_nil_r longPassword) at 1 2.
  apply (verifyPassword_accepts_longer_password toyHash toyCompare None
           (js "salt") longPassword [] (js "x")).
  - apply toy_verifiesOwnDigest.
  - apply toy_usesFirst72Bytes.
  - reflexivity.
  - apply longPassword_ascii.
Defined.

(* ===================================================================== *)
(** * Further properties *)
(* ===================================================================== *)

(** ** What makes a password strong *)

Module StrengthFacts.

Lemma points_range c p : (0 <= p)%Z -> (0 <= Scheme.points c p <= p)%Z.
Proof. unfold Scheme.points. destruct c; lia. Qed.

(** The score before clamping, as a sum over the tests. *)
Lemma score_sum password :
let t := testsOf password in
score (checkPasswordStrength password)
= clamp100
    (Scheme.points (8 <=? t_length t)%nat 20
     + Scheme.points (12 <=? t_length t)%nat 10
     + Scheme.points (16 <=? t_length t)%nat 10
     + Scheme.points (t_lower t) 10
     + Scheme.points (t_upper t) 10
     + Scheme.points (t_digit t) 10
     + Scheme.points (t_special t) 10
     - Scheme.points (t_repeated t) 10
     - Scheme.points (t_common t) 20
     - Scheme.points (t_unique t <? 4)%nat 10
     + Scheme.points ((16 <=? t_length t)%nat && (10 <=? t_unique t)%nat) 10
     + Scheme.points ((20 <=? t_length t)%nat && (15 <=? t_unique t)%nat) 10)%Z.
Proof.
cbv zeta. unfold checkPasswordStrength, testsOf. cbn [score t_length t_lower
  t_upper t_digit t_special t_repeated t_common t_unique].
repeat (rewrite SchemeFacts.score_fst_award
        || rewrite SchemeFacts.score_fst_deduct
        || rewrite SchemeFacts.score_fst_awardOr).
reflexivity.
Qed.

Lemma isStrong_score password :
isStrong (checkPasswordStrength password) = true
<-> (70 <= score (checkPasswordStrength password))%Z.
Proof. cbn. apply Z.leb_le. Qed.

(** Every code unit of a string lies in one of the elements its iterator
  yields, and a code unit that is no surrogate is an element on its own. *)
Lemma stringIterator_covers s : forall c,
In c s -> exists e, In e (stringIterator s) /\ In c e
                    /\ (isSurrogate c = false -> e = [c]).
Proof.
assert (Hsur : forall c, isSurrogate c = false ->
                         isHighSurrogate c = false /\ isLowSurrogate c = false).
{ intros c. unfold isSurrogate, isHighSurrogate, isLowSurrogate, between.
  destruct (N.leb_spec 55296 c), (N.leb_spec c 57343), (N.leb_spec c 56319),
    (N.leb_spec 56320 c); cbn; try discriminate; auto; lia. }
(* strong induction, because the iterator may consume two code units *)
assert (H : forall n s, (length s <= n)%nat -> forall c, In c s ->
            exists e, In e (stringIterator s) /\ In c e
                      /\ (isSurrogate c = false -> e = [c])).
{ induction n as [|n IH]; intros s' Hlen c Hin.
  - destruct s'; [destruct Hin | cbn in Hlen; lia].
  - destruct s' as [|a rest]; [destruct Hin |]. cbn in Hlen.
    cbn [stringIterator]. destruct rest as [|d rest'].
    + destruct Hin as [<- | []]. exists [a]. cbn. auto.
    + destruct (isHighSurrogate a && isLowSurrogate d) eqn:Hpair.
      * apply andb_true_iff in Hpair as [Ha Hd].
        destruct Hin as [<- | [<- | Hin']].
        -- exists [a; d]. cbn. repeat split; auto.
           intros Hc. apply Hsur in Hc as [Hc _]. congruence.
        -- exists [a; d]. cbn. repeat split; auto.
           intros Hc. apply Hsur in Hc as [_ Hc]. congruence.
        -- destruct (IH rest' ltac:(cbn in Hlen; lia) c Hin')
             as (e & He & Hce & Hs).
           exists e. cbn. auto.
      * destruct Hin as [<- | Hin'].
        -- exists [a]. cbn. auto.
        -- destruct (IH (d :: rest') ltac:(cbn in *; lia) c Hin')
             as (e & He & Hce & Hs).
           exists e. split; [right; exact He | auto]. }
intros c. apply (H (length s)). lia.
Qed.

(** A password with a lowercase letter, an uppercase letter, a digit and
  one more character has at least four distinct characters. *)
Lemma four_classes_unique password :
testClass isLower password = true ->
testClass isUpper password = true ->
testClass isDigit password = true ->
testClass (fun c => negb (isAlnum c)) password = true ->
(4 <= setSize (stringIterator password))%nat.
Proof.
unfold testClass. rewrite !existsb_exists.
intros (l & Hl & Hlower) (u & Hu & Hupper) (d & Hd & Hdigit) (x & Hx & Hspecial).
assert (Hns : forall c, isAlnum c = true -> isSurrogate c = false).
{ intros c. unfold isAlnum, isUpper, isLower, isDigit, isSurrogate, between.
  destruct (N.leb_spec 65 c), (N.leb_spec c 90), (N.leb_spec 97 c),
    (N.leb_spec c 122), (N.leb_spec 48 c), (N.leb_spec c 57),
    (N.leb_spec 55296 c), (N.leb_spec c 57343); cbn; try discriminate;
    auto; lia. }
assert (Hal : isAlnum l = true) by (unfold isAlnum; rewrite Hlower; apply orb_true_r || (destruct (isUpper l); reflexivity)).
assert (Hau : isAlnum u = true) by (unfold isAlnum; now rewrite Hupper).
assert (Had : isAlnum d = true) by (unfold isAlnum; rewrite Hdigit; now rewrite orb_true_r).
destruct (stringIterator_covers password l Hl) as (el & Hel & _ & Hel').
destruct (stringIterator_covers password u Hu) as (eu & Heu & _ & Heu').
destruct (stringIterator_covers password d Hd) as (ed & Hed & _ & Hed').
destruct (stringIterator_covers password x Hx) as (ex & Hex & Hxin & _).
rewrite (Hel' (Hns l Hal)) in Hel. rewrite (Heu' (Hns u Hau)) in Heu.
rewrite (Hed' (Hns d Had)) in Hed. clear Hel' Heu' Hed'.
assert (Hlu : l <> u).
{ intros ->. unfold isLower, isUpper, between in *.
  destruct (N.leb_spec 97 u), (N.leb_spec u 90); cbn in *;
    try discriminate; try lia.
  all: rewrite ?andb_false_r in *; try discriminate. }
assert (Hld : l <> d).
{ intros ->. unfold isLower, isDigit, between in *.
  destruct (N.leb_spec 97 d), (N.leb_spec d 57); cbn in *;
    try discriminate; try lia.
  all: rewrite ?andb_false_r in *; try discriminate. }
assert (Hud : u <> d).
{ intros ->. unfold isUpper, isDigit, between in *.
  destruct (N.leb_spec 65 d), (N.leb_spec d 57); cbn in *;
    try discriminate; try lia.
  all: rewrite ?andb_false_r in *; try discriminate. }
assert (Hxl : ex <> [l]).
{ intros ->. destruct Hxin as [<- | []]. rewrite Hal in Hspecial. discriminate. }
assert (Hxu : ex <> [u]).
{ intros ->. destruct Hxin as [<- | []]. rewrite Hau in Hspecial. discriminate. }
assert (Hxd : ex <> [d]).
{ intros ->. destruct Hxin as [<- | []]. rewrite Had in Hspecial. discriminate. }
unfold setSize.
assert (Hnd : NoDup [[l]; [u]; [d]; ex]).
{ repeat (apply NoDup_cons; split); try apply NoDup_nil;
    rewrite ?elem_of_cons, ?elem_of_nil; intuition congruence. }
assert (Hsub : [[l]; [u]; [d]; ex] ⊆+ remove_dups (stringIterator password)).
{ apply NoDup_submseteq; [exact Hnd |]. intros e He.
  apply elem_of_remove_dups, list_elem_of_In.
  rewrite !elem_of_cons, elem_of_nil in He.
  destruct He as [-> | [-> | [-> | [-> | []]]]]; assumption. }
apply submseteq_length in Hsub. exact Hsub.
Qed.

End StrengthFacts.

(** X1.  A password of fewer than twelve characters is never strong: its
    score is at most 60. *)
Theorem short_password_not_strong (password : jsstring) :
  (length password < 12)%nat ->
  (score (checkPasswordStrength password) <= 60)%Z
  /\ isStrong (checkPasswordStrength password) = false.
Proof.
  intros Hlen.
  assert (Hscore : (score (checkPasswordStrength password) <= 60)%Z).
  { rewrite StrengthFacts.score_sum. cbv zeta.
    set (t := testsOf password).
    assert (Ht : t_length t = length password) by reflexivity.
    pose proof (StrengthFacts.points_range (8 <=? t_length t) 20 ltac:(lia)).
    pose proof (StrengthFacts.points_range (t_lower t) 10 ltac:(lia)).
    pose proof (StrengthFacts.points_range (t_upper t) 10 ltac:(lia)).
    pose proof (StrengthFacts.points_range (t_digit t) 10 ltac:(lia)).
    pose proof (StrengthFacts.points_range (t_special t) 10 ltac:(lia)).
    pose proof (StrengthFacts.points_range (t_repeated t) 10 ltac:(lia)).
    pose proof (StrengthFacts.points_range (t_common t) 20 ltac:(lia)).
    pose proof (StrengthFacts.points_range (t_unique t <? 4) 10 ltac:(lia)).
    destruct (Nat.leb_spec 12 (t_length t)); [lia |].
    destruct (Nat.leb_spec 16 (t_length t)); [lia |].
    destruct (Nat.leb_spec 20 (t_length t)); [lia |].
    cbn [andb Scheme.points]. unfold clamp100. lia. }
  split; [exact Hscore |].
  destruct (isStrong (checkPasswordStrength password)) eqn:Hs; [| reflexivity].
  apply StrengthFacts.isStrong_score in Hs. lia.
Qed.

Lemma short_password_not_strong_witness :
  isStrong (checkPasswordStrength (js "Xy9$mK@2pQ7")) = false.
Proof.
  apply (short_password_not_strong (js "Xy9$mK@2pQ7")). cbn. lia.
Defined.

(** X2.  A password of twelve characters or more that has a lowercase
    letter, an uppercase letter, a digit and a special character, no
    repetition the pattern check sees and none of the common patterns, is
    strong. *)
Theorem varied_password_is_strong (password : jsstring) :
  (12 <= length password)%nat ->
  testClass isLower password = true ->
  testClass isUpper password = true ->
  testClass isDigit password = true ->
  testClass (fun c => negb (isAlnum c)) password = true ->
  testRepeated password = false ->
  testAlternativesCI commonPatterns password = false ->
  isStrong (checkPasswordStrength password) = true
  /\ (70 <= score (checkPasswordStrength password))%Z.
Proof.
  intros Hlen Hl Hu Hd Hx Hrep Hcommon.
  pose proof (StrengthFacts.four_classes_unique password Hl Hu Hd Hx) as Huniq.
  assert (Hscore : (70 <= score (checkPasswordStrength password))%Z).
  { rewrite StrengthFacts.score_sum. cbv zeta. unfold testsOf.
    cbn [t_length t_lower t_upper t_digit t_special t_repeated t_common t_unique].
    rewrite Hl, Hu, Hd, Hx, Hrep, Hcommon.
    pose proof (StrengthFacts.points_range (16 <=? length password) 10 ltac:(lia)).
    pose proof (StrengthFacts.points_range
                  ((16 <=? length password)
                   && (10 <=? setSize (stringIterator password))) 10 ltac:(lia)).
    pose proof (StrengthFacts.points_range
                  ((20 <=? length password)
                   && (15 <=? setSize (stringIterator password))) 10 ltac:(lia)).
    destruct (Nat.leb_spec 8 (length password)); [| lia].
    destruct (Nat.leb_spec 12 (length password)); [| lia].
    destruct (Nat.ltb_spec (setSize (stringIterator password)) 4); [lia |].
    cbn [Scheme.points] in *. unfold clamp100. lia. }
  split; [| exact Hscore]. now apply StrengthFacts.isStrong_score.
Qed.

Lemma varied_password_is_strong_witness :
  isStrong (checkPasswordStrength (js "Xy9$mK@2pQ7#")) = true.
Proof.
  apply (varied_password_is_strong (js "Xy9$mK@2pQ7#"));
    first [reflexivity | cbn; lia].
Defined.

(** X3.  A password that contains one of the common patterns is strong
    only if it has at least sixteen characters, ten of them distinct. *)
Theorem common_pattern_needs_sixteen (password : jsstring) :
  testAlternativesCI commonPatterns password = true ->
  isStrong (checkPasswordStrength password) = true ->
  (16 <= length password)%nat
  /\ (10 <= setSize (stringIterator password))%nat.
Proof.
  intros Hcommon Hstrong. apply StrengthFacts.isStrong_score in Hstrong.
  rewrite StrengthFacts.score_sum in Hstrong. cbv zeta in Hstrong.
  unfold testsOf in Hstrong.
  cbn [t_length t_lower t_upper t_digit t_special t_repeated t_common t_unique]
    in Hstrong.
  rewrite Hcommon in Hstrong.
  set (n := length password) in *. set (q := setSize (stringIterator password)) in *.
  pose proof (StrengthFacts.points_range (8 <=? n) 20 ltac:(lia)).
  pose proof (StrengthFacts.points_range (12 <=? n) 10 ltac:(lia)).
  pose proof (StrengthFacts.points_range (testClass isLower password) 10 ltac:(lia)).
  pose proof (StrengthFacts.points_range (testClass isUpper password) 10 ltac:(lia)).
  pose proof (StrengthFacts.points_range (testClass isDigit password) 10 ltac:(lia)).
  pose proof (StrengthFacts.points_range
                (testClass (fun c => negb (isAlnum c)) password) 10 ltac:(lia)).
  pose proof (StrengthFacts.points_range (testRepeated password) 10 ltac:(lia)).
  pose proof (StrengthFacts.points_range (q <? 4) 10 ltac:(lia)).
  unfold clamp100 in Hstrong.
  destruct (Nat.leb_spec 16 n) as [H16|H16].
  - split; [exact H16 |].
    destruct (Nat.leb_spec 10 q) as [|Hq]; [assumption |].
    destruct (Nat.leb_spec 15 q); [lia |].
    rewrite ?andb_false_r in Hstrong. cbn [andb Scheme.points] in Hstrong. lia.
  - cbn [andb Scheme.points] in Hstrong.
    destruct (Nat.leb_spec 20 n); [lia |].
    cbn [andb Scheme.points] in Hstrong. lia.
Qed.

Lemma common_pattern_needs_sixteen_witness :
  (16 <= length (js "TestPassword123!"))%nat.
Proof.
  apply (common_pattern_needs_sixteen (js "TestPassword123!")); reflexivity.
Defined.

(** X4.  The feedback starts with the summary of the score band, and the
    summary is one of the three given to strong passwords exactly when
    [isStrong] is true. *)
Theorem feedback_summary_agrees (password : jsstring) :
  let r := checkPasswordStrength password in
  exists rest,
    feedback r = summary (score r) :: rest
    /\ (isStrong r = true <-> In (summary (score r)) strongSummaries).
Proof.
  cbv zeta. eexists. split; [reflexivity |].
  rewrite StrengthFacts.isStrong_score.
  set (s := score (checkPasswordStrength password)).
  unfold summary, strongSummaries.
  destruct (Z.ltb_spec s 30); [split; [lia | cbn; intuition discriminate] |].
  destruct (Z.ltb_spec s 50); [split; [lia | cbn; intuition discriminate] |].
  destruct (Z.ltb_spec s 70); [split; [lia | cbn; intuition discriminate] |].
  destruct (Z.ltb_spec s 90); [split; [cbn; auto | lia] |].
  destruct (Z.ltb_spec s 100); split; cbn; auto; lia.
Qed.

(** ** Password history lookup *)

Section HistoryLookupProperties.

Variable bcrypt_hash : jsstring -> N -> jsstring -> jsstring.
Variable bcrypt_compare : jsstring -> jsstring -> outcome bool.
Variable env_pepper : option jsstring.

Local Abbreviation verifyPassword := (verifyPassword bcrypt_compare env_pepper).
Local Abbreviation anyVerifies := (anyVerifies bcrypt_compare env_pepper).
Local Abbreviation isPasswordInHistory :=
(isPasswordInHistory bcrypt_compare env_pepper).
Local Abbreviation addToPasswordHistory :=
(addToPasswordHistory bcrypt_hash env_pepper).

Lemma verifyPassword_returns password hash :
exists b, verifyPassword password hash = Returned b.
Proof.
unfold verifyPassword. destruct (bcrypt_compare _ _) as [b|e]; eauto.
Qed.

Lemma anyVerifies_spec password entries :
exists b, anyVerifies password entries = Returned b
  /\ (b = true <->
      exists entry, In entry entries
        /\ verifyPassword password (Entry.passwordHash entry) = Returned true).
Proof.
induction entries as [|entry rest (b & Hb & Hiff)].
- exists false. split; [reflexivity |]. split; [discriminate |].
  intros (e & [] & _).
- destruct (verifyPassword_returns password (Entry.passwordHash entry))
    as (v & Hv).
  simpl. rewrite Hv. destruct v.
  + exists true. split; [reflexivity |]. split; [| reflexivity].
    intros _. exists entry. split; [now left | exact Hv].
  + exists b. split; [exact Hb |]. rewrite Hiff. split.
    * intros (e & Hin & He). exists e. split; [now right | exact He].
    * intros (e & [<- | Hin] & He); [congruence |]. exists e. auto.
Qed.

(** X5.  [isPasswordInHistory] always returns, and it returns [true]
  exactly when the password verifies against the hash of one of the last
  five entries of the history. *)
Theorem isPasswordInHistory_checks_last_five
  (password : jsstring) (passwordHistory : list Entry.t) :
exists b, isPasswordInHistory password passwordHistory = Returned b
  /\ (b = true <->
      exists entry, In entry (sliceLast 5 passwordHistory)
        /\ verifyPassword password (Entry.passwordHash entry) = Returned true).
Proof.
unfold isPasswordInHistory, maxPasswordHistory.
destruct passwordHistory as [|e rest].
- exists false. split; [reflexivity |]. split; [discriminate |].
  intros (entry & [] & _).
- apply anyVerifies_spec.
Qed.

(** X6.  With a [bcrypt] that verifies its own digests, a password that
  has just been added to a history is found in it. *)
Theorem added_password_is_in_history
  (salt : jsstring) (now : Z) (password : jsstring)
  (existingHistory : list Entry.t) :
verifiesOwnDigest bcrypt_hash bcrypt_compare ->
isPasswordInHistory password
  (addToPasswordHistory salt now password existingHistory)
= Returned true.
Proof.
intros Hown.
set (updated := addToPasswordHistory salt now password existingHistory).
destruct (isPasswordInHistory_checks_last_five password updated)
  as (b & Hb & Hiff).
rewrite Hb. f_equal. apply Hiff.
exists {| Entry.passwordHash := hashPassword bcrypt_hash env_pepper salt password;
          Entry.createdAt := now |}.
split.
- assert (Hlast : last (sliceLast 5 updated) = Some
            {| Entry.passwordHash := hashPassword bcrypt_hash env_pepper salt password;
               Entry.createdAt := now |}).
  { subst updated. unfold addToPasswordHistory, maxPasswordHistory, sliceLast.
    rewrite !length_drop, length_app. cbn [length].
    rewrite drop_drop, drop_app_le by lia. apply last_snoc. }
  apply last_Some in Hlast as (l' & ->). apply in_or_app. right. now left.
- cbn [Entry.passwordHash]. unfold verifyPassword, hashPassword.
  now rewrite Hown.
Qed.

(** X7.  Only the last five entries count: whatever lies before them in
  the history does not change the answer. *)
Theorem older_entries_are_ignored
  (password : jsstring) (older recent : list Entry.t) :
length recent = 5%nat ->
isPasswordInHistory password (older ++ recent)
= isPasswordInHistory password recent.
Proof.
intros Hlen. unfold isPasswordInHistory, maxPasswordHistory.
assert (Hslice : sliceLast 5 (older ++ recent) = recent).
{ unfold sliceLast. rewrite length_app, Hlen.
  replace (length older + 5 - 5)%nat with (length older) by lia.
  apply drop_app_length. }
assert (Hself : sliceLast 5 recent = recent).
{ unfold sliceLast. rewrite Hlen. reflexivity. }
rewrite Hslice, Hself.
destruct recent as [|r recent']; [discriminate |].
destruct (older ++ r :: recent') eqn:Happ; [| reflexivity].
apply app_eq_nil in Happ as [_ Happ]. discriminate.
Qed.

End HistoryLookupProperties.

Lemma added_password_is_in_history_witness :
  isPasswordInHistory toyCompare None (js "Xy9$mK@2pQ7#vL4!nR8")
    (addToPasswordHistory toyHash None (js "salt") 0 (js "Xy9$mK@2pQ7#vL4!nR8") [])
  = Returned true.
Proof.
  apply (added_password_is_in_history toyHash toyCompare None).
  apply toy_verifiesOwnDigest.
Defined.

Lemma older_entries_are_ignored_witness :
  let entry salt password :=
    {| Entry.passwordHash := toyHash (password ++ defaultPepper) 12 salt;
       Entry.createdAt := 0 |} in
  let recent := map (entry (js "s")) [js "p1"; js "p2"; js "p3"; js "p4"; js "p5"] in
  isPasswordInHistory toyCompare None (js "p0") (entry (js "s") (js "p0") :: recent)
  = isPasswordInHistory toyCompare None (js "p0") recent.
Proof.
  intros entry recent.
  apply (older_entries_are_ignored toyCompare None (js "p0")
           [entry (js "s") (js "p0")] recent).
  reflexivity.
Defined.

(** ** Lockout arithmetic *)

(** X8.  An account counts as locked exactly when some lockout time
    remains, and then what remains is the distance to [lockoutUntil]; a
    lockout set by a failure at [t] never leaves more than fifteen minutes
    from [t] on. *)
Theorem locked_iff_time_remains (now : Z) (lockoutInfo : AccountLockoutInfo) :
  (isAccountLocked now lockoutInfo = true
   <-> (0 < getLockoutTimeRemaining now lockoutInfo)%Z)
  /\ (forall expiry, lockoutUntil lockoutInfo = Some expiry ->
      isAccountLocked now lockoutInfo = true ->
      getLockoutTimeRemaining now lockoutInfo = (expiry - now)%Z)
  /\ (forall t, (t <= now)%Z ->
      (0 <= getLockoutTimeRemaining now (recordFailedAttempt t lockoutInfo)
       <= 15 * 60 * 1000)%Z
      /\ (0 <= ceilDiv (getLockoutTimeRemaining now
                          (recordFailedAttempt t lockoutInfo)) (1000 * 60)
          <= 15)%Z).
Proof.
  unfold isAccountLocked, getLockoutTimeRemaining. repeat split.
  - destruct (lockoutUntil lockoutInfo) as [expiry|]; [| discriminate].
    intros H%Z.ltb_lt. lia.
  - destruct (lockoutUntil lockoutInfo) as [expiry|]; [| lia].
    intros H. apply Z.ltb_lt. lia.
  - intros expiry -> H%Z.ltb_lt. lia.
  - cbn. destruct (maxFailedAttempts <=? _)%Z; lia.
  - cbn. unfold lockoutDuration.
    destruct (maxFailedAttempts <=? _)%Z; lia.
  - pose proof (ceilDiv_spec (getLockoutTimeRemaining now
                                (recordFailedAttempt t lockoutInfo)) (1000 * 60)
                  ltac:(lia)) as Hc.
    unfold getLockoutTimeRemaining in Hc. cbn in Hc |- *.
    destruct (maxFailedAttempts <=? _)%Z; cbn in Hc |- *; lia.
  - pose proof (ceilDiv_spec (getLockoutTimeRemaining now
                                (recordFailedAttempt t lockoutInfo)) (1000 * 60)
                  ltac:(lia)) as Hc.
    unfold getLockoutTimeRemaining in Hc. cbn in Hc |- *.
    unfold lockoutDuration in *.
    destruct (maxFailedAttempts <=? _)%Z; cbn in Hc |- *; lia.
Qed.

Lemma locked_iff_time_remains_witness :
  (0 <= ceilDiv (getLockoutTimeRemaining 1000
                   (recordFailedAttempt 0
                      {| failedAttempts := 4; lockoutUntil := None;
                         lastAttempt := 0 |})) (1000 * 60) <= 15)%Z.
Proof.
  apply (locked_iff_time_remains 1000
           {| failedAttempts := 4; lockoutUntil := None; lastAttempt := 0 |}).
  lia.
Defined.

(** ** The other paths of the login handler *)

Section MoreLoginProperties.
Import Handler HandlerFacts.

Variable bcrypt_compare : jsstring -> jsstring -> outcome bool.
Variable env_pepper : option jsstring.
Variable clock : nat -> Z.

Local Abbreviation login := (Handler.login bcrypt_compare env_pepper clock).
Local Abbreviation failingRequestFor :=
(failingRequestFor bcrypt_compare env_pepper).
Local Abbreviation verifyingRequestFor :=
(verifyingRequestFor bcrypt_compare env_pepper).

Lemma sameButLockout_refl u : sameButLockout u u.
Proof. unfold sameButLockout. destruct u; reflexivity. Qed.

Lemma sameButLockout_updateById id info stamp us :
Forall2 sameButLockout us (updateById id (User.updated info stamp) us).
Proof.
induction us as [|u us IH]; cbn [updateById]; [constructor |].
destruct (User._id u =? id)%N.
- constructor; [reflexivity |].
  clear IH. induction us; constructor; auto using sameButLockout_refl.
- constructor; [apply sameButLockout_refl | exact IH].
Qed.

Lemma sameButLockout_all us : Forall2 sameButLockout us us.
Proof. induction us; constructor; auto using sameButLockout_refl. Qed.

(** A successful login on an account that is not locked: the clock is read
  for the check when [lockoutUntil] is set, and once for the reset. *)
Lemma login_succeeded req user w :
verifyingRequestFor user req ->
find (accountOf user) (users w) = Some user ->
isAccountLocked (clock (ticks w)) (User.lockoutInfo user) = false ->
let k := lockReadings (User.lockoutInfo user) in
let reset := resetFailedAttempts (clock (k + ticks w)) (User.lockoutInfo user) in
users (login req w).2
= updateById (User._id user) (User.updated reset (stamped req)) (users w)
/\ ticks (login req w).2 = (S k + ticks w)%nat
/\ (regenerateFails req = false ->
    (login req w).1 = loggedIn user
    /\ session (login req w).2 = {| uid := Some (User._id user); role := None |})
/\ (regenerateFails req = true ->
    (login req w).1 = sessionError
    /\ session (login req w).2 = session w).
Proof.
intros (data & Hparsed & Hu & Ha & Hverify) Hfind Hopen k reset.
unfold Handler.login. rewrite Hparsed, Hu, Ha.
unfold accountOf in Hfind.
rewrite (bind_run _ _ w (Some user) w) by (unfold findOne; now rewrite Hfind).
rewrite (bind_run _ _ _ _ _ (isAccountLockedNow_run clock _ w)), Hopen.
fold k. set (w1 := advance k w).
rewrite (bind_run _ _ w1 (Returned true) _)
  by (unfold verify; now rewrite Hverify).
rewrite (bind_run _ _ _ _ _ (resetFailedAttemptsNow_run clock _ _)).
cbn [advance w1 ticks]. fold reset.
rewrite (bind_run (findByIdAndUpdate _ _ _) _ _ tt _ eq_refl).
unfold bind, regenerate, setSession, ret.
destruct (regenerateFails req); cbn; repeat split; intros; congruence.
Qed.

(** X9.  An expired lockout does not clear the counter: on an account whose
  counter stands at four or more and which is not locked when the request
  arrives, a single wrong password is answered 423 and locks the account
  for fifteen minutes from that attempt.  The failure is recorded at the
  first clock reading of the request when [lockoutUntil] was unset and at
  the second when it was set, and the account must still be locked at the
  reading after it. *)
Theorem one_failure_relocks
  (user : User.t) (req : Request LoginInput) (w : World) :
NoDup (ids (users w)) ->
find (accountOf user) (users w) = Some user ->
failingRequestFor user req ->
(4 <= failedAttempts (User.lockoutInfo user))%Z ->
isAccountLocked (clock (ticks w)) (User.lockoutInfo user) = false ->
let k := lockReadings (User.lockoutInfo user) in
let t := clock (k + ticks w) in
(clock (S k + ticks w) < t + lockoutDuration)%Z ->
(login req w).1 = nowLocked
/\ find (accountOf user) (users (login req w).2)
   = Some (User.updated
             {| failedAttempts := failedAttempts (User.lockoutInfo user) + 1;
                lockoutUntil := Some (t + 15 * 60 * 1000)%Z;
                lastAttempt := t |} (stamped req) user)
/\ ticks (login req w).2 = (2 + k + ticks w)%nat.
Proof.
intros Hnd Hfind Hreq Hcount Hopen k t Hclock.
assert (Hupd : recordFailedAttempt t (User.lockoutInfo user)
               = {| failedAttempts := failedAttempts (User.lockoutInfo user) + 1;
                    lockoutUntil := Some (t + 15 * 60 * 1000)%Z;
                    lastAttempt := t |}).
{ unfold recordFailedAttempt, maxFailedAttempts.
  destruct (Z.leb_spec 5 (failedAttempts (User.lockoutInfo user) + 1)); [| lia].
  reflexivity. }
destruct (login_failed bcrypt_compare env_pepper clock req user w
            Hreq Hfind Hopen) as (data & _ & Hrun).
fold k t in Hrun. rewrite Hupd in Hrun. rewrite Hrun. cbn [fst snd users ticks].
split; [| split].
- unfold isAccountLocked. cbn [lockoutUntil].
  unfold lockoutDuration in Hclock.
  destruct (Z.ltb_spec (clock (S k + ticks w)) (t + 15 * 60 * 1000));
    [reflexivity | lia].
- apply (find_updateById (accountOf user) _ (users w) user Hnd Hfind).
  apply find_some in Hfind as [_ Hp]. exact Hp.
- cbn [lockReadings lockoutUntil]. lia.
Qed.

(** X10.  A password that verifies, on an account that is not locked,
  resets the stored lockout record to no failures and no lockout, whether
  or not the session can be regenerated; the request is answered 200 with
  the account summary and the session carries the id of the user, or 500
  when regeneration fails.  The reset is stamped with the first clock
  reading of the request when [lockoutUntil] was unset, with the second
  when it was set. *)
Theorem successful_login_resets_lockout
  (user : User.t) (req : Request LoginInput) (w : World) :
NoDup (ids (users w)) ->
find (accountOf user) (users w) = Some user ->
verifyingRequestFor user req ->
isAccountLocked (clock (ticks w)) (User.lockoutInfo user) = false ->
let k := lockReadings (User.lockoutInfo user) in
find (accountOf user) (users (login req w).2)
= Some (User.updated
          {| failedAttempts := 0; lockoutUntil := None;
             lastAttempt := clock (k + ticks w) |} (stamped req) user)
/\ ticks (login req w).2 = (S k + ticks w)%nat
/\ (login req w).1 = (if regenerateFails req then sessionError else loggedIn user)
/\ (regenerateFails req = false ->
    session (login req w).2 = {| uid := Some (User._id user); role := None |}).
Proof.
intros Hnd Hfind Hreq Hopen k.
destruct (login_succeeded req user w Hreq Hfind Hopen)
  as (Husers & Hticks & Hok & Hfail).
split; [| split; [exact Hticks | split]].
- rewrite Husers.
  apply (find_updateById (accountOf user) _ (users w) user Hnd Hfind).
  apply find_some in Hfind as [_ Hp]. exact Hp.
- destruct (regenerateFails req); [now apply Hfail | now apply Hok].
- intros Hr. now apply Hok.
Qed.

(** X11.  Whatever the request, the login handler changes nothing in the
  stored users but lockout records and the [updatedAt] the database
  stamps a write with: the users are the same documents in the same
  order, each with, at most, another [lockoutInfo] and another
  [updatedAt].  A request with an invalid body or for an unknown account
  changes nothing, reads no clock and compares no password. *)
Theorem login_touches_only_lockout (req : Request LoginInput) (w : World) :
Forall2 sameButLockout (users w) (users (login req w).2)
/\ (parsed req = None ->
    login req w = (json 400 (ErrorBody "Invalid input"), w))
/\ (forall data, parsed req = Some data ->
    find (byCredentials (li_username data) (li_accountNumber data)) (users w)
    = None ->
    login req w = (invalidCredentials, w)).
Proof.
split; [| split].
- unfold Handler.login. destruct (parsed req) as [data|];
    [| apply sameButLockout_all].
  rewrite (bind_run (findOne _) _ w _ w eq_refl). cbn [users].
  destruct (find _ (users w)) as [user|]; [| apply sameButLockout_all].
  rewrite (bind_run _ _ _ _ _ (isAccountLockedNow_run clock _ w)).
  destruct (isAccountLocked _ _).
  { rewrite (bind_run _ _ _ _ _ (getLockoutTimeRemainingNow_run clock _ _)).
    apply sameButLockout_all. }
  rewrite (bind_run (verify _ _ _ _) _ _ _ _ eq_refl).
  destruct (verifyPassword _ _ _ _) as [[|]|e].
  + rewrite (bind_run _ _ _ _ _ (resetFailedAttemptsNow_run clock _ _)).
    rewrite (bind_run (findByIdAndUpdate _ _ _) _ _ tt _ eq_refl).
    unfold bind, regenerate, setSession, ret.
    destruct (regenerateFails req); cbn; apply sameButLockout_updateById.
  + rewrite (bind_run _ _ _ _ _ (recordFailedAttemptNow_run clock _ _)).
    rewrite (bind_run (findByIdAndUpdate _ _ _) _ _ tt _ eq_refl).
    rewrite (bind_run _ _ _ _ _ (isAccountLockedNow_run clock _ _)).
    rewrite if_ret. cbn. apply sameButLockout_updateById.
  + apply sameButLockout_all.
- intros Hparsed. unfold Handler.login. rewrite Hparsed. reflexivity.
- intros data Hparsed Hfind. unfold Handler.login. rewrite Hparsed.
  rewrite (bind_run _ _ w None w) by (unfold findOne; now rewrite Hfind).
  reflexivity.
Qed.

(** X12.  Five wrong passwords in a row on an open account: the first four
  are answered 401 and the fifth 423 with fifteen minutes, provided the
  clock has not run past the new lockout between recording the fifth
  failure and checking it.  The first four attempts read the clock once
  each, so the fifth failure is recorded at the fifth reading and checked
  at the sixth. *)
Theorem five_failures_answers
  (user : User.t) (t0 : Z) (w0 : World)
  (four : list (Request LoginInput)) (fifth : Request LoginInput) :
NoDup (ids (users w0)) ->
find (accountOf user) (users w0) = Some user ->
User.lockoutInfo user = openState t0 ->
length four = 4%nat ->
Forall (failingRequestFor user) (four ++ [fifth]) ->
(clock (5 + ticks w0) < clock (4 + ticks w0) + lockoutDuration)%Z ->
(serve login (four ++ [fifth]) w0).1
= [invalidCredentials; invalidCredentials; invalidCredentials;
   invalidCredentials; nowLocked]
/\ ticks (serve login (four ++ [fifth]) w0).2 = (6 + ticks w0)%nat.
Proof.
intros Hnd Hfind Hopen Hlen Hall Hclock.
apply Forall_app in Hall as [Hfour Hfifth].
apply Forall_cons in Hfifth as [Hfifth _].
rewrite (updated_self user) in Hfind at 2. rewrite Hopen in Hfind.
destruct (serve_app login four [fifth] w0) as [-> ->].
destruct (serve_failures bcrypt_compare env_pepper clock user four w0
            (openState t0) (User.updatedAt user) Hfind Hnd eq_refl)
  as ((stamp4 & Hfind4 & _) & Hnd4 & Hticks4 & Hopen4 & Hans4);
  [rewrite Hlen; cbn; lia | exact Hfour |].
rewrite Hlen in *. rewrite Hans4. cbn [repeat app].
set (w4 := (serve login four w0).2) in *.
set (s4 := recordFailures _ (openState t0)) in *.
assert (Hopen4' : isAccountLocked (clock (ticks w4))
                    (User.lockoutInfo (User.updated s4 stamp4 user)) = false).
{ unfold isAccountLocked.
  cbn [User.lockoutInfo User.updated User.withUpdatedAt User.withLockoutInfo].
  now rewrite Hopen4. }
destruct (login_failed bcrypt_compare env_pepper clock fifth
            (User.updated s4 stamp4 user) w4 Hfifth Hfind4 Hopen4')
  as (data & _ & Hrun5).
cbn [User.lockoutInfo User.updated User.withUpdatedAt User.withLockoutInfo
     User._id] in Hrun5.
assert (Hk4 : lockReadings s4 = 0%nat) by (unfold lockReadings; now rewrite Hopen4).
rewrite Hk4, Hticks4 in Hrun5.
change (0 + (4 + ticks w0))%nat with (4 + ticks w0)%nat in Hrun5.
change (1 + (4 + ticks w0))%nat with (5 + ticks w0)%nat in Hrun5.
assert (Hs5 : recordFailedAttempt (clock (4 + ticks w0)) s4
              = {| failedAttempts := 5;
                   lockoutUntil := Some (clock (4 + ticks w0) + lockoutDuration)%Z;
                   lastAttempt := clock (4 + ticks w0) |}) by reflexivity.
rewrite Hs5 in Hrun5. cbn [lockReadings lockoutUntil] in Hrun5.
rewrite serve_cons_fst, serve_cons, Hrun5. cbn [serve ret fst snd ticks].
split; [| reflexivity]. do 5 f_equal.
unfold isAccountLocked. cbn [lockoutUntil].
apply Z.ltb_lt in Hclock. now rewrite Hclock.
Qed.

Lemma failureTimes_length n : forall tick,
length (failureTimes clock n tick) = n.
Proof. induction n as [|n IH]; intros tick; cbn; [| rewrite IH]; reflexivity. Qed.

(** X13.  A successful login restarts the count: up to four failures, a
  success, then up to four more failures are answered 401, 200, 401 and
  leave the account with no lockout and a counter equal to the number of
  failures since the success. *)
Theorem success_restarts_count
  (user : User.t) (t0 : Z) (w0 : World)
  (before after : list (Request LoginInput)) (good : Request LoginInput) :
NoDup (ids (users w0)) ->
find (accountOf user) (users w0) = Some user ->
User.lockoutInfo user = openState t0 ->
(length before <= 4)%nat ->
(length after <= 4)%nat ->
Forall (failingRequestFor user) before ->
Forall (failingRequestFor user) after ->
verifyingRequestFor user good ->
regenerateFails good = false ->
let run := serve login (before ++ good :: after) w0 in
run.1 = repeat invalidCredentials (length before)
        ++ loggedIn user :: repeat invalidCredentials (length after)
/\ exists final,
     find (accountOf user) (users run.2) = Some final
     /\ failedAttempts (User.lockoutInfo final) = Z.of_nat (length after)
     /\ lockoutUntil (User.lockoutInfo final) = None.
Proof.
intros Hnd Hfind Hopen Hb Ha Hbefore Hafter Hgood Hregen run.
rewrite (updated_self user) in Hfind at 2. rewrite Hopen in Hfind.
destruct (serve_app login before (good :: after) w0) as [Hr1 Hr2].
fold run in Hr1, Hr2.
(* the failures before the success *)
destruct (serve_failures bcrypt_compare env_pepper clock user before w0
            (openState t0) (User.updatedAt user) Hfind Hnd eq_refl
            ltac:(cbn; lia) Hbefore)
  as ((stamp1 & Hfind1 & _) & Hnd1 & _ & Hs1 & Hans1).
set (w1 := (serve login before w0).2) in *.
set (s1 := recordFailures _ (openState t0)) in *.
assert (Hopen1 : isAccountLocked (clock (ticks w1))
                   (User.lockoutInfo (User.updated s1 stamp1 user)) = false).
{ unfold isAccountLocked.
  cbn [User.lockoutInfo User.updated User.withUpdatedAt User.withLockoutInfo].
  now rewrite Hs1. }
(* the success *)
destruct (login_succeeded good (User.updated s1 stamp1 user) w1 Hgood Hfind1
            Hopen1) as (Husers2 & _ & Hok & _).
destruct (Hok Hregen) as [Hans2 _].
set (w2 := (login good w1).2) in *.
set (s2 := resetFailedAttempts _ _) in Husers2.
assert (Hfind2 : find (accountOf user) (users w2)
                 = Some (User.updated s2 (stamped good) user)).
{ rewrite Husers2.
  rewrite <- (updated_updated s1 stamp1 s2 (stamped good)).
  apply (find_updateById (accountOf user) (User.updated s2 (stamped good))
           (users w1) (User.updated s1 stamp1 user) Hnd1 Hfind1).
  apply find_some in Hfind1 as [_ Hp]. exact Hp. }
assert (Hnd2 : NoDup (ids (users w2))).
{ rewrite Husers2, ids_updateById; auto. }
(* the failures after the success *)
destruct (serve_failures bcrypt_compare env_pepper clock user after w2 s2
            (stamped good) Hfind2 Hnd2 eq_refl ltac:(cbn; lia) Hafter)
  as ((stamp3 & Hfind3 & _) & _ & _ & Hs3 & Hans3).
split.
- rewrite Hr1, Hans1, serve_cons_fst. fold w1. rewrite Hans2. fold w2.
  now rewrite Hans3.
- rewrite Hr2, serve_cons. fold w1 w2.
  eexists. split; [exact Hfind3 |].
  cbn [User.lockoutInfo User.updated User.withUpdatedAt User.withLockoutInfo].
  split; [| exact Hs3].
  rewrite recordFailures_count, failureTimes_length. reflexivity.
Qed.

End MoreLoginProperties.

Lemma wrongGuess_failing user password :
  User.username user = js "alice" ->
  User.accountNumber user = js "12345678" ->
  verifyPassword demoCompare None (js password) (User.passwordHash user)
  = Returned false ->
  failingRequestFor demoCompare None user (loginAs password).
Proof. intros Hu Ha Hv. eexists. repeat split; auto. Qed.

Lemma one_failure_relocks_witness :
  (Handler.login demoCompare None lateClock (loginAs "guess6")
     (demoWorld [lockedAlice])).1 = nowLocked
  /\ ticks (Handler.login demoCompare None demoClock (loginAs "guess5")
              (demoWorld [fourFailuresAlice])).2 = 2%nat.
Proof.
  split.
  - apply (one_failure_relocks demoCompare None lateClock lockedAlice
             (loginAs "guess6") (demoWorld [lockedAlice])).
    + apply NoDup_singleton.
    + reflexivity.
    + apply wrongGuess_failing; reflexivity.
    + cbn. lia.
    + reflexivity.
    + vm_compute. reflexivity.
  - apply (one_failure_relocks demoCompare None demoClock fourFailuresAlice
             (loginAs "guess5") (demoWorld [fourFailuresAlice])).
    + apply NoDup_singleton.
    + reflexivity.
    + apply wrongGuess_failing; reflexivity.
    + cbn. lia.
    + reflexivity.
    + vm_compute. reflexivity.
Defined.

Lemma successful_login_resets_lockout_witness :
  (Handler.login demoCompare None demoClock (loginAs "Correct#Horse9")
     (demoWorld [alice])).1 = loggedIn alice.
Proof.
  apply (successful_login_resets_lockout demoCompare None demoClock alice
           (loginAs "Correct#Horse9") (demoWorld [alice])).
  - apply NoDup_singleton.
  - reflexivity.
  - eexists. repeat split.
  - reflexivity.
Defined.

Lemma login_touches_only_lockout_witness :
  Handler.login demoCompare None demoClock unparsedLogin (demoWorld [alice])
  = (json 400 (ErrorBody "Invalid input"), demoWorld [alice]).
Proof.
  apply (login_touches_only_lockout demoCompare None demoClock unparsedLogin
           (demoWorld [alice])).
  reflexivity.
Defined.

Lemma five_failures_answers_witness :
  (Handler.serve (Handler.login demoCompare None demoClock) wrongGuesses
     (demoWorld [alice])).1
  = [invalidCredentials; invalidCredentials; invalidCredentials;
     invalidCredentials; nowLocked].
Proof.
  apply (five_failures_answers demoCompare None demoClock alice 0
           (demoWorld [alice])
           [loginAs "guess1"; loginAs "guess2"; loginAs "guess3"; loginAs "guess4"]
           (loginAs "guess5")).
  - apply NoDup_singleton.
  - reflexivity.
  - reflexivity.
  - reflexivity.
  - repeat constructor; apply wrongGuess_failing; reflexivity.
  - vm_compute. reflexivity.
Defined.

Lemma success_restarts_count_witness :
  (Handler.serve (Handler.login demoCompare None demoClock)
     ([loginAs "guess1"; loginAs "guess2"]
      ++ loginAs "Correct#Horse9" :: [loginAs "guess3"])
     (demoWorld [alice])).1
  = [invalidCredentials; invalidCredentials; loggedIn alice; invalidCredentials].
Proof.
  apply (success_restarts_count demoCompare None demoClock alice 0
           (demoWorld [alice]) [loginAs "guess1"; loginAs "guess2"]
           [loginAs "guess3"] (loginAs "Correct#Horse9")).
  - apply NoDup_singleton.
  - reflexivity.
  - reflexivity.
  - cbn. lia.
  - cbn. lia.
  - repeat constructor; apply wrongGuess_failing; reflexivity.
  - repeat constructor; apply wrongGuess_failing; reflexivity.
  - eexists. repeat split.
  - reflexivity.
Defined.

(** ** Registration *)

Section RegisterProperties.
Import Handler HandlerFacts.

Variable bcrypt_hash : jsstring -> N -> jsstring -> jsstring.
Variable bcrypt_compare : jsstring -> jsstring -> outcome bool.
Variable env_pepper : option jsstring.
Variable clock : nat -> Z.
Variable toLowerCase : jsstring -> jsstring.

Local Abbreviation register :=
(Registration.register bcrypt_hash env_pepper clock toLowerCase).
Local Abbreviation isPasswordBreached := (Registration.isPasswordBreached toLowerCase).
Local Abbreviation login := (Handler.login bcrypt_compare env_pepper clock).

Local Abbreviation stored := (Registration.stored bcrypt_hash env_pepper clock).

Ltac rstep :=
unfold bind, ret, findOne, now, regenerate, setSession, Registration.create,
  Registration.respond;
cbn [fst snd users ticks trace session r_status r_body].

(** Either nothing is stored, or exactly the document [stored] is added. *)
Lemma register_cases drawn req w :
(users (register drawn req w).2 = users w
 /\ ticks (register drawn req w).2 = ticks w
 /\ (r_status (register drawn req w).1 = 400%Z
     \/ r_status (register drawn req w).1 = 409%Z))
\/ (exists data,
      parsed req = Some data
      /\ find (Registration.byAnyOf (ri_username data)
                 (ri_username data ++ js "@securbank.internal")
                 (ri_accountNumber data)) (users w) = None
      /\ isStrong (checkPasswordStrength (ri_password data)) = true
      /\ isPasswordBreached (ri_password data) = false
      /\ users (register drawn req w).2
         = users w ++ [stored drawn data (ticks w) (stamped req)]
      /\ ticks (register drawn req w).2 = (3 + ticks w)%nat
      /\ r_status (register drawn req w).1
         = (if regenerateFails req then 500 else 201)%Z).
Proof.
unfold Registration.register. destruct (parsed req) as [data|] eqn:Hparsed.
2: { left. rstep. split; [reflexivity | split; [reflexivity |]].
     left; reflexivity. }
rstep. destruct (find _ (users w)) as [existing|] eqn:Hfind.
{ left. rstep. split; [reflexivity | split; [reflexivity |]].
  right; reflexivity. }
destruct (isStrong (checkPasswordStrength (ri_password data))) eqn:Hstrong.
2: { left. rstep. split; [reflexivity | split; [reflexivity |]].
     left; reflexivity. }
cbn [negb]. destruct (isPasswordBreached (ri_password data)) eqn:Hbreached.
{ left. rstep. split; [reflexivity | split; [reflexivity |]].
  left; reflexivity. }
right. exists data. rstep.
destruct (regenerateFails req); rstep; repeat split; auto.
Qed.

Lemma find_app_None {A} (p : A -> bool) l l' :
find p l = None -> find p (l ++ l') = find p l'.
Proof.
induction l as [|x l IH]; cbn; [reflexivity |].
destruct (p x); [discriminate | exact IH].
Qed.

Lemma find_weaker {A} (p q : A -> bool) l :
(forall x, q x = true -> p x = true) ->
find p l = None -> find q l = None.
Proof.
intros Hpq. induction l as [|x l IH]; cbn; [reflexivity |].
destruct (p x) eqn:Hp; [discriminate |]. intros Hnone.
destruct (q x) eqn:Hq; [| now apply IH].
apply Hpq in Hq. congruence.
Qed.

(** X14.  Registration followed by login: when a registration is answered
  201, a login with the same user name, account number and password is
  answered 200 with the summary of the new account, provided [bcrypt]
  verifies its own digests (and the session can be regenerated). *)
Theorem register_then_login
  (drawn : Drawn) (req : Request RegisterInput) (data : RegisterInput)
  (w : World) :
verifiesOwnDigest bcrypt_hash bcrypt_compare ->
parsed req = Some data ->
r_status (register drawn req w).1 = 201%Z ->
(login (loginWith data false) (register drawn req w).2).1
= json 200
    (LoggedInBody "Logged in" (ri_username data) (ri_fullName data)
       (ri_accountNumber data)).
Proof.
intros Hown Hparsed H201.
destruct (register_cases drawn req w) as [(_ & _ & [H | H]) | Hcreated];
  [congruence | congruence |].
destruct Hcreated as (data' & Hparsed' & Hfresh & _ & _ & Husers & Hticks & _).
rewrite Hparsed in Hparsed'. injection Hparsed' as <-.
set (w' := (register drawn req w).2) in *.
set (u := stored drawn data (ticks w) (stamped req)) in *.
assert (Hfind : find (accountOf u) (users w') = Some u).
{ rewrite Husers, find_app_None.
  - cbn [find]. unfold accountOf, byCredentials.
    rewrite !bool_decide_eq_true_2 by reflexivity. reflexivity.
  - eapply find_weaker; [| exact Hfresh].
    intros x. unfold accountOf, byCredentials, Registration.byAnyOf.
    intros [Hx _]%andb_true_iff. subst u.
    cbn [User.username Registration.stored] in Hx. now rewrite Hx. }
assert (Hreq : verifyingRequestFor bcrypt_compare env_pepper u (loginWith data false)).
{ eexists. repeat split. subst u.
  cbn [li_password loginWith parsed User.passwordHash Registration.stored].
  unfold verifyPassword, hashPassword. now rewrite Hown. }
destruct (login_succeeded bcrypt_compare env_pepper clock (loginWith data false)
            u w' Hreq Hfind) as (_ & _ & Hok & _); [reflexivity |].
destruct (Hok eq_refl) as [-> _]. reflexivity.
Qed.

(** X15.  A registration stores at most one document and never touches the
  documents already there.  It stores one only for a password that is
  strong and not on the breach list, and only when no stored user has the
  same user name, e-mail address or account number; the new account is
  open, with a history of one entry.  When the session cannot be
  regenerated the request is answered 500 although the document has been
  stored. *)
Theorem register_stores_once
  (drawn : Drawn) (req : Request RegisterInput) (w : World) :
let run := register drawn req w in
(users run.2 = users w
 /\ (r_status run.1 = 400%Z \/ r_status run.1 = 409%Z))
\/ (exists data user,
      parsed req = Some data
      /\ users run.2 = users w ++ [user]
      /\ isStrong (checkPasswordStrength (ri_password data)) = true
      /\ isPasswordBreached (ri_password data) = false
      /\ Forall (fun u => User.username u <> ri_username data
                          /\ User.email u <> User.email user
                          /\ User.accountNumber u <> ri_accountNumber data)
           (users w)
      /\ User.username user = ri_username data
      /\ User.accountNumber user = ri_accountNumber data
      /\ User.lockoutInfo user
         = {| failedAttempts := 0; lockoutUntil := None;
              lastAttempt := clock (2 + ticks w) |}
      /\ length (User.passwordHistory user) = 1%nat
      /\ r_status run.1 = (if regenerateFails req then 500 else 201)%Z).
Proof.
cbv zeta.
destruct (register_cases drawn req w)
  as [(Husers & _ & Hstatus) | (data & Hparsed & Hfresh & Hstrong & Hbreach
                                & Husers & _ & Hstatus)].
- left. auto.
- right. exists data, (stored drawn data (ticks w) (stamped req)).
  repeat split; auto.
  apply Forall_forall. intros x Hx%list_elem_of_In.
  pose proof (find_none _ _ Hfresh x Hx) as Hno.
  unfold Registration.byAnyOf in Hno.
  apply orb_false_iff in Hno as [Hno Hacc].
  apply orb_false_iff in Hno as [Hname Hemail].
  apply bool_decide_eq_false in Hname, Hemail, Hacc. auto.
Qed.

End RegisterProperties.

Lemma register_then_login_witness :
  let w := demoWorld [alice] in
  let run := Registration.register toyHash None demoClock asciiLower bobDrawn
               (registerAs bobInput false) w in
  r_status run.1 = 201%Z
  /\ (Handler.login toyCompare None demoClock (loginWith bobInput false) run.2).1
     = json 200 (LoggedInBody "Logged in" (js "bob") (js "Bob Example")
                   (js "87654321")).
Proof.
  intros w run. split; [reflexivity |].
  apply (register_then_login toyHash toyCompare None demoClock asciiLower
           bobDrawn (registerAs bobInput false) bobInput w).
  - apply toy_verifiesOwnDigest.
  - reflexivity.
  - reflexivity.
Defined.

(** ** The security logger *)

Module LoggerFacts.

Lemma sliceFrom_last {A} (n : nat) (l : list A) :
(0 < n)%nat -> sliceFrom (- Z.of_nat n) l = drop (length l - n) l.
Proof.
intros Hn. unfold sliceFrom.
destruct (Z.ltb_spec (- Z.of_nat n) 0); [| lia].
f_equal. lia.
Qed.

Lemma sliceFrom_suffix {A} start (l : list A) : sliceFrom start l `suffix_of` l.
Proof. apply suffix_drop. Qed.

Lemma sliceFrom_length {A} (n : Z) (l : list A) :
(0 < n)%Z -> length (sliceFrom (- n) l) = Nat.min (Z.to_nat n) (length l).
Proof.
intros Hn. unfold sliceFrom. rewrite length_drop.
destruct (Z.ltb_spec (- n) 0); lia.
Qed.

Lemma filter_sublist {A} (p : A -> bool) l : sublist (List.filter p l) l.
Proof.
induction l as [|x l IH]; cbn; [constructor |].
destruct (p x); [now apply sublist_skip | now apply sublist_cons].
Qed.

Lemma filter_Forall {A} (p : A -> bool) l :
Forall (fun x => p x = true) (List.filter p l).
Proof.
apply Forall_forall. intros x Hx%list_elem_of_In.
now apply filter_In in Hx.
Qed.

End LoggerFacts.

(** X16.  The logger holds at most a thousand events, the newest last:
    after [log] the array is the tail end of the old array followed by the
    new event, and a full array loses exactly its oldest event. *)
Theorem log_keeps_last_thousand
    (event : SecurityEvent.t) (events : list SecurityEvent.t) :
  let events' := SecurityLogger.log event events in
  length events' = Nat.min 1000 (length events + 1)
  /\ events' `suffix_of` (events ++ [event])
  /\ last events' = Some event
  /\ (length events = 1000%nat -> events' = drop 1 events ++ [event]).
Proof.
  cbv zeta. unfold SecurityLogger.log, SecurityLogger.maxEvents.
  rewrite LoggerFacts.sliceFrom_last by lia.
  rewrite length_app. cbn [length].
  destruct (Nat.ltb_spec 1000 (length events + 1)) as [Hfull|Hroom].
  - split; [| split; [| split]].
    + rewrite length_drop, length_app. cbn [length]. lia.
    + apply suffix_drop.
    + rewrite drop_app_le by lia. apply last_snoc.
    + intros Hlen. rewrite drop_app_le by lia. do 2 f_equal. lia.
  - split; [| split; [| split]].
    + rewrite ?length_app. cbn [length]. lia.
    + reflexivity.
    + apply last_snoc.
    + intros Hlen. lia.
Qed.

Lemma log_keeps_last_thousand_witness :
  let full := repeat (demoEvent login_failure "203.0.113.7") 1000 in
  SecurityLogger.log (demoEvent login_success "203.0.113.7") full
  = drop 1 full ++ [demoEvent login_success "203.0.113.7"].
Proof.
  intros full.
  apply (log_keeps_last_thousand (demoEvent login_success "203.0.113.7") full).
  apply repeat_length.
Defined.

(** X17.  [getRecentEvents] with a positive limit returns the last [limit]
    events, all of them when there are fewer, and the last hundred when the
    limit is left out.  A limit of zero returns every event, not none, and a
    negative limit drops that many events from the front. *)
Theorem getRecentEvents_limits (events : list SecurityEvent.t) :
  (forall limit, (0 < limit)%Z ->
     SecurityLogger.getRecentEvents (Some limit) events
     = drop (length events - Z.to_nat limit) events
     /\ length (SecurityLogger.getRecentEvents (Some limit) events)
        = Nat.min (Z.to_nat limit) (length events))
  /\ SecurityLogger.getRecentEvents None events
     = drop (length events - 100) events
  /\ SecurityLogger.getRecentEvents (Some 0%Z) events = events
  /\ (forall limit, (limit < 0)%Z ->
        SecurityLogger.getRecentEvents (Some limit) events
        = drop (Z.to_nat (- limit)) events).
Proof.
  unfold SecurityLogger.getRecentEvents, default. cbn [from_option]. unfold id.
  split; [| split; [| split]].
  - intros limit Hpos. split.
    + unfold sliceFrom. destruct (Z.ltb_spec (- limit) 0); [| lia].
      f_equal. cbv zeta. lia.
    + now apply LoggerFacts.sliceFrom_length.
  - apply (LoggerFacts.sliceFrom_last 100). lia.
  - unfold sliceFrom. cbv zeta. destruct (Z.ltb_spec (- 0) 0); [lia |].
    replace (Z.to_nat (Z.min (- 0) (Z.of_nat (length events)))) with 0%nat by lia.
    reflexivity.
  - intros limit Hneg. unfold sliceFrom. cbv zeta.
    destruct (Z.ltb_spec (- limit) 0); [lia |].
    destruct (Z.le_gt_cases (- limit) (Z.of_nat (length events))) as [Hle|Hgt].
    + f_equal. lia.
    + rewrite !drop_ge by lia. reflexivity.
Qed.

Lemma getRecentEvents_limits_witness :
  SecurityLogger.getRecentEvents (Some 2%Z) demoEvents
  = drop (length demoEvents - Z.to_nat 2) demoEvents.
Proof.
  apply (getRecentEvents_limits demoEvents). lia.
Defined.

(** X18.  [getEventsByType] and [getEventsByIp] return events of the
    logger in their order, all of the requested type or address; with a
    positive limit they return the last [limit] matches (fifty when the
    limit is left out). *)
Theorem getEventsBy_filters
    (type : SecurityEventType) (ip : jsstring) (limit : option Z)
    (events : list SecurityEvent.t) :
  let n := default 50%Z limit in
  let byType := SecurityLogger.getEventsByType type limit events in
  let byIp := SecurityLogger.getEventsByIp ip limit events in
  (Forall (fun event => SecurityEvent.type event = type) byType
   /\ sublist byType events
   /\ ((0 < n)%Z ->
       byType = drop (length (List.filter
                                (fun event => bool_decide (SecurityEvent.type event = type))
                                events) - Z.to_nat n)
                  (List.filter
                     (fun event => bool_decide (SecurityEvent.type event = type))
                     events)
       /\ (length byType <= Z.to_nat n)%nat))
  /\ (Forall (fun event => SecurityEvent.ipAddress event = ip) byIp
      /\ sublist byIp events
      /\ ((0 < n)%Z ->
          byIp = drop (length (List.filter
                                 (fun event =>
                                    bool_decide (SecurityEvent.ipAddress event = ip))
                                 events) - Z.to_nat n)
                   (List.filter
                      (fun event => bool_decide (SecurityEvent.ipAddress event = ip))
                      events)
          /\ (length byIp <= Z.to_nat n)%nat)).
Proof.
  cbv zeta. unfold SecurityLogger.getEventsByType, SecurityLogger.getEventsByIp.
  set (n := default 50%Z limit).
  assert (Hgen : forall (p : SecurityEvent.t -> bool),
            Forall (fun x => p x = true) (sliceFrom (- n) (List.filter p events))
            /\ sublist (sliceFrom (- n) (List.filter p events)) events).
  { intros p. split.
    - unfold sliceFrom. apply Forall_drop, LoggerFacts.filter_Forall.
    - etransitivity; [| apply LoggerFacts.filter_sublist].
      unfold sliceFrom. apply sublist_drop. }
  split.
  - destruct (Hgen (fun event => bool_decide (SecurityEvent.type event = type)))
      as [Hall Hsub].
    split; [| split; [exact Hsub |]].
    + eapply Forall_impl; [exact Hall |]. cbn. intros x Hx.
      now apply bool_decide_eq_true in Hx.
    + intros Hn. split.
      * unfold sliceFrom. destruct (Z.ltb_spec (- n) 0); [| lia]. f_equal. lia.
      * rewrite LoggerFacts.sliceFrom_length by exact Hn. lia.
  - destruct (Hgen (fun event => bool_decide (SecurityEvent.ipAddress event = ip)))
      as [Hall Hsub].
    split; [| split; [exact Hsub |]].
    + eapply Forall_impl; [exact Hall |]. cbn. intros x Hx.
      now apply bool_decide_eq_true in Hx.
    + intros Hn. split.
      * unfold sliceFrom. destruct (Z.ltb_spec (- n) 0); [| lia]. f_equal. lia.
      * rewrite LoggerFacts.sliceFrom_length by exact Hn. lia.
Qed.

Lemma getEventsBy_filters_witness :
  (length (SecurityLogger.getEventsByType login_failure (Some 1%Z) demoEvents)
   <= Z.to_nat 1)%nat
  /\ SecurityLogger.getEventsByIp (js "203.0.113.7") (Some 1%Z) demoEvents
     = drop (length (List.filter
                       (fun event =>
                          bool_decide (SecurityEvent.ipAddress event
                                       = js "203.0.113.7"))
                       demoEvents) - Z.to_nat 1)
         (List.filter
            (fun event =>
               bool_decide (SecurityEvent.ipAddress event = js "203.0.113.7"))
            demoEvents).
Proof.
  destruct (getEventsBy_filters login_failure (js "203.0.113.7") (Some 1%Z)
              demoEvents) as [(_ & _ & Htype) (_ & _ & Hip)].
  split.
  - apply Htype. cbn. lia.
  - apply Hip. cbn. lia.
Defined.

(** ** The honeypot middleware *)

Section HoneypotMiddlewareProperties.

Variable sha256hex : jsstring -> jsstring.

(** X19.  The honeypot is looked at on POST, PUT and PATCH only: any other
  request is passed on with the log untouched, whatever its body.  On
  those three methods, for a body whose listed fields convert to strings,
  the middleware answers 200 [{success: true}] exactly when a listed
  field is filled, and then logs one [honeypot_triggered] event of high
  severity with the address of the client; otherwise it passes the request
  on and logs nothing. *)
Theorem honeypotMiddleware_decides
  (uuid : jsstring) (now : Z) (req : MiddlewareRequest)
  (events : list SecurityEvent.t) :
(isMutating (m_method req) = false ->
 honeypotMiddleware sha256hex uuid now req events
 = Returned (CallNext, events))
/\ (isMutating (m_method req) = true ->
    convertible (bodyOrEmpty (m_body req)) ->
    let triggered :=
      exists field, In field HONEYPOT_FIELDS
                    /\ filledBy (bodyOrEmpty (m_body req)) field in
    (triggered ->
     exists event,
       honeypotMiddleware sha256hex uuid now req events
       = Returned (Send 200 (JObject [(js "success", JBool true)]),
                   SecurityLogger.log event events)
       /\ SecurityEvent.type event = honeypot_triggered
       /\ SecurityEvent.severity event = high
       /\ SecurityEvent.ipAddress event
          = ip (generateRequestFingerprint sha256hex (m_http req))
       /\ SecurityEvent.requestId event = uuid
       /\ SecurityEvent.timestamp event = now)
    /\ (~ triggered ->
        honeypotMiddleware sha256hex uuid now req events
        = Returned (CallNext, events))).
Proof.
unfold honeypotMiddleware. split.
- intros ->. reflexivity.
- intros -> Hconv.
  destruct (anyFieldFilled_spec (bodyOrEmpty (m_body req)) HONEYPOT_FIELDS Hconv)
    as (b & Hb & Hiff).
  unfold checkHoneypotFields. rewrite Hb. split.
  + intros Ht. apply Hiff in Ht. subst b.
    eexists. split; [reflexivity |]. repeat split.
  + intros Hnot. destruct b; [| reflexivity].
    exfalso. apply Hnot, Hiff. reflexivity.
Qed.

End HoneypotMiddlewareProperties.

Lemma honeypotMiddleware_decides_witness :
  honeypotMiddleware demoHash (js "id") 0 (botRequest "GET") demoEvents
  = Returned (CallNext, demoEvents)
  /\ exists event,
       honeypotMiddleware demoHash (js "id") 0 (botRequest "POST") demoEvents
       = Returned (Send 200 (JObject [(js "success", JBool true)]),
                   SecurityLogger.log event demoEvents).
Proof.
  split.
  - apply (proj1 (honeypotMiddleware_decides demoHash (js "id") 0
                    (botRequest "GET") demoEvents)).
    reflexivity.
  - destruct (proj2 (honeypotMiddleware_decides demoHash (js "id") 0
                       (botRequest "POST") demoEvents) eq_refl
                (websiteBody_convertible (js "http://x.com"))) as [Htrig _].
    destruct Htrig as (event & Hrun & _).
    + exists (js "website"). split; [now left |].
      exists (JString (js "http://x.com")), (js "http://x.com").
      repeat split. discriminate.
    + exists event. exact Hrun.
Defined.

(** ** The windows of the rate limiter *)

Section RateLimitInvariant.

Variable sha256hex : jsstring -> jsstring.

Local Abbreviation enhancedRateLimit := (enhancedRateLimit sha256hex).
Local Abbreviation runRateLimit := (runRateLimit sha256hex).

Lemma enhancedRateLimit_keeps_range req now requests :
countsInRange requests ->
countsInRange (enhancedRateLimit req now requests).2
/\ dom requests ⊆ dom (enhancedRateLimit req now requests).2.
Proof.
intros Hrange. unfold enhancedRateLimit, countsInRange in *.
set (key := fingerprint (generateRequestFingerprint sha256hex req)).
assert (Hfresh : map_Forall (fun _ window => (1 <= count window <= maxRequests)%Z)
                   (<[key := {| count := 1; resetTime := now + windowMs |}]> requests)
                 /\ dom requests
                    ⊆ dom (<[key := {| count := 1; resetTime := now + windowMs |}]>
                             requests)).
{ split; [| rewrite dom_insert_L; apply union_subseteq_r].
  apply map_Forall_insert_2; [| exact Hrange]. cbn. unfold maxRequests. lia. }
destruct (requests !! key) as [current|] eqn:Hcur; [| exact Hfresh].
destruct (now >? resetTime current)%Z; [exact Hfresh |].
destruct (Z.geb_spec (count current) maxRequests) as [Hge|Hlt]; cbn [snd].
- split; [exact Hrange | reflexivity].
- split; [| rewrite dom_insert_L; apply union_subseteq_r].
  apply map_Forall_insert_2; [| exact Hrange]. cbn.
  pose proof (Hrange key current Hcur) as Hc. cbn in Hc. lia.
Qed.

(** X20.  The limiter never counts a window beyond the maximum and never
  drops a key: if every window holds between 1 and 100 requests, so does
  every window after any sequence of requests, and every key that had a
  window still has one. *)
Theorem rate_limit_counts_in_range
  (reqs : list (HttpRequest * Z)) (requests : gmap jsstring RateWindow) :
countsInRange requests ->
countsInRange (runRateLimit reqs requests).2
/\ dom requests ⊆ dom (runRateLimit reqs requests).2.
Proof.
revert requests. induction reqs as [|[req now] rest IH]; intros requests Hrange.
- split; [exact Hrange | reflexivity].
- simpl runRateLimit.
  destruct (enhancedRateLimit_keeps_range req now requests Hrange)
    as [Hstep Hdom].
  destruct (enhancedRateLimit req now requests) as [v requests'].
  cbn [snd] in Hstep, Hdom.
  destruct (IH requests' Hstep) as [Hrest Hdom'].
  destruct (runRateLimit rest requests') as [vs requests''].
  cbn [snd] in *. split; [exact Hrest | etransitivity; eassumption].
Qed.

End RateLimitInvariant.

Lemma rate_limit_counts_in_range_witness :
  countsInRange (runRateLimit demoHash demoBurst ∅).2.
Proof.
  apply (rate_limit_counts_in_range demoHash demoBurst ∅).
  apply map_Forall_empty.
Defined.

(** ** The transactions router *)

Section TransactionProperties.

Context {number : Type}.

Local Abbreviation Tx := (Transaction.t number).
Local Abbreviation Store := (list (Transaction.t number)).

Lemma follows_refl s : follows s s = true.
Proof. destruct s; reflexivity. Qed.

Lemma follows_trans a b c :
follows a b = true -> follows b c = true -> follows a c = true.
Proof. destruct a, b, c; cbn; congruence. Qed.

Lemma advanced_refl (t : Tx) : advanced t t.
Proof. split; [repeat split | apply follows_refl]. Qed.

Lemma advanced_trans (t1 t2 t3 : Tx) :
advanced t1 t2 -> advanced t2 t3 -> advanced t1 t3.
Proof.
intros [H1 F1] [H2 F2]. split; [| eapply follows_trans; eassumption].
unfold samePayment in *.
destruct H1 as (?&?&?&?&?&?&?&?), H2 as (?&?&?&?&?&?&?&?).
repeat split; congruence.
Qed.

Lemma advanced_id (t t' : Tx) : advanced t t' -> Transaction._id t' = Transaction._id t.
Proof. intros [H _]. apply H. Qed.

Lemma Forall2_advanced_refl (store : Store) : Forall2 advanced store store.
Proof. induction store; constructor; auto using advanced_refl. Qed.

Lemma findById_id id (store : Store) t :
Transaction.findById id store = Some t -> Transaction._id t = id.
Proof.
unfold Transaction.findById. intros H. apply find_some in H as [_ H].
apply N.eqb_eq, H.
Qed.

Lemma save_advanced (t t' : Tx) (store : Store) :
Transaction.findById (Transaction._id t') store = Some t ->
advanced t t' ->
Forall2 advanced store (Transaction.save t' store).
Proof.
unfold Transaction.findById. intros Hfind Hadv.
induction store as [|other rest IH]; [constructor |].
cbn in Hfind |- *. destruct (Transaction._id other =? _)%N.
- injection Hfind as ->. constructor; [exact Hadv | apply Forall2_advanced_refl].
- constructor; [apply advanced_refl | apply IH, Hfind].
Qed.

Lemma findById_save id (t t' : Tx) (store : Store) :
Transaction.findById id store = Some t ->
Transaction._id t' = Transaction._id t ->
Transaction.findById id (Transaction.save t' store) = Some t'.
Proof.
intros Hfind Hid. pose proof (findById_id _ _ _ Hfind) as Ht. subst id.
rewrite <- Hid in Hfind |- *. clear Hid. revert Hfind.
unfold Transaction.findById.
induction store as [|other rest IH]; [discriminate |].
cbn [find Transaction.save].
destruct (Transaction._id other =? Transaction._id t')%N eqn:E.
- intros _. cbn [find]. now rewrite N.eqb_refl.
- intros H. cbn [find]. rewrite E. apply IH, H.
Qed.

(** The first document of an id stays the first of that id when documents
  advance in place and others are appended. *)
Lemma findById_advanced id (store updated created : Store) t :
Forall2 advanced store updated ->
Transaction.findById id store = Some t ->
exists t', Transaction.findById id (updated ++ created) = Some t'
           /\ advanced t t'.
Proof.
unfold Transaction.findById. induction 1 as [|x y xs ys Hxy Hrest IH];
  [discriminate |].
cbn. rewrite (advanced_id _ _ Hxy). destruct (Transaction._id x =? id)%N.
- intros [= ->]. eauto.
- exact IH.
Qed.

Lemma evolves_refl (store : Store) : evolves store store.
Proof.
exists store, []. rewrite app_nil_r.
split; [reflexivity | split; [apply Forall2_advanced_refl | constructor]].
Qed.

Lemma evolves_trans (s1 s2 s3 : Store) :
evolves s1 s2 -> evolves s2 s3 -> evolves s1 s3.
Proof.
intros (u1 & c1 & -> & Hu1 & Hc1) (u2 & c2 & -> & Hu2 & Hc2).
apply Forall2_app_inv_l in Hu2 as (u2a & u2b & Hua & Hub & ->).
exists u2a, (u2b ++ c2). rewrite <- app_assoc. split; [reflexivity |]. split.
- clear - Hu1 Hua. revert u2a Hua.
  induction Hu1 as [|x y xs ys Hxy _ IH]; intros u2a Hua.
  + inversion Hua. constructor.
  + inversion Hua as [|y' z ys' zs Hyz Hrest]; subst.
    constructor; [eapply advanced_trans; eassumption | apply IH, Hrest].
- apply Forall_app. split; [| exact Hc2].
  clear - Hc1 Hub. induction Hub as [|x y xs ys [_ Hxy] _ IH]; [constructor |].
  inversion Hc1; subst. constructor; [| apply IH; assumption].
  eapply follows_trans; eassumption.
Qed.

Lemma evolves_updated (store updated : Store) :
Forall2 advanced store updated -> evolves store updated.
Proof.
intros H. exists updated, []. rewrite app_nil_r.
split; [reflexivity | split; [exact H | constructor]].
Qed.

Lemma updateMany_advanced ids now stamp (t : Tx) :
advanced t
  (if Transactions.verifiedAmong ids t
   then Transaction.withSubmission now stamp t else t).
Proof.
unfold Transactions.verifiedAmong.
destruct (existsb _ ids); cbn [andb]; [| apply advanced_refl].
destruct (bool_decide_reflect (Transaction.status t = verified)) as [E|_];
  [| apply advanced_refl].
split; [repeat split |]. cbn. now rewrite E.
Qed.

Lemma handle_evolves (req : Transactions.Request number) (store : Store) :
evolves store (Transactions.handle req store).2.
Proof.
unfold Transactions.handle.
destruct (Transactions.call req) as [newId parsed|parsed|parsed|parsed].
- unfold Transactions.create.
  destruct (uid _); [| apply evolves_refl].
  destruct parsed; [| apply evolves_refl].
  cbn [snd]. eexists store, [_].
  split; [reflexivity | split; [apply Forall2_advanced_refl |]].
  repeat constructor.
- unfold Transactions.verify.
  destruct (uid _); [| apply evolves_refl].
  destruct (negb _); [apply evolves_refl |].
  destruct parsed as [id|]; [| apply evolves_refl].
  destruct (Transaction.findById id store) as [t|] eqn:Hfind;
    [| apply evolves_refl].
  destruct (bool_decide_reflect (Transaction.status t = pending)) as [E|_];
    [| apply evolves_refl].
  cbn [negb snd]. apply evolves_updated.
  apply (save_advanced t); cbn.
  + now rewrite (findById_id _ _ _ Hfind).
  + split; [repeat split |]. cbn. now rewrite E.
- unfold Transactions.decline.
  destruct (uid _); [| apply evolves_refl].
  destruct (negb _); [apply evolves_refl |].
  destruct parsed as [[id reason]|]; [| apply evolves_refl].
  destruct (Transaction.findById id store) as [t|] eqn:Hfind;
    [| apply evolves_refl].
  destruct (bool_decide_reflect (Transaction.status t = pending)) as [E|_];
    [| apply evolves_refl].
  cbn [negb snd]. apply evolves_updated.
  apply (save_advanced t); cbn.
  + now rewrite (findById_id _ _ _ Hfind).
  + split; [repeat split |]. cbn. now rewrite E.
- unfold Transactions.submitToSwift.
  destruct (uid _); [| apply evolves_refl].
  destruct (negb _); [apply evolves_refl |].
  destruct parsed as [ids|]; [| apply evolves_refl].
  unfold Transaction.updateMany.
  assert (Hmap : forall (store : Store) g,
             (forall t, advanced t (g t)) -> evolves store (map g store)).
  { intros st g Hg. apply evolves_updated.
    induction st; constructor; auto. }
  destruct (_ =? 0)%nat; cbn [snd]; apply Hmap; intros t;
    apply updateMany_advanced.
Qed.

(** *** Requests that overlap *)

Lemma follows_to_pending s : follows s pending = true -> s = pending.
Proof. destruct s; cbn; congruence. Qed.

Lemma advanced_set (r t : Tx) (set : Tx -> Tx) (s : Status) :
advanced r t ->
samePayment t (set t) ->
Transaction.status (set t) = s ->
follows (Transaction.status r) s = true ->
advanced r (set t).
Proof.
intros [Hsame _] Hset Hs Hfollows. split; [| now rewrite Hs].
unfold samePayment in *.
destruct Hsame as (?&?&?&?&?&?&?&?), Hset as (?&?&?&?&?&?&?&?).
repeat split; congruence.
Qed.

(** A [save()] that lands on documents that entered the collection
  pending leaves every document a later state of what it was. *)
Lemma updateOne_advanced id (set : Tx -> Tx) (s : Status)
  (origin store : Store) :
(forall t, samePayment t (set t) /\ Transaction.status (set t) = s) ->
follows pending s = true ->
Forall2 advanced origin store ->
(forall r, Transaction.findById id origin = Some r ->
           Transaction.status r = pending) ->
Forall2 advanced origin (Transaction.updateOne id set store).
Proof.
intros Hset Hs Hadv. unfold Transaction.findById.
induction Hadv as [|x y xs ys Hxy Hrest IH]; intros Htarget; [constructor |].
cbn [Transaction.updateOne find] in *.
rewrite (advanced_id _ _ Hxy). destruct (Transaction._id x =? id)%N.
- constructor; [| exact Hrest].
  destruct (Hset y) as [Hsame Hstatus].
  apply (advanced_set x y set s Hxy Hsame Hstatus).
  now rewrite (Htarget x eq_refl).
- constructor; [exact Hxy | apply IH, Htarget].
Qed.

Lemma verifiedAmong_status ids (t : Tx) :
Transactions.verifiedAmong ids t = true -> Transaction.status t = verified.
Proof.
unfold Transactions.verifiedAmong. intros [_ H]%andb_true_iff.
now apply bool_decide_eq_true in H.
Qed.

Lemma submission_advanced ids now stamp (r t : Tx) :
advanced r t ->
advanced r (if Transactions.verifiedAmong ids t
            then Transaction.withSubmission now stamp t else t).
Proof.
intros Hrt. destruct (Transactions.verifiedAmong ids t) eqn:E; [| exact Hrt].
apply verifiedAmong_status in E.
apply (advanced_set r t _ submitted Hrt); [repeat split | reflexivity |].
destruct Hrt as [_ Hf]. rewrite E in Hf.
destruct (Transaction.status r); cbn in Hf |- *; congruence.
Qed.

(** A document read as pending entered the collection pending. *)
Lemma read_pending id (origin store : Store) t :
Forall2 advanced origin store ->
Transaction.findById id store = Some t ->
Transaction.status t = pending ->
forall r, Transaction.findById (Transaction._id t) origin = Some r ->
          Transaction.status r = pending.
Proof.
intros Hadv Hfind Hpending r Hr.
rewrite (findById_id _ _ _ Hfind) in Hr.
destruct (findById_advanced id origin store [] r Hadv Hr) as (t' & Hfind' & [_ Hf]).
rewrite app_nil_r, Hfind in Hfind'. injection Hfind' as <-.
rewrite Hpending in Hf. now apply follows_to_pending.
Qed.

Lemma tracks_launch (origin : Store) write (st : Interleaved.State number) :
tracks origin st ->
(forall w, write = Some w ->
           forall id t, targetOf w = Some id ->
                        Transaction.findById id origin = Some t ->
                        Transaction.status t = pending) ->
tracks origin (Interleaved.launch write st).
Proof.
intros [Hadv Hfl] Hw. destruct write as [w|]; [| split; assumption].
split; [exact Hadv |]. cbn. apply Forall_app. split; [exact Hfl |].
constructor; [| constructor]. now apply Hw.
Qed.

Lemma findById_app id (l l' : Store) :
Transaction.findById id (l ++ l')
= match Transaction.findById id l with
  | Some t => Some t
  | None => Transaction.findById id l'
  end.
Proof.
unfold Transaction.findById. induction l as [|x l IH]; cbn; [reflexivity |].
destruct (Transaction._id x =? id)%N; [reflexivity | exact IH].
Qed.

(** One move keeps track: the documents advance in place, a new document
  enters pending at the end. *)
Lemma move_tracks (m : Interleaved.Move number) (origin : Store)
  (st : Interleaved.State number) :
tracks origin st ->
exists entered,
  Forall (fun t => Transaction.status t = pending) entered
  /\ tracks (origin ++ entered) (Interleaved.move m st).
Proof.
intros Htracks. pose proof Htracks as [Hadv Hfl].
assert (Hsame : forall st', tracks origin st' ->
          exists entered,
            Forall (fun t : Tx => Transaction.status t = pending) entered
            /\ tracks (origin ++ entered) st').
{ intros st' H. exists []. rewrite app_nil_r. split; [constructor | exact H]. }
destruct m as [req|i]; cbn [Interleaved.move].
- unfold Interleaved.arrive.
  destruct (Transactions.call req) as [newId parsed|parsed|parsed|parsed].
  + unfold Transactions.create.
    destruct (uid _) as [u|]; [| apply Hsame; split; assumption].
    destruct parsed as [data|]; [| apply Hsame; split; assumption].
    cbn [snd]. eexists [_]. split.
    2: { split.
         - cbn [Interleaved.store]. apply Forall2_app; [exact Hadv |].
           constructor; [apply advanced_refl | constructor].
         - cbn [Interleaved.inflight]. eapply Forall_impl; [exact Hfl |].
           cbn beta. intros w Hw id t Hid Hfind. rewrite findById_app in Hfind.
           destruct (Transaction.findById id origin) as [r|] eqn:Hr.
           + injection Hfind as <-. now apply (Hw id).
           + unfold Transaction.findById in Hfind. cbn in Hfind.
             destruct (_ =? _)%N; [| discriminate]. now injection Hfind as <-. }
    repeat constructor.
  + apply Hsame, tracks_launch; [exact Htracks |].
    unfold Interleaved.beginVerify. intros w Hw id t Hid Hfind.
    destruct (uid _); [| discriminate]. destruct (negb _); [discriminate |].
    destruct parsed as [tid|]; [| discriminate].
    destruct (Transaction.findById tid (Interleaved.store st)) as [read|] eqn:Hread;
      [| discriminate].
    destruct (bool_decide_reflect (Transaction.status read = pending)) as [Hp|];
      [| discriminate].
    cbn [negb] in Hw. injection Hw as <-. cbn in Hid. injection Hid as <-.
    exact (read_pending tid origin _ read Hadv Hread Hp t Hfind).
  + apply Hsame, tracks_launch; [exact Htracks |].
    unfold Interleaved.beginDecline. intros w Hw id t Hid Hfind.
    destruct (uid _); [| discriminate]. destruct (negb _); [discriminate |].
    destruct parsed as [[tid reason]|]; [| discriminate].
    destruct (Transaction.findById tid (Interleaved.store st)) as [read|] eqn:Hread;
      [| discriminate].
    destruct (bool_decide_reflect (Transaction.status read = pending)) as [Hp|];
      [| discriminate].
    cbn [negb] in Hw. injection Hw as <-. cbn in Hid. injection Hid as <-.
    exact (read_pending tid origin _ read Hadv Hread Hp t Hfind).
  + apply Hsame, tracks_launch; [exact Htracks |].
    unfold Interleaved.beginSubmit. intros w Hw id t Hid Hfind.
    destruct (uid _); [| discriminate]. destruct (negb _); [discriminate |].
    destruct parsed as [ids|]; [| discriminate].
    injection Hw as <-. discriminate.
- apply Hsame. unfold Interleaved.land.
  destruct (Interleaved.inflight st !! i) as [w|] eqn:Hw; [| exact Htracks].
  pose proof (proj1 (Forall_lookup _ _) Hfl i w Hw) as Htarget.
  destruct w as [id u now stamp|id u now reason stamp|ids now stamp next].
  + split; [| apply Forall_delete, Hfl]. cbn [Interleaved.store].
    apply (updateOne_advanced id _ verified origin _); auto.
    * intros t. split; [repeat split | reflexivity].
    * intros r Hr. now apply (Htarget id).
  + split; [| apply Forall_delete, Hfl]. cbn [Interleaved.store].
    apply (updateOne_advanced id _ failed origin _); auto.
    * intros t. split; [repeat split | reflexivity].
    * intros r Hr. now apply (Htarget id).
  + destruct (next <? _)%nat.
    * split; cbn [Interleaved.store Interleaved.inflight].
      -- apply Forall2_alter_r; [exact Hadv |].
         intros x y _ _ Hxy. now apply submission_advanced.
      -- apply Forall_insert; [exact Hfl |]. intros id t Hid. discriminate.
    * split; [exact Hadv | apply Forall_delete, Hfl].
Qed.

Lemma play_tracks (moves : list (Interleaved.Move number)) :
forall (origin : Store) (st : Interleaved.State number),
tracks origin st ->
exists entered,
  Forall (fun t => Transaction.status t = pending) entered
  /\ tracks (origin ++ entered) (Interleaved.play moves st).
Proof.
induction moves as [|m rest IH]; intros origin st Htracks.
- exists []. rewrite app_nil_r. split; [constructor | exact Htracks].
- destruct (move_tracks m origin st Htracks) as (e1 & He1 & H1).
  destruct (IH _ _ H1) as (e2 & He2 & H2).
  exists (e1 ++ e2). rewrite app_assoc.
  split; [apply Forall_app; split; assumption | exact H2].
Qed.

(** Served alone, a request leaves the collection its handler gives. *)

Lemma save_updateOne id (set : Tx -> Tx) (t : Tx) (store : Store) :
Transaction.findById id store = Some t ->
Transaction._id (set t) = Transaction._id t ->
Transaction.save (set t) store
= Transaction.updateOne (Transaction._id t) set store.
Proof.
intros Hfind Hid. pose proof (findById_id _ _ _ Hfind) as Ht. subst id.
revert Hfind. unfold Transaction.findById.
induction store as [|other rest IH]; [discriminate |].
cbn [find Transaction.save Transaction.updateOne]. rewrite Hid.
destruct (Transaction._id other =? Transaction._id t)%N.
- now intros [= ->].
- intros H. now rewrite IH.
Qed.

Lemma play_lands_quiet n (store : Store) :
Interleaved.play (repeat (Interleaved.Lands 0) n)
  {| Interleaved.store := store; Interleaved.inflight := [] |}
= Interleaved.quiet store.
Proof. induction n as [|n IH]; [reflexivity | exact IH]. Qed.

Lemma play_cons (m : Interleaved.Move number) ms st :
Interleaved.play (m :: ms) st = Interleaved.play ms (Interleaved.move m st).
Proof. reflexivity. Qed.

Lemma land_save (write : Interleaved.InFlight) (store : Store) :
targetOf write <> None ->
Interleaved.land 0
  {| Interleaved.store := store; Interleaved.inflight := [write] |}
= {| Interleaved.store :=
       (Interleaved.land 0
          {| Interleaved.store := store; Interleaved.inflight := [write] |})
       .(Interleaved.store);
     Interleaved.inflight := [] |}.
Proof. destruct write; [reflexivity | reflexivity | intros H; now destruct H]. Qed.

Lemma alter_scan (g : Tx -> Tx) (store : Store) : forall k,
(k < length store)%nat ->
alter g k (map g (take k store) ++ drop k store)
= map g (take (S k) store) ++ drop (S k) store.
Proof.
induction store as [|t rest IH]; intros k Hk; [cbn in Hk; lia |].
destruct k as [|k]; [reflexivity |].
cbn [take drop map app]. cbn [length] in Hk.
change (alter g (S k) (g t :: ?l)) with (g t :: alter g k l).
f_equal. apply IH. lia.
Qed.

Lemma play_scan ids now stamp (store : Store) : forall n k,
(k + n = length store)%nat ->
Interleaved.play (repeat (Interleaved.Lands 0) (S n))
  {| Interleaved.store :=
       map (fun t => if Transactions.verifiedAmong ids t
                     then Transaction.withSubmission now stamp t else t)
         (take k store) ++ drop k store;
     Interleaved.inflight := [Interleaved.Submitting ids now stamp k] |}
= Interleaved.quiet
    (map (fun t => if Transactions.verifiedAmong ids t
                   then Transaction.withSubmission now stamp t else t) store).
Proof.
set (g := fun t : Tx => if Transactions.verifiedAmong ids t
                        then Transaction.withSubmission now stamp t else t).
assert (Hlen : forall k, length (map g (take k store) ++ drop k store)
                         = length store).
{ intros k. rewrite length_app, length_map, length_take, length_drop. lia. }
induction n as [|n IH]; intros k Hk.
- cbn [repeat Interleaved.play fold_left Interleaved.move].
  unfold Interleaved.land. cbn [Interleaved.inflight Interleaved.store lookup].
  cbn [list_lookup]. rewrite Hlen.
  destruct (Nat.ltb_spec k (length store)); [lia |].
  cbn. unfold Interleaved.quiet. f_equal.
  rewrite take_ge, drop_ge by lia. now rewrite app_nil_r.
- change (repeat (Interleaved.Lands 0) (S (S n)))
    with (@Interleaved.Lands number 0 :: repeat (Interleaved.Lands 0) (S n)).
  cbn [Interleaved.play fold_left Interleaved.move].
  unfold Interleaved.land at 1.
  cbn [Interleaved.inflight Interleaved.store lookup]. cbn [list_lookup].
  rewrite Hlen. destruct (Nat.ltb_spec k (length store)); [| lia].
  cbn [insert list_insert]. fold g. rewrite alter_scan by assumption.
  apply (IH (S k)). lia.
Qed.

Lemma served_alone (req : Transactions.Request number) (store : Store) :
Interleaved.store
  (Interleaved.play
     (Interleaved.Arrives req
      :: repeat (Interleaved.Lands 0) (S (length store)))
     (Interleaved.quiet store))
= (Transactions.handle req store).2.
Proof.
rewrite play_cons. cbn [Interleaved.move].
unfold Interleaved.arrive, Transactions.handle, Interleaved.quiet.
cbn [Interleaved.store Interleaved.inflight].
destruct (Transactions.call req) as [newId parsed|parsed|parsed|parsed].
- now rewrite play_lands_quiet.
- unfold Interleaved.beginVerify, Transactions.verify.
  destruct (uid _) as [u|]; [| cbn [Interleaved.launch]; now rewrite play_lands_quiet].
  destruct (negb _); [cbn [Interleaved.launch]; now rewrite play_lands_quiet |].
  destruct parsed as [id|]; [| cbn [Interleaved.launch]; now rewrite play_lands_quiet].
  destruct (Transaction.findById id store) as [t|] eqn:Hfind;
    [| cbn [Interleaved.launch]; now rewrite play_lands_quiet].
  destruct (negb _); [cbn [Interleaved.launch]; now rewrite play_lands_quiet |].
  cbn [Interleaved.launch Interleaved.inflight Interleaved.store app snd repeat].
  rewrite play_cons. cbn [Interleaved.move].
  rewrite land_save by discriminate. rewrite play_lands_quiet.
  cbn [Interleaved.quiet Interleaved.store]. unfold Interleaved.land. cbn.
  symmetry. now apply (save_updateOne id).
- unfold Interleaved.beginDecline, Transactions.decline.
  destruct (uid _) as [u|]; [| cbn [Interleaved.launch]; now rewrite play_lands_quiet].
  destruct (negb _); [cbn [Interleaved.launch]; now rewrite play_lands_quiet |].
  destruct parsed as [[id reason]|];
    [| cbn [Interleaved.launch]; now rewrite play_lands_quiet].
  destruct (Transaction.findById id store) as [t|] eqn:Hfind;
    [| cbn [Interleaved.launch]; now rewrite play_lands_quiet].
  destruct (negb _); [cbn [Interleaved.launch]; now rewrite play_lands_quiet |].
  cbn [Interleaved.launch Interleaved.inflight Interleaved.store app snd repeat].
  rewrite play_cons. cbn [Interleaved.move].
  rewrite land_save by discriminate. rewrite play_lands_quiet.
  cbn [Interleaved.quiet Interleaved.store]. unfold Interleaved.land. cbn.
  symmetry. now apply (save_updateOne id).
- unfold Interleaved.beginSubmit, Transactions.submitToSwift.
  destruct (uid _) as [u|]; [| cbn [Interleaved.launch]; now rewrite play_lands_quiet].
  destruct (negb _); [cbn [Interleaved.launch]; now rewrite play_lands_quiet |].
  destruct parsed as [ids|]; [| cbn [Interleaved.launch]; now rewrite play_lands_quiet].
  cbn [Interleaved.launch Interleaved.inflight Interleaved.store app].
  pose proof (play_scan ids (Transactions.at_ req) (Transactions.stamped req)
                store (length store) 0 eq_refl) as Hscan.
  rewrite take_0, drop_0 in Hscan. cbn [map app] in Hscan. rewrite Hscan.
  unfold Transaction.updateMany. destruct (_ =? 0)%nat; reflexivity.
Qed.

(** X21.  However the requests overlap, a payment keeps its place in the
  collection, its id, customer, amount, currency, provider, payee and
  creation time.  Starting with no write in flight, a payment that was
  verified ends verified or submitted, a payment that was submitted,
  completed or failed keeps that status, a payment that was pending is
  never completed, and the payments made meanwhile are appended, none of
  them completed.  (In between, a decline that read a payment as pending
  can land after a verification of it.)  A request that is served alone,
  its writes landing before anything else arrives, leaves the collection
  its handler gives. *)
Theorem status_only_advances
  (moves : list (Interleaved.Move number)) (store : Store) :
(exists updated created,
   Interleaved.store (Interleaved.play moves (Interleaved.quiet store))
   = updated ++ created
   /\ Forall2 (fun t t' =>
                 samePayment t t'
                 /\ follows (Transaction.status t) (Transaction.status t') = true)
              store updated
   /\ Forall (fun t => follows pending (Transaction.status t) = true) created)
/\ (forall req,
      Interleaved.store
        (Interleaved.play
           (Interleaved.Arrives req
            :: repeat (Interleaved.Lands 0) (S (length store)))
           (Interleaved.quiet store))
      = (Transactions.handle req store).2).
Proof.
split; [| intros req; apply served_alone].
destruct (play_tracks moves store (Interleaved.quiet store))
  as (entered & Hentered & Hadv & _).
{ split; [apply Forall2_advanced_refl | constructor]. }
apply Forall2_app_inv_l in Hadv as (updated & created & Hupd & Hcre & Heq).
exists updated, created. split; [exact Heq | split; [exact Hupd |]].
clear - Hentered Hcre.
induction Hcre as [|x y xs ys [_ Hxy] _ IH]; [constructor |].
inversion Hentered as [|? ? Hx Hxs]; subst.
constructor; [now rewrite <- Hx | apply IH, Hxs].
Qed.

Lemma serveAll_findById id (reqs : list (Transactions.Request number))
  (store : Store) t :
Transaction.findById id store = Some t ->
exists t', Transaction.findById id (Transactions.serveAll reqs store).2 = Some t'
           /\ advanced t t'.
Proof.
revert store t. induction reqs as [|req rest IH]; intros store t Hfind.
- exists t. split; [exact Hfind | apply advanced_refl].
- cbn [Transactions.serveAll].
  destruct (handle_evolves req store) as (updated & created & Heq & Hadv & _).
  destruct (Transactions.handle req store) as [response store'].
  cbn [snd] in Heq. subst store'.
  destruct (findById_advanced id _ _ created t Hadv Hfind) as (t1 & Hfind1 & Hadv1).
  destruct (IH _ _ Hfind1) as (t2 & Hfind2 & Hadv2).
  destruct (Transactions.serveAll rest (updated ++ created)) as [responses store''].
  cbn [snd] in *. exists t2. split; [exact Hfind2 |].
  eapply advanced_trans; eassumption.
Qed.

(** X22.  Once an employee has verified a payment, no later request to
  decline it or to verify it again succeeds, whoever sends it and
  whatever was served in between: such a request never answers 200 and
  leaves the collection as it is. *)
Theorem verified_is_never_declined
  (v : Transactions.Request number) (id : N) (store : Store)
  (between : list (Transactions.Request number))
  (later : Transactions.Request number) :
Transactions.call v = Transactions.PostVerify (Some id) ->
(Transactions.handle v store).1.1 = 200%Z ->
(exists reason, Transactions.call later = Transactions.PostDecline (Some (id, reason)))
\/ Transactions.call later = Transactions.PostVerify (Some id) ->
let store' := (Transactions.serveAll between (Transactions.handle v store).2).2 in
(Transactions.handle later store').1.1 <> 200%Z
/\ (Transactions.handle later store').2 = store'.
Proof.
intros Hv Hok Hlater.
assert (Hverified : exists t, Transaction.findById id (Transactions.handle v store).2
                              = Some t
                              /\ Transaction.status t = verified).
{ revert Hok. unfold Transactions.handle. rewrite Hv. unfold Transactions.verify.
  destruct (uid _); [| discriminate].
  destruct (negb _); [discriminate |].
  destruct (Transaction.findById id store) as [t|] eqn:Hfind; [| discriminate].
  destruct (negb _); [discriminate |]. intros _. cbn [snd].
  eexists. split; [apply (findById_save id t); [exact Hfind | reflexivity]
                  | reflexivity]. }
destruct Hverified as (t1 & Hfind1 & Hstatus1).
destruct (serveAll_findById id between _ t1 Hfind1) as (t2 & Hfind2 & [_ Hfollows]).
rewrite Hstatus1 in Hfollows.
intros store'. fold store' in Hfind2.
assert (Hnot : bool_decide (Transaction.status t2 = pending) = false).
{ apply bool_decide_eq_false. intros E. rewrite E in Hfollows. discriminate. }
unfold Transactions.handle.
destruct Hlater as [[reason ->] | ->].
- unfold Transactions.decline.
  destruct (uid _); [| split; [discriminate | reflexivity]].
  destruct (negb _); [split; [discriminate | reflexivity] |].
  rewrite Hfind2, Hnot. split; [discriminate | reflexivity].
- unfold Transactions.verify.
  destruct (uid _); [| split; [discriminate | reflexivity]].
  destruct (negb _); [split; [discriminate | reflexivity] |].
  rewrite Hfind2, Hnot. split; [discriminate | reflexivity].
Qed.

(** X23.  Requests from sessions without the employee role never touch a
  payment that exists: after any number of them the collection is the
  old one followed by the payments they made, each pending and owned by
  the session that made it; and each of their review requests is answered
  401 or 403. *)
Theorem customers_only_append
  (reqs : list (Transactions.Request number)) (store : Store) :
Forall (fun req => isEmployee (Transactions.sender req) = false) reqs ->
(exists created,
   (Transactions.serveAll reqs store).2 = store ++ created
   /\ Forall (fun t =>
                Transaction.status t = pending
                /\ exists req, In req reqs
                               /\ uid (Transactions.sender req) = Some (Transaction.customerId t))
             created)
/\ Forall2 (fun req response =>
              isReview (Transactions.call req) = true ->
              response.1 = 401%Z \/ response.1 = 403%Z)
           reqs (Transactions.serveAll reqs store).1.
Proof.
intros Hreqs. revert store.
induction Hreqs as [|req rest Hreq _ IH]; intros store.
- split; [exists []; rewrite app_nil_r; split; [reflexivity | constructor]
         | constructor].
- cbn [Transactions.serveAll].
  assert (Hstep : (exists created,
                     (Transactions.handle req store).2 = store ++ created
                     /\ Forall (fun t =>
                                  Transaction.status t = pending
                                  /\ uid (Transactions.sender req)
                                     = Some (Transaction.customerId t))
                               created)
                  /\ (isReview (Transactions.call req) = true ->
                      (Transactions.handle req store).1.1 = 401%Z
                      \/ (Transactions.handle req store).1.1 = 403%Z)).
  { unfold isEmployee in Hreq. unfold Transactions.handle.
    assert (Hsame : exists created : Store,
               store = store ++ created
               /\ Forall (fun t =>
                            Transaction.status t = pending
                            /\ uid (Transactions.sender req)
                               = Some (Transaction.customerId t))
                         created).
    { exists []. rewrite app_nil_r. split; [reflexivity | constructor]. }
    destruct (Transactions.call req) as [newId parsed|parsed|parsed|parsed];
      unfold Transactions.create, Transactions.verify, Transactions.decline,
        Transactions.submitToSwift;
      destruct (uid (Transactions.sender req)) as [u|] eqn:Hu;
      rewrite ?Hreq; cbn [negb fst snd Transactions.json isReview];
      try (split; [exact Hsame | auto]; fail).
    split; [| discriminate].
    destruct parsed; [| exact Hsame]. cbn [snd].
    eexists [_]. split; [reflexivity |]. repeat constructor. }
  destruct Hstep as [(created1 & Heq1 & Hcreated1) Hanswer].
  destruct (Transactions.handle req store) as [response store'].
  cbn [fst snd] in *. subst store'.
  destruct (IH (store ++ created1)) as [(created2 & Heq2 & Hcreated2) Hanswers].
  destruct (Transactions.serveAll rest (store ++ created1))
    as [responses store''].
  cbn [fst snd] in *. subst store''. split.
  + exists (created1 ++ created2). rewrite app_assoc.
    split; [reflexivity |]. apply Forall_app. split.
    * eapply Forall_impl; [exact Hcreated1 |].
      intros t [Hp Hu]. split; [exact Hp |]. exists req. split; [now left | exact Hu].
    * eapply Forall_impl; [exact Hcreated2 |].
      intros t (Hp & r & Hin & Hu). split; [exact Hp |].
      exists r. split; [now right | exact Hu].
  + constructor; [exact Hanswer | exact Hanswers].
Qed.

(** X24.  An employee's submission marks as submitted exactly the verified
  payments among the given ids and leaves every other payment as it is;
  it answers 200 with their number, or 400 when there is none.  No
  payment of a given id is left verified, so the same submission sent
  again answers 400 and changes nothing. *)
Theorem submitToSwift_submits_verified
  (s : Session) (now stamp now' stamp' : Z) (ids : list N) (store : Store) :
isEmployee s = true ->
uid s <> None ->
let n := length (List.filter (Transactions.verifiedAmong ids) store) in
let response := (Transactions.submitToSwift s now stamp (Some ids) store).1 in
let store' := (Transactions.submitToSwift s now stamp (Some ids) store).2 in
response = (if (n =? 0)%nat then nothingToSubmit
            else Transactions.json 200 (Transactions.Submitted n))
/\ Forall2 (fun t t' =>
              if Transactions.verifiedAmong ids t
              then samePayment t t'
                   /\ Transaction.status t' = submitted
                   /\ Transaction.submittedAt t' = Some now
              else t' = t)
           store store'
/\ Forall (fun t' => Transactions.verifiedAmong ids t' = false) store'
/\ Transactions.submitToSwift s now' stamp' (Some ids) store'
   = (nothingToSubmit, store').
Proof.
intros Hrole Huid n response store'. unfold isEmployee in Hrole.
set (step := fun (moment stamp : Z) (transaction : Tx) =>
               if Transactions.verifiedAmong ids transaction
               then Transaction.withSubmission moment stamp transaction
               else transaction).
assert (Hdone : forall t, Transactions.verifiedAmong ids (step now stamp t) = false).
{ intros t. unfold step.
  destruct (Transactions.verifiedAmong ids t) eqn:E; [| exact E].
  unfold Transactions.verifiedAmong. cbn. apply andb_false_r. }
assert (Hrun : forall moment stamp (store : Store),
           Transactions.submitToSwift s moment stamp (Some ids) store
           = (if (length (List.filter (Transactions.verifiedAmong ids) store) =? 0)%nat
              then nothingToSubmit
              else Transactions.json 200
                     (Transactions.Submitted
                        (length (List.filter (Transactions.verifiedAmong ids) store))),
              map (step moment stamp) store)).
{ intros moment stamp0 store0. unfold Transactions.submitToSwift.
  destruct (uid s) as [u|]; [| contradiction].
  rewrite Hrole. cbn [negb]. unfold Transaction.updateMany.
  destruct (_ =? 0)%nat; reflexivity. }
subst response store'. rewrite !Hrun. cbn [fst snd]. fold n.
split; [reflexivity |]. split; [| split].
- clear. induction store as [|t rest IH]; constructor; [| exact IH].
  unfold step. destruct (Transactions.verifiedAmong ids t); [| reflexivity].
  repeat split.
- apply Forall_fmap, Forall_true. exact Hdone.
- assert (Hnone : List.filter (Transactions.verifiedAmong ids)
                    (map (step now stamp) store) = []).
  { clear - Hdone. induction store as [|t rest IH]; [reflexivity |].
    cbn. rewrite Hdone. exact IH. }
  rewrite Hnone. cbn [length Nat.eqb]. f_equal.
  clear - Hdone. induction store as [|t rest IH]; [reflexivity |].
  cbn [map]. rewrite IH. f_equal. unfold step at 1. now rewrite Hdone.
Qed.

End TransactionProperties.

(** The overlap that the sequential handlers cannot show: both the
    verification and the decline of payment 7 land, and the payment ends
    failed with a verifier on record. *)
Lemma overlapping_verify_and_decline :
  map (fun t => (Transaction.status t, Transaction.verifiedBy t,
                 Transaction.declinedBy t))
      (Interleaved.store (Interleaved.play demoRace (Interleaved.quiet [])))
  = [(failed, Some 9%N, Some 9%N)].
Proof. reflexivity. Qed.

Lemma verified_is_never_declined_witness :
  (Transactions.handle
     (request (customer 2) (Transactions.PostDecline (Some (7%N, js "changed my mind"))))
     (Transactions.serveAll
        [request (customer 1) (Transactions.PostCreate 8 (Some demoPayment))]
        (Transactions.handle
           (request (employee 9) (Transactions.PostVerify (Some 7%N)))
           (Transactions.serveAll
              [request (customer 1) (Transactions.PostCreate 7 (Some demoPayment))]
              []).2).2).2).1.1
  <> 200%Z.
Proof.
  apply (verified_is_never_declined
           (request (employee 9) (Transactions.PostVerify (Some 7%N))) 7
           (Transactions.serveAll
              [request (customer 1) (Transactions.PostCreate 7 (Some demoPayment))]
              []).2
           [request (customer 1) (Transactions.PostCreate 8 (Some demoPayment))]
           (request (customer 2)
              (Transactions.PostDecline (Some (7%N, js "changed my mind"))))).
  - reflexivity.
  - reflexivity.
  - left. eexists. reflexivity.
Defined.

Lemma customers_only_append_witness :
  exists created,
    (Transactions.serveAll
       [request (customer 1) (Transactions.PostVerify (Some 7%N));
        request (customer 1) (Transactions.PostCreate 8 (Some demoPayment))]
       demoStore).2
    = demoStore ++ created.
Proof.
  destruct (customers_only_append
              [request (customer 1) (Transactions.PostVerify (Some 7%N));
               request (customer 1) (Transactions.PostCreate 8 (Some demoPayment))]
              demoStore) as [(created & Heq & _) _].
  - repeat constructor.
  - exists created. exact Heq.
Defined.

Lemma submitToSwift_submits_verified_witness :
  (Transactions.submitToSwift (employee 9) 5 5 (Some [7%N]) demoStore).1
  = Transactions.json 200 (Transactions.Submitted 1).
Proof.
  apply (submitToSwift_submits_verified (employee 9) 5 5 6 6 [7%N] demoStore).
  - reflexivity.
  - discriminate.
Defined.
